(** * Mofix preview subsystem: a shallow embedding of apps/web/src/server.ts

    The development follows the preview/session part of the web server:
    the port allocator [getFreePort], the health prober [ping] /
    [waitForOkAny], the launcher [spawnDev] / [spawnDevServerWithRetry],
    the in-memory stores with their periodic sweep, the stop handler
    [DELETE /api/preview/:id] and the two proxy middlewares.

    Effects are modelled by explicit state passing.  The state is a
    [World]: the wall clock read by [Date.now()] and the trace of the
    effects the server has issued so far (latest first).  Everything the
    operating system, the network and the child processes decide is an
    oracle of the current world, collected in the record [Env]. *)

From Stdlib Require Import ZArith Lia Ascii.
From stdpp Require Import gmap strings pretty.

Local Open Scope string_scope.
Local Open Scope list_scope.
Local Open Scope Z_scope.

(** ** Effects *)

Inductive method := HEAD | GET.

(** The [stdio] option of [child_process.spawn]. *)
Inductive stdio := Inherit | Pipe.

Inductive event :=
| EvListen (p : Z) (ok : bool)      (* srv.listen(p, "0.0.0.0") and its outcome *)
| EvClose (p : Z)                   (* srv.close() *)
| EvSpawn (cmd : string) (args : list string) (cwd : string)
          (env : gmap string string) (io : stdio) (pid : option Z)
| EvFetch (url : string) (m : method) (timeoutMs : Z)
| EvSleep (ms : Z)                  (* await new Promise(r => setTimeout(r, ms)) *)
| EvKill (pid : Z)                  (* process.kill(pid, "SIGTERM") *)
| EvRemove (path : string).         (* fs.remove(path): recursive delete *)

Record World := mkWorld {
  now : Z;                 (* Date.now(), in milliseconds *)
  trace : list event       (* effects issued so far, latest first *)
}.

Definition log (e : event) (w : World) : World :=
  {| now := now w; trace := e :: trace w |}.

Definition advance (ms : Z) (w : World) : World :=
  {| now := now w + ms; trace := trace w |}.

Inductive error :=
| Error (msg : string)              (* new Error(msg) *)
| ERR_SOCKET_BAD_PORT (p : Z)       (* thrown by listen() on a port outside 0..65535 *)
| ESRCH (pid : Z)                   (* thrown by process.kill on a dead pid *)
| FsError (path : string).

(** What a [fetch] can come to. *)
Inductive reply :=
| Reply (status : Z) (latency : N)  (* response headers after [latency] ms *)
| NetError (latency : N)            (* connection refused / reset after [latency] ms *)
| NoReply.                          (* nothing ever comes back *)

(** The child handle returned by [spawn]; [pid] is undefined when the
    executable could not be started. *)
Record ChildProcess := mkChild { pid : option Z }.

(** [package.json] as far as the launcher reads it.  A dependency value
    is the version string. *)
Record PackageJson := mkPkg {
  dependencies : option (gmap string string);
  devDependencies : option (gmap string string)
}.

Record Env := mkEnv {
  listen_fails : World -> Z -> bool;        (* "error" event when binding the port *)
  fetch : World -> string -> method -> reply;
  url_resolve : string -> string -> option string;  (* new URL(p, base).toString(); None = throws *)
  timer_overrun : World -> N;               (* how late a timer fires *)
  spawn_pid : World -> option Z;            (* pid of the next spawned child *)
  kill_fails : World -> Z -> bool;          (* process.kill throws *)
  remove_fails : World -> string -> bool;   (* fs.remove rejects *)
  child_logged_port : World -> Z -> option Z; (* port a child announces on its stdout *)
  readJson : World -> string -> option PackageJson;
  win32 : bool;                             (* process.platform === "win32" *)
  process_env : gmap string string          (* process.env *)
}.

(** ** A small state-and-exception monad *)

Inductive outcome (A : Type) :=
| Ok (a : A)
| Throw (e : error)
| Pending.          (* the loop budget of the model ran out *)
Arguments Ok {A} a.
Arguments Throw {A} e.
Arguments Pending {A}.

Definition M (A : Type) : Type := World -> outcome A * World.

Definition ret {A} (a : A) : M A := fun w => (Ok a, w).
Definition throw {A} (e : error) : M A := fun w => (Throw e, w).
Definition bind {A B} (c : M A) (k : A -> M B) : M B := fun w =>
  match c w with
  | (Ok a, w') => k a w'
  | (Throw e, w') => (Throw e, w')
  | (Pending, w') => (Pending, w')
  end.
(** [try { c } catch {}]: an exception is swallowed. *)
Definition try_ignore (c : M unit) : M unit := fun w =>
  match c w with
  | (Throw _, w') => (Ok tt, w')
  | r => r
  end.

Notation "'do' x <- c ; k" := (bind c (fun x => k))
  (at level 10, x name, c at level 100, k at level 200).
Notation "c ;; k" := (bind c (fun _ => k))
  (at level 100, k at level 200, right associativity).

(** JavaScript truthiness of an optional string. *)
Definition truthy (v : option string) : bool :=
  match v with
  | Some s => negb (bool_decide (s = ""))
  | None => false
  end.

(** [String(n)] and the template literal [`${n}`] of an integer. *)
Definition String_ (n : Z) : string := pretty n.

(** [setTimeout] sets a delay below 1 or above 2^31-1 to 1. *)
Definition timer_delay (ms : Z) : Z :=
  if (ms <? 1) || (2147483647 <? ms) then 1 else ms.

Module Os.
Section Os.
Variable E : Env.

(** [await new Promise((r) => setTimeout(r, ms))]. *)
Definition sleep (ms : Z) : M unit := fun w =>
  (Ok tt, advance (timer_delay ms + Z.of_N (timer_overrun E w)) (log (EvSleep ms) w)).

(** [process.kill(pid, "SIGTERM")]. *)
Definition process_kill (p : Z) : M unit := fun w =>
  if kill_fails E w p then (Throw (ESRCH p), log (EvKill p) w)
  else (Ok tt, log (EvKill p) w).

(** [fs.remove(path)] of fs-extra: recursive, may reject. *)
Definition fs_remove (path : string) : M unit := fun w =>
  if remove_fails E w path then (Throw (FsError path), log (EvRemove path) w)
  else (Ok tt, log (EvRemove path) w).

End Os.
End Os.

Module Allocator.
Section Allocator.
Variable E : Env.

(** [tryPort]: bind an ephemeral listener; "error" resolves false,
    "listening" closes the listener and resolves true.  [listen]
    validates the port synchronously, so a port outside 0..65535
    rejects the promise. *)
Definition tryPort (p : Z) : M bool := fun w =>
  if (0 <=? p) && (p <=? 65535) then
    if listen_fails E w p then (Ok false, log (EvListen p false) w)
    else (Ok true, log (EvClose p) (log (EvListen p true) w))
  else (Throw (ERR_SOCKET_BAD_PORT p), w).

(** [for (let p = start; p <= end; p++) if (await tryPort(p)) return p;
    throw new Error("No free port found")], with [n] candidates left. *)
Fixpoint scan (n : nat) (p : Z) : M Z :=
  match n with
  | O => throw (Error "No free port found")
  | S n' => do b <- tryPort p; if b then ret p else scan n' (p + 1)
  end.

Definition getFreePort (start end_ : Z) : M Z :=
  scan (Z.to_nat (end_ - start + 1)) start.

(** The failed binds on [n] consecutive ports from [p], latest first. *)
Fixpoint failed (n : nat) (p : Z) : list event :=
  match n with
  | O => []
  | S n' => failed n' (p + 1) ++ [EvListen p false]
  end.

End Allocator.
End Allocator.

Module Prober.
Import Os.
Section Prober.
Variable E : Env.

Record PingResult := mkPing { ok : bool; status : Z }.

(** [ping]: a fetch raced against an abort timer; every failure is
    caught and turned into [{ ok: false, status: 0 }]. *)
Definition ping (url : string) (m : method) (timeoutMs : Z) : M PingResult := fun w =>
  let w1 := log (EvFetch url m timeoutMs) w in
  let t := timer_delay timeoutMs in
  match fetch E w url m with
  | Reply st lat =>
      if Z.of_N lat <? t
      then (Ok (mkPing ((200 <=? st) && (st <=? 299)) st), advance (Z.of_N lat) w1)
      else (Ok (mkPing false 0), advance t w1)
  | NetError lat => (Ok (mkPing false 0), advance (Z.min (Z.of_N lat) t) w1)
  | NoReply => (Ok (mkPing false 0), advance t w1)
  end.

Definition paths : list string :=
  ["/"; "/index.html"; "/api/health"; "/api/hello"; "/api/status"].

(** One tick: the [for (const p of paths)] loop.  [true] is the early
    [return true]; a throwing [new URL] is caught and the path skipped. *)
Fixpoint probe_paths (base : string) (intervalMs : Z) (ps : list string) : M bool :=
  match ps with
  | [] => ret false
  | p :: ps' =>
      match url_resolve E p base with
      | None => probe_paths base intervalMs ps'
      | Some url =>
          do head <- ping url HEAD (Z.min 2000 intervalMs);
          if ok head then ret true else
          do get <- ping url GET (Z.min 2000 intervalMs);
          if ok get then ret true else probe_paths base intervalMs ps'
      end
  end.

(** [while (Date.now() - t0 < totalMs) { tick; sleep }  return false].
    [fuel] bounds the number of ticks of the model. *)
Fixpoint poll (fuel : nat) (base : string) (t0 totalMs intervalMs : Z) : M bool := fun w =>
  if now w - t0 <? totalMs then
    match fuel with
    | O => (Pending, w)
    | S fuel' =>
        (do hit <- probe_paths base intervalMs paths;
         if hit then ret true
         else sleep E intervalMs ;; poll fuel' base t0 totalMs intervalMs) w
    end
  else (Ok false, w).

(** Every tick ends in a sleep of at least one millisecond, so
    [totalMs] ticks are enough (see [poll_enough_fuel]). *)
Definition waitForOkAny (base : string) (totalMs intervalMs : Z) : M bool := fun w =>
  poll (Z.to_nat totalMs) base (now w) totalMs intervalMs w.

End Prober.
End Prober.

Module Launcher.
Import Os Allocator Prober.
Section Launcher.
Variable E : Env.

Definition spawnDev (cwd : string) (args : list string) (env : gmap string string)
    (io : stdio) : M ChildProcess := fun w =>
  let cmd := if win32 E then "npm.cmd" else "npm" in
  let child := mkChild (spawn_pid E w) in
  (Ok child, log (EvSpawn cmd args cwd env io (pid child)) w).

Record Strategy := mkStrategy {
  args : list string;
  env : option (gmap string string);
  note : string
}.

(** The [tries] array built in each attempt. *)
Definition tries (isVite isNext : bool) (port : Z) : list Strategy :=
  let commonArgs := ["run"; "dev"; "--"; "--port"; String_ port] in
  let envp := Some (<["PORT" := String_ port]> (process_env E)) in
  (if isVite then
     [mkStrategy (commonArgs ++ ["--host"; "127.0.0.1"; "--strictPort"]) envp
                 "vite --port --strictPort"]
   else if isNext then [mkStrategy commonArgs envp "next --port"]
   else [mkStrategy commonArgs envp "unknown --port"])
  ++ (if isNext then [mkStrategy ["run"; "dev"] envp "next env PORT only"] else []).

Definition base_url (port : Z) : string := "http://127.0.0.1:" +:+ String_ port.

(** [for (const t of tries) { ... }]; [Some] is the early return. *)
Fixpoint run_tries (cwd : string) (port : Z) (ts : list Strategy)
    : M (option (ChildProcess * Z)) :=
  match ts with
  | [] => ret None
  | t :: ts' =>
      do child <- spawnDev cwd (args t) (default (process_env E) (env t)) Inherit;
      do healthy <- waitForOkAny E (base_url port) 20000 600;
      if healthy then ret (Some (child, port)) else
      try_ignore (process_kill E (default (-1) (pid child))) ;;
      sleep E 300 ;;
      run_tries cwd port ts'
  end.

(** [for (let attempt = 0; attempt < maxRetry; attempt++) { ... }
    throw new Error("Failed to start dev server")], [n] attempts left. *)
Fixpoint attempts (n : nat) (cwd : string) (isVite isNext : bool)
    : M (ChildProcess * Z) :=
  match n with
  | O => throw (Error "Failed to start dev server")
  | S n' =>
      do port <- getFreePort E 5100 5199;
      do r <- run_tries cwd port (tries isVite isNext port);
      match r with
      | Some res => ret res
      | None => attempts n' cwd isVite isNext
      end
  end.

(** The package analysis: [deps = {...dependencies, ...devDependencies}],
    [isVite = !!deps.vite], [isNext = !!deps.next]; both false when
    package.json cannot be read. *)
Definition detect (cwd : string) : M (bool * bool) := fun w =>
  match readJson E w (cwd +:+ "/package.json") with
  | Some pkg =>
      let deps : gmap string string :=
        default ∅ (devDependencies pkg) ∪ default ∅ (dependencies pkg) in
      (Ok (truthy (deps !! "vite"), truthy (deps !! "next")), w)
  | None => (Ok (false, false), w)
  end.

Definition spawnDevServerWithRetry (cwd : string) (maxRetry : nat)
    : M (ChildProcess * Z) :=
  do flags <- detect cwd;
  attempts maxRetry cwd (fst flags) (snd flags).

End Launcher.
End Launcher.

Module Registry.
Import Os.

Record PreviewSession := mkPreview {
  id : string;
  port : Z;
  tempDir : string;
  childPid : Z;
  startedAt : Z
}.

Record PlanSession := mkPlan {
  projectRoot : string;
  plan_tempDir : string;
  plan_timestamp : Z
}.

Record MigrationResult := mkResult {
  zipPath : string;
  timestamp : Z
}.

(** The four module-level [Map]s. *)
Record Stores := mkStores {
  migrationResults : gmap string MigrationResult;
  planSessions : gmap string PlanSession;
  diagnoseSessions : gmap string PlanSession;
  previewSessions : gmap string PreviewSession
}.

Definition CLEANUP_INTERVAL : Z := 10 * 60 * 1000.

Definition expired (now_ ts : Z) : Prop := now_ - ts > CLEANUP_INTERVAL.

#[global] Instance expired_dec now_ ts : Decision (expired now_ ts).
Proof. unfold expired. apply _. Defined.

(** JSON bodies of the preview API, and plain text bodies. *)
Inductive body :=
| Json (ok : bool) (err : option string)
| Text (s : string).

Record Response := mkResponse { code : Z; payload : body }.

Section Handlers.
Variable E : Env.

(** One [for (const [k, v] of store)] loop of the sweep: an expired
    entry has its path removed (fire and forget, rejection swallowed)
    and is deleted from the store.  The removals are logged in the
    order of [map_to_list], which need not be the insertion order of
    the JavaScript [Map]. *)
Definition sweep_store {V} (ts : V -> Z) (path : V -> string) (now_ : Z)
    (m : gmap string V) : M (gmap string V) := fun w =>
  let gone := filter (fun kv => expired now_ (ts kv.2)) m in
  let w' := foldr (fun kv w => snd (try_ignore (fs_remove E (path kv.2)) w)) w
                  (map_to_list gone) in
  (Ok (filter (fun kv => ~ expired now_ (ts kv.2)) m), w').

(** The body of the [setInterval] callback. *)
Definition sweep (st : Stores) : M Stores := fun w =>
  let now_ := now w in
  (do mr <- sweep_store timestamp zipPath now_ (migrationResults st);
   do pl <- sweep_store plan_timestamp plan_tempDir now_ (planSessions st);
   do dg <- sweep_store plan_timestamp plan_tempDir now_ (diagnoseSessions st);
   ret (mkStores mr pl dg (previewSessions st))) w.

(** [app.delete("/api/preview/:id", ...)]. *)
Definition delete_preview (i : string) (st : Stores) : M (Response * Stores) :=
  match previewSessions st !! i with
  | None => ret (mkResponse 404 (Json false (Some "Preview not found")), st)
  | Some sess =>
      try_ignore (process_kill E (childPid sess)) ;;
      let st' := mkStores (migrationResults st) (planSessions st)
                          (diagnoseSessions st) (delete i (previewSessions st)) in
      try_ignore (fs_remove E (tempDir sess)) ;;
      ret (mkResponse 200 (Json true None), st')
  end.

(** [previewSessions.get(id)], as a registry lookup. *)
Definition lookup_session (i : string) (st : Stores) : option PreviewSession :=
  previewSessions st !! i.

End Handlers.
End Registry.

Module Router.
Import Registry.

(** ** String helpers for the two regular expressions and the mount path *)

Fixpoint sdrop (n : nat) (s : string) : string :=
  match n, s with
  | S n', String _ s' => sdrop n' s'
  | _, _ => s
  end.

Fixpoint stake (n : nat) (s : string) : string :=
  match n, s with
  | S n', String c s' => String c (stake n' s')
  | _, _ => ""
  end.

Definition to_lower (c : Ascii.ascii) : Ascii.ascii :=
  let n := Ascii.N_of_ascii c in
  if ((65 <=? n) && (n <=? 90))%N then Ascii.ascii_of_N (n + 32) else c.

Fixpoint slower (s : string) : string :=
  match s with
  | "" => ""
  | String c s' => String (to_lower c) (slower s')
  end.

(** The character class [[0-9a-f-]]. *)
Definition is_id_char (c : Ascii.ascii) : bool :=
  let n := Ascii.N_of_ascii c in
  (((48 <=? n) && (n <=? 57)) || ((97 <=? n) && (n <=? 102)) || (n =? 45))%N.

(** [[0-9a-f-]{n}] at the head of [s]. *)
Fixpoint take_id (n : nat) (s : string) : option string :=
  match n with
  | O => Some ""
  | S n' =>
      match s with
      | String c s' =>
          if is_id_char c then String c <$> take_id n' s' else None
      | "" => None
      end
  end.

(** [/\/preview\/([0-9a-f-]{36})/] anchored at the head of [s]. *)
Definition match_here (s : string) : option string :=
  if String.prefix "/preview/" s then take_id 36 (sdrop 9 s) else None.

(** [s.match(/\/preview\/([0-9a-f-]{36})/)]: capture group 1 of the
    leftmost match. *)
Fixpoint preview_match (s : string) : option string :=
  match match_here s with
  | Some i => Some i
  | None =>
      match s with
      | String _ s' => preview_match s'
      | "" => None
      end
  end.

(** [/^\/(@vite|src|node_modules|__vite_ping)/.test(path)]. *)
Definition absAsset (path : string) : bool :=
  String.prefix "/@vite" path || String.prefix "/src" path
  || String.prefix "/node_modules" path || String.prefix "/__vite_ping" path.

(** The segment up to the next slash. *)
Fixpoint segment (s : string) : string :=
  match s with
  | "" => ""
  | String c s' => if Ascii.eqb c "/"%char then "" else String c (segment s')
  end.

(** The mount path ["/preview/:id"] of [app.use]: a case-insensitive
    prefix match, the parameter being the next non-empty segment (not
    yet percent-decoded). *)
Definition mount_preview (path : string) : option string :=
  if String.eqb (slower (stake 9 path)) "/preview/" then
    let seg := segment (sdrop 9 path) in
    if String.eqb seg "" then None else Some seg
  else None.

(** [pathRewrite]: [if (prefix && path.startsWith(prefix)) return
    path.slice(prefix.length) || "/"; return path]. *)
Definition pathRewrite (prefix path : string) : string :=
  if negb (String.eqb prefix "") && String.prefix prefix path then
    let r := sdrop (String.length prefix) path in
    if String.eqb r "" then "/" else r
  else path.

(** ** Requests and middleware results *)

(** A header value of [IncomingHttpHeaders]: [string | string[]]. *)
Inductive header := HString (s : string) | HArray (l : list string).

Record Request := mkRequest {
  path : string;                 (* req.path *)
  referer : option string;       (* req.headers.referer *)
  referrer : option header       (* req.headers.referrer *)
}.

Inductive action :=
| Send (code : Z) (text : string)          (* res.status(code).send(text) *)
| Forward (target : string) (path : string)  (* handed to the proxy *)
| Next                                     (* next(): normal routing goes on *)
| NextErr (msg : string).                  (* next(err) *)

Definition header_truthy (h : option header) : bool :=
  match h with
  | Some (HString s) => negb (String.eqb s "")
  | Some (HArray _) => true
  | None => false
  end.

(** [req.headers.referer || req.headers.referrer || ""]. *)
Definition ref_of (req : Request) : header :=
  if truthy (referer req) then HString (default "" (referer req))
  else if header_truthy (referrer req) then default (HString "") (referrer req)
  else HString "".

(** [typeof ref === "string" ? ref.match(...) : null], capture 1. *)
Definition referer_id (req : Request) : option string :=
  match ref_of req with
  | HString s => preview_match s
  | HArray _ => None
  end.

Definition target_of (sess : PreviewSession) : string :=
  "http://127.0.0.1:" +:+ String_ (port sess).

Section Middlewares.
(** [decodeURIComponent] as Express applies it to a route parameter;
    [None] when it throws on a malformed escape. *)
Variable decodeURIComponent : string -> option string.
Variable st : Stores.

(** The Referer-based middleware. *)
Definition referer_mw (req : Request) : action :=
  match referer_id req with
  | Some i =>
      if absAsset (path req) then
        match previewSessions st !! i with
        | None => Send 404 "Preview session not found"
        | Some sess => Forward (target_of sess) (path req)
        end
      else Next
  | None => Next
  end.

(** [app.use("/preview/:id", ...)]: the guard followed by the proxy. *)
Definition preview_mw (req : Request) : action :=
  match mount_preview (path req) with
  | None => Next
  | Some seg =>
      match decodeURIComponent seg with
      | None => NextErr ("Failed to decode param '" +:+ seg +:+ "'")
      | Some i =>
          match previewSessions st !! i with
          | None => Send 404 "Preview not found or stopped"
          | Some sess =>
              Forward (target_of sess) (pathRewrite ("/preview/" +:+ i) (path req))
          end
      end
  end.

(** The two middlewares in registration order. *)
Definition proxy_router (req : Request) : action :=
  match referer_mw req with
  | Next => preview_mw req
  | a => a
  end.

End Middlewares.
End Router.

(** * Specification vocabulary: what the traces are compared with *)

Module ProbeSpec.
Import Prober.

(** A reply that makes [ping] report [ok]: a 2xx status that arrives
    before the abort timer of [t] milliseconds fires. *)
Definition answers_ok (r : reply) (t : Z) : bool :=
  match r with
  | Reply st lat => (200 <=? st) && (st <=? 299) && (Z.of_N lat <? t)
  | _ => false
  end.

(** The per-request timeout [Math.min(2000, intervalMs)] as the timer
    applies it. *)
Definition request_timeout (intervalMs : Z) : Z :=
  timer_delay (Z.min 2000 intervalMs).

(** Some candidate path answers 2xx in time, to HEAD or to GET. *)
Definition healthy (E : Env) (base : string) (intervalMs : Z) : Prop :=
  exists p url m, p ∈ paths /\ url_resolve E p base = Some url /\
    forall w, answers_ok (fetch E w url m) (request_timeout intervalMs) = true.

(** The stub that answers 500 to everything, for ever. *)
Definition only_500 (E : Env) : Prop :=
  forall w url m, exists lat, fetch E w url m = Reply 500 lat.

(** The requests of one tick in which nothing answers ok, in the order
    they are issued. *)
Definition tick_events (E : Env) (base : string) (intervalMs : Z)
    (ps : list string) : list event :=
  flat_map (fun p =>
    match url_resolve E p base with
    | Some url => [EvFetch url HEAD (Z.min 2000 intervalMs);
                   EvFetch url GET (Z.min 2000 intervalMs)]
    | None => []
    end) ps.

(** [k] fruitless ticks, each followed by its sleep; latest first. *)
Fixpoint rounds (E : Env) (base : string) (intervalMs : Z) (k : nat) : list event :=
  match k with
  | O => []
  | S k' => rounds E base intervalMs k'
            ++ EvSleep intervalMs :: rev (tick_events E base intervalMs paths)
  end.

Definition is_fetch (e : event) : Prop :=
  match e with EvFetch _ _ _ => True | _ => False end.

(** The events a probe of [base] may leave: requests for candidate
    paths resolved against [base], and the sleeps between ticks. *)
Definition probe_event (E : Env) (base : string) (intervalMs : Z) (ps : list string)
    (e : event) : Prop :=
  match e with
  | EvFetch url _ t =>
      t = Z.min 2000 intervalMs /\ exists p, p ∈ ps /\ url_resolve E p base = Some url
  | EvSleep ms => ms = intervalMs
  | _ => False
  end.

End ProbeSpec.

Module LaunchSpec.
Import Prober Launcher ProbeSpec.

Definition npm (E : Env) : string := if win32 E then "npm.cmd" else "npm".

(** A successful allocation of [p] from 5100..5199, in the order of
    time: the failed binds below [p], the bind of [p], its close. *)
Definition alloc_events (p : Z) : list event :=
  rev (EvClose p :: EvListen p true :: Allocator.failed (Z.to_nat (p - 5100)) 5100).

(** The spawn of strategy [t] in [cwd], giving [child]. *)
Definition spawn_event (E : Env) (cwd : string) (t : Strategy) (child : ChildProcess)
    : event :=
  EvSpawn (npm E) (args t) cwd (default (process_env E) (env t)) Inherit (pid child).

(** The events of a launch probe of [port]: default budget, 600 ms
    interval, against [http://127.0.0.1:<port>]. *)
Definition launch_probe (E : Env) (port : Z) : event -> Prop :=
  probe_event E (base_url port) 600 paths.

(** The trace, in the order of time, of trying the strategies [ts] one
    after the other on [port]; the index is the child handed back, if
    any. *)
Inductive tries_trace (E : Env) (cwd : string) (port : Z)
    : list Strategy -> option ChildProcess -> list event -> Prop :=
| tries_none : tries_trace E cwd port [] None []
| tries_hit t ts child probes :
    Forall (launch_probe E port) probes ->
    tries_trace E cwd port (t :: ts) (Some child) (spawn_event E cwd t child :: probes)
| tries_miss t ts child probes r rest :
    Forall (launch_probe E port) probes ->
    tries_trace E cwd port ts r rest ->
    tries_trace E cwd port (t :: ts) r
      (spawn_event E cwd t child :: probes
         ++ EvKill (default (-1) (pid child)) :: EvSleep 300 :: rest).

(** The trace of [n] attempts and their outcome. *)
Inductive attempts_trace (E : Env) (cwd : string) (isVite isNext : bool)
    : nat -> outcome (ChildProcess * Z) -> list event -> Prop :=
| attempts_out :
    attempts_trace E cwd isVite isNext O (Throw (Error "Failed to start dev server")) []
| attempts_no_port n :
    attempts_trace E cwd isVite isNext (S n) (Throw (Error "No free port found"))
      (rev (Allocator.failed 100 5100))
| attempts_hit n port child evs :
    5100 <= port <= 5199 ->
    tries_trace E cwd port (tries E isVite isNext port) (Some child) evs ->
    attempts_trace E cwd isVite isNext (S n) (Ok (child, port)) (alloc_events port ++ evs)
| attempts_miss n port evs r rest :
    5100 <= port <= 5199 ->
    tries_trace E cwd port (tries E isVite isNext port) None evs ->
    attempts_trace E cwd isVite isNext n r rest ->
    attempts_trace E cwd isVite isNext (S n) r (alloc_events port ++ evs ++ rest).

Definition spawn_inherits (e : event) : Prop :=
  match e with
  | EvSpawn _ _ _ _ io _ => io = Inherit
  | _ => True
  end.

(** The same environment with other output from the children. *)
Definition with_logged_port (f : World -> Z -> option Z) (E : Env) : Env :=
  mkEnv (listen_fails E) (fetch E) (url_resolve E) (timer_overrun E) (spawn_pid E)
        (kill_fails E) (remove_fails E) f (readJson E) (win32 E) (process_env E).

(** Counting the successful allocations and the spawns of a trace, and
    reading the PORT each spawn was given. *)
Definition count_allocs (tr : list event) : nat :=
  length (List.filter (fun e => match e with EvClose _ => true | _ => false end) tr).

Definition spawn_ports (tr : list event) : list (option string) :=
  flat_map (fun e => match e with
                     | EvSpawn _ _ _ env _ _ => [env !! "PORT"]
                     | _ => []
                     end) tr.

End LaunchSpec.

Module ReaperSpec.
Import Registry.

Definition is_remove (e : event) : Prop :=
  match e with EvRemove _ => True | _ => False end.

(** Store [m'] is store [m] after a sweep at time [now_] that issued
    the events [new]: an expired entry is gone and its path has been
    removed, any other entry is as it was. *)
Definition swept {V} (ts : V -> Z) (path : V -> string) (now_ : Z)
    (m m' : gmap string V) (new : list event) : Prop :=
  forall k,
    match m !! k with
    | Some v =>
        if decide (expired now_ (ts v))
        then m' !! k = None /\ In (EvRemove (path v)) new
        else m' !! k = Some v
    | None => m' !! k = None
    end.

End ReaperSpec.

Module RouterSpec.
Import Router.

(** [s] contains [/preview/<i>] with [i] made of 36 characters of
    [[0-9a-f-]]. *)
Definition names_session (s i : string) : Prop :=
  exists pre post, s = pre +:+ "/preview/" +:+ i +:+ post /\
    String.length i = 36%nat /\
    Forall (fun c => is_id_char c = true) (String.list_ascii_of_string i).

End RouterSpec.

(** * Scenarios: concrete environments used by the examples below *)

Module Scenario.
Import Registry Router.

Definition w0 : World := mkWorld 0 [].

(** [new URL(p, base)] for an origin-only base and an absolute path. *)
Definition join_url (p base : string) : option string := Some (base +:+ p).

(** A quiet machine: every port binds, nothing answers on the network,
    every child starts with pid 4242. *)
Definition E_idle : Env :=
  mkEnv (fun _ _ => false) (fun _ _ _ => NetError 0) join_url (fun _ => 0%N)
        (fun _ => Some 4242) (fun _ _ => false) (fun _ _ => false)
        (fun _ _ => None) (fun _ _ => None) false ∅.

(** Ports 5100..5102 are taken. *)
Definition E_three_taken : Env :=
  mkEnv (fun _ p => bool_decide (5100 <= p <= 5102)) (fun _ _ _ => NetError 0)
        join_url (fun _ => 0%N) (fun _ => Some 4242) (fun _ _ => false)
        (fun _ _ => false) (fun _ _ => None) (fun _ _ => None) false ∅.

(** A backend that answers 200 to every request after 3 ms. *)
Definition E_up : Env :=
  mkEnv (fun _ _ => false) (fun _ _ _ => Reply 200 3) join_url (fun _ => 0%N)
        (fun _ => Some 4242) (fun _ _ => false) (fun _ _ => false)
        (fun _ _ => None) (fun _ _ => None) false ∅.

(** A backend that answers 500 to every request after 3 ms. *)
Definition E_500 : Env :=
  mkEnv (fun _ _ => false) (fun _ _ _ => Reply 500 3) join_url (fun _ => 0%N)
        (fun _ => Some 4242) (fun _ _ => false) (fun _ _ => false)
        (fun _ _ => None) (fun _ _ => None) false ∅.



(** A Next project whose dev server never comes up. *)
Definition next_pkg : PackageJson :=
  mkPkg (Some {["next" := "^14.2.5"; "react" := "^18.3.1"]}) None.

Definition E_next_down : Env :=
  mkEnv (fun _ _ => false) (fun _ _ _ => NetError 0) join_url (fun _ => 0%N)
        (fun _ => Some 4242) (fun _ _ => false) (fun _ _ => false)
        (fun _ _ => None) (fun _ _ => Some next_pkg) false ∅.

(** The requested port 5100 is answered by somebody else, and the child
    announces on its output that it took 5101 instead. *)
Definition E_shifted : Env :=
  mkEnv (fun _ _ => false) (fun _ _ _ => Reply 200 3) join_url (fun _ => 0%N)
        (fun _ => Some 4242) (fun _ _ => false) (fun _ _ => false)
        (fun _ _ => Some 5101) (fun _ _ => Some next_pkg) false ∅.

(** Requests: an asset request sent from the page of an unregistered
    preview, and a request under the prefix of an unknown session. *)
Definition ghost : string := "3f1c0c1e-7a59-4d6b-9d0e-2b1f4e5a6c7d".

Definition req_asset : Router.Request :=
  Router.mkRequest "/src/main.ts"
    (Some ("http://localhost:5002/preview/" +:+ ghost +:+ "/")) None.

Definition req_prefixed : Router.Request :=
  Router.mkRequest ("/preview/" +:+ ghost +:+ "/index.html") None None.

(** Stores: empty, and with one preview session started at time 0. *)
Definition st_empty : Stores := mkStores ∅ ∅ ∅ ∅.

Definition s1 : PreviewSession :=
  mkPreview "s1" 5100 "temp/preview/s1" 4242 0.

Definition st_one : Stores := mkStores ∅ ∅ ∅ {["s1" := s1]}.

(** One day after time 0. *)
Definition w_day : World := mkWorld 86400000 [].


End Scenario.

(** * The rest of the preview flow: project root, start, health, download *)

Module ProjectRoot.

(** A directory entry of [readdir(dir, { withFileTypes: true })]. *)
Record Dirent := mkDirent { name : string; isDirectory : bool }.

Section Resolve.
(** [path.join], and a snapshot of the file system: whether
    [fsp.access] succeeds on a path, and what [fsp.readdir] gives for a
    directory ([None] when it rejects). *)
Variable join : string -> string -> string.
Variable access : string -> bool.
Variable readdir : string -> option (list Dirent).

Definition hasPkg (p : string) : bool := access (join p "package.json").

(** [entries.filter(e => e.isDirectory() && e.name !== "__MACOSX")
            .map(d => path.join(dir, d.name))]. *)
Definition subdirs (dir : string) (entries : list Dirent) : list string :=
  map (fun d => join dir (name d))
      (List.filter (fun e => isDirectory e && negb (String.eqb (name e) "__MACOSX"))
                   entries).

(** [for (const s of sub.filter(...)) { const cand = path.join(d, s.name);
    if (await hasPkg(cand)) return cand; }] after [readdir(d)]; [Some] is
    the early return. *)
Definition scan_sub (d : string) : outcome (option string) :=
  match readdir d with
  | None => Throw (FsError d)
  | Some sub => Ok (List.find hasPkg (subdirs d sub))
  end.

(** [for (const d of dirs) { const sub = await readdir(d); ... }]. *)
Fixpoint scan_subs (dirs : list string) : outcome (option string) :=
  match dirs with
  | [] => Ok None
  | d :: ds =>
      match scan_sub d with
      | Ok (Some c) => Ok (Some c)
      | Ok None => scan_subs ds
      | Throw e => Throw e
      | Pending => Pending
      end
  end.

(** The two closing loops and the fallback [return extractedDir]. *)
Definition closing_loops (extractedDir : string) (dirs : list string) : outcome string :=
  match List.find hasPkg dirs with
  | Some d => Ok d
  | None =>
      match scan_subs dirs with
      | Ok (Some c) => Ok c
      | Ok None => Ok extractedDir
      | Throw e => Throw e
      | Pending => Pending
      end
  end.

Definition resolveProjectRoot (extractedDir : string) : outcome string :=
  if hasPkg extractedDir then Ok extractedDir else
  match readdir extractedDir with
  | None => Throw (FsError extractedDir)
  | Some entries =>
      let dirs := subdirs extractedDir entries in
      match dirs with
      | [d0] =>
          if hasPkg d0 then Ok d0 else
          match scan_sub d0 with
          | Ok (Some c) => Ok c
          | Ok None => closing_loops extractedDir dirs
          | Throw e => Throw e
          | Pending => Pending
          end
      | _ => closing_loops extractedDir dirs
      end
  end.

End Resolve.
End ProjectRoot.

Module Preview.
Import Os Prober Launcher Registry ProjectRoot.

(** What the start handler needs from the host besides [Env]: the
    uuid generator, the file system (read as a snapshot of the current
    world), the outcome of directory creation and of the extraction,
    and the time [npm i] takes to exit ([None]: it never does).  The
    trace keeps to the effects of [event]; creating the directory and
    extracting the archive show through their outcome only. *)
Record Host := mkHost {
  uuidv4 : World -> string;
  pathExists : World -> string -> bool;
  ensureDir_fails : World -> string -> bool;
  extract_fails : World -> string -> string -> bool;
  fs_access : World -> string -> bool;
  fs_readdir : World -> string -> option (list Dirent);
  install_time : World -> option N;
  path_join : string -> string -> string;
  node_message : error -> string      (* [e.message] of an error Node raised *)
}.

(** The body fields the start route looks at. *)
Record StartBody := mkStartBody {
  resultId : option string;
  body_id : option string;
  zipId : option string;
  downloadId : option string
}.

(** The object [sendPreviewOk] sends, beside [ok: true]. *)
Record PreviewOk := mkPreviewOk {
  previewId : string;
  previewUrl : string;
  directUrl : string;
  url : string;
  externalUrl : string;
  healthUrl : string;
  target : string;
  ok_port : Z
}.

Inductive StartResponse :=
| StartOk (b : PreviewOk)        (* res.json({ ok: true, ... }) *)
| StartFail (r : Response).      (* res.status(code).json({ ok: false, error }) *)

(** The report of the health route: [{ ok, url, target, port }]. *)
Record HealthReport := mkHealth {
  healthy_now : bool;
  health_url : string;
  health_target : string;
  health_port : Z
}.

Definition RESULTS : string := "temp/results".
Definition PREVIEW : string := "temp/preview".

Definition sendPreviewOk (previewId_ : string) (port_ : Z) : PreviewOk :=
  let base := "http://127.0.0.1:" +:+ String_ port_ +:+ "/" in
  let url_ := "/preview/" +:+ previewId_ in
  mkPreviewOk previewId_ url_ base url_ url_ base base port_.

(** [a || b || c || d] on optional strings, as far as [!id] tells. *)
Definition first_truthy (l : list (option string)) : option string :=
  match List.find truthy l with
  | Some v => v
  | None => None
  end.

(** [e?.message]. *)
Definition message (H : Host) (e : error) : string :=
  match e with
  | Error msg => msg
  | _ => node_message H e
  end.

Section Handlers.
Variable E : Env.
Variable H : Host.

Definition uuid : M string := fun w => (Ok (uuidv4 H w), w).
Definition exists_ (p : string) : M bool := fun w => (Ok (pathExists H w p), w).
Definition ensureDir (p : string) : M unit := fun w =>
  if ensureDir_fails H w p then (Throw (FsError p), w) else (Ok tt, w).
Definition extract (zip dest : string) : M unit := fun w =>
  if extract_fails H w zip dest then (Throw (FsError zip), w) else (Ok tt, w).
Definition resolve (dir : string) : M string := fun w =>
  (resolveProjectRoot (path_join H) (fs_access H w) (fs_readdir H w) dir, w).

(** [spawn(cmd, ["i", "--silent"], { cwd, stdio: "inherit" })] and the
    wait for its "exit". *)
Definition npm_install (cwd : string) : M unit := fun w =>
  let cmd := if win32 E then "npm.cmd" else "npm" in
  let w1 := log (EvSpawn cmd ["i"; "--silent"] cwd (process_env E) Inherit (spawn_pid E w)) w in
  match install_time H w with
  | Some t => (Ok tt, advance (Z.of_N t) w1)
  | None => (Pending, w1)
  end.

(** The [try] block of [POST /api/preview/start] once an id is given. *)
Definition start_session (rid : string) (st : Stores) : M (StartResponse * Stores) :=
  let zipPath_ := path_join H RESULTS (rid +:+ ".zip") in
  do present <- exists_ zipPath_;
  if negb present
  then ret (StartFail (mkResponse 404 (Json false (Some "result zip not found"))), st)
  else
  do u <- uuid;
  let tempDir_ := path_join H PREVIEW u in
  ensureDir tempDir_ ;;
  extract zipPath_ tempDir_ ;;
  do projectRoot_ <- resolve tempDir_;
  do hasPkgJson <- exists_ (path_join H projectRoot_ "package.json");
  (if hasPkgJson then npm_install projectRoot_ else ret tt) ;;
  do started <- spawnDevServerWithRetry E projectRoot_ 4;
  do pid_ <- uuid;
  fun w =>
    let sess := mkPreview pid_ (snd started) tempDir_
                          (default (-1) (pid (fst started))) (now w) in
    (Ok (StartOk (sendPreviewOk pid_ (snd started)),
         mkStores (migrationResults st) (planSessions st) (diagnoseSessions st)
                  (<[pid_ := sess]> (previewSessions st))), w).

(** [app.post("/api/preview/start", ...)]: the id check, the [try]
    block, and the [catch] that answers 500 with [e?.message ||
    "Failed to start preview"]. *)
Definition preview_start (body : StartBody) (st : Stores) : M (StartResponse * Stores) :=
  fun w =>
  match first_truthy [resultId body; body_id body; zipId body; downloadId body] with
  | None => (Ok (StartFail (mkResponse 400 (Json false (Some "resultId is required"))), st), w)
  | Some rid =>
      match start_session rid st w with
      | (Throw e, w') =>
          let msg := if String.eqb (message H e) "" then "Failed to start preview"
                     else message H e in
          (Ok (StartFail (mkResponse 500 (Json false (Some msg))), st), w')
      | r => r
      end
  end.

(** [app.get("/api/preview/:id/health", ...)]. *)
Definition preview_health (i : string) (st : Stores) : M (Response + HealthReport) :=
  match previewSessions st !! i with
  | None => ret (inl (mkResponse 404 (Json false (Some "Preview not found"))))
  | Some sess =>
      let base := "http://127.0.0.1:" +:+ String_ (port sess) +:+ "/" in
      do ok_ <- waitForOkAny E base 2000 300;
      ret (inr (mkHealth ok_ ("/preview/" +:+ i) base (port sess)))
  end.

End Handlers.

(** [app.get("/api/download/:id", ...)]: what is answered, and the
    store afterwards.  [existsSync] is the file system at that time. *)
Inductive DownloadAnswer :=
| DownloadMissing (err : string)              (* res.status(404).json({ error }) *)
| DownloadFile (zip : string) (filename : string).  (* res.download(zip, filename) *)

Definition download (existsSync : string -> bool) (i : string) (st : Stores)
    : DownloadAnswer * Stores :=
  match migrationResults st !! i with
  | None => (DownloadMissing "Result not found or expired", st)
  | Some result =>
      if negb (existsSync (zipPath result)) then
        (DownloadMissing "Result file not found",
         mkStores (delete i (migrationResults st)) (planSessions st)
                  (diagnoseSessions st) (previewSessions st))
      else (DownloadFile (zipPath result) ("migrated-project-" +:+ i +:+ ".zip"), st)
  end.

End Preview.

Module ProjectRootSpec.
Import ProjectRoot.

Section Spec.
Variable join : string -> string -> string.
Variable access : string -> bool.
Variable readdir : string -> option (list Dirent).

(** The search without the block for a single wrapping folder: the
    root if it has a package.json, else the first child directory that
    has one, else the first grandchild directory that has one, else the
    root. *)
Definition resolve_plain (extractedDir : string) : outcome string :=
  if hasPkg join access extractedDir then Ok extractedDir else
  match readdir extractedDir with
  | None => Throw (FsError extractedDir)
  | Some entries =>
      closing_loops join access readdir extractedDir (subdirs join extractedDir entries)
  end.

(** [e] is a directory entry the search may enter. *)
Definition enterable (e : Dirent) : Prop :=
  isDirectory e = true /\ name e <> "__MACOSX".

(** [r] is a child or a grandchild directory of [dir], reached through
    enterable entries only. *)
Definition within_two_levels (dir r : string) : Prop :=
  exists entries e, readdir dir = Some entries /\ In e entries /\ enterable e /\
    (r = join dir (name e) \/
     exists sub s, readdir (join dir (name e)) = Some sub /\ In s sub /\ enterable s /\
       r = join (join dir (name e)) (name s)).

End Spec.
End ProjectRootSpec.

Module Scenario2.
Import ProjectRoot Preview Registry Scenario.

Definition plain_join (a b : string) : string := a +:+ "/" +:+ b.

(** An archive that unpacked into [__MACOSX] and one wrapping folder
    [app], whose package.json sits one level further down in [web]. *)
Definition wrapped_access (p : string) : bool :=
  String.eqb p "temp/preview/u1/app/web/package.json".

Definition wrapped_readdir (d : string) : option (list Dirent) :=
  if String.eqb d "temp/preview/u1" then
    Some [mkDirent "__MACOSX" true; mkDirent "app" true; mkDirent "README.md" false]
  else if String.eqb d "temp/preview/u1/app" then
    Some [mkDirent "docs" true; mkDirent "web" true]
  else Some [].

(** A host on which the result zip [r1] exists and unpacks into a
    project with a package.json at its root; ids are drawn from the
    length of the trace. *)
Definition H_ready : Host :=
  mkHost (fun w => if (length (trace w) =? 0)%nat
                   then "11111111-1111-4111-8111-111111111111"
                   else "22222222-2222-4222-8222-222222222222")
         (fun _ _ => true) (fun _ _ => false) (fun _ _ _ => false)
         (fun _ _ => true) (fun _ _ => Some []) (fun _ => Some 1500%N)
         plain_join (fun _ => "system error").

Definition body_r1 : StartBody := mkStartBody (Some "r1") None None None.
Definition body_none : StartBody := mkStartBody None (Some "") None None.

(** A registered session on port 5100, and a result whose zip is gone. *)
Definition st_result : Stores :=
  mkStores {["r9" := mkResult "temp/results/r9.zip" 0]} ∅ ∅ {["s1" := s1]}.

(** The stores [st_result] after one sweep a day later. *)
Definition swept_once : Stores * World :=
  match sweep E_idle st_result w_day with
  | (Ok st1, w1) => (st1, w1)
  | (_, w1) => (st_result, w1)
  end.

(** A base address that [new URL] rejects. *)
Definition E_no_url : Env :=
  mkEnv (fun _ _ => false) (fun _ _ _ => Reply 200 3) (fun _ _ => None) (fun _ => 0%N)
        (fun _ => Some 4242) (fun _ _ => false) (fun _ _ => false)
        (fun _ _ => None) (fun _ _ => None) false ∅.

(** A successful start of result [r1] on a healthy machine. *)
Definition started : outcome (StartResponse * Stores) * World :=
  preview_start E_up H_ready body_r1 st_empty w0.

Definition started_id : string := "22222222-2222-4222-8222-222222222222".

Definition started_session : PreviewSession :=
  mkPreview started_id 5100 "temp/preview/11111111-1111-4111-8111-111111111111" 4242 1503.

Definition started_stores : Stores := mkStores ∅ ∅ ∅ {[started_id := started_session]}.

End Scenario2.

Module ExtraSpec.

(** The table of bound ports does not change. *)
Definition stable_ports (E : Env) : Prop :=
  forall u v q, listen_fails E u q = listen_fails E v q.

(** Timers fire exactly when they are due. *)
Definition punctual (E : Env) : Prop :=
  forall w, timer_overrun E w = 0%N.

Definition count_spawns (tr : list event) : nat :=
  length (List.filter (fun e => match e with EvSpawn _ _ _ _ _ _ => true | _ => false end) tr).

Definition count_kills (tr : list event) : nat :=
  length (List.filter (fun e => match e with EvKill _ => true | _ => false end) tr).

(** One for a launch that returned a child, zero otherwise. *)
Definition kept_child {A} (r : outcome A) : nat :=
  match r with Ok _ => 1%nat | _ => 0%nat end.

End ExtraSpec.

Module RegistryInv.
Import Registry Router.

(** Every preview session is filed under its own id. *)
Definition keyed (st : Stores) : Prop :=
  forall k sess, previewSessions st !! k = Some sess -> id sess = k.

(** A session id as [uuidv4] writes it: 36 characters of [[0-9a-f-]]. *)
Definition uuid_shaped (i : string) : Prop :=
  String.length i = 36%nat /\
  Forall (fun c => is_id_char c = true) (String.list_ascii_of_string i).

End RegistryInv.

(** * What runs are compared with: worlds, flags, big steps

    The definitions of this module are not read off the code: they
    say, in the words of the specification, what the allocator, the
    prober, the launcher, the sweep and the Referer match are expected
    to do, and the theorems below compare the functions embedded from
    [server.ts] with them. *)

Module RunSpec.
Import Os Allocator Prober Launcher Registry Router ProbeSpec LaunchSpec ExtraSpec.

(** The world in which a scan started in [w] at port [start] tries its
    port number [j] (counting from 0): the [j] binds before it have
    failed. *)
Definition scan_world (w : World) (start : Z) (j : nat) : World :=
  mkWorld (now w) (failed j start ++ trace w).

(** The paths a sweep at time [now_] is to remove: the zip of each
    migration result, and the temp directory of each plan session and
    of each diagnose session, that is older than [CLEANUP_INTERVAL]. *)
Definition due_path (st : Stores) (now_ : Z) (p : string) : Prop :=
  (exists k r, migrationResults st !! k = Some r /\ expired now_ (timestamp r) /\
     p = zipPath r) \/
  (exists k s, planSessions st !! k = Some s /\ expired now_ (plan_timestamp s) /\
     p = plan_tempDir s) \/
  (exists k s, diagnoseSessions st !! k = Some s /\ expired now_ (plan_timestamp s) /\
     p = plan_tempDir s).

(** [/preview/<i>], with [i] made of 36 characters of [[0-9a-f-]],
    stands in [s] at offset [n]. *)
Definition occurs_at (s : string) (n : nat) (i : string) : Prop :=
  exists pre post, s = pre +:+ "/preview/" +:+ i +:+ post /\
    String.length pre = n /\ String.length i = 36%nat /\
    Forall (fun c => is_id_char c = true) (String.list_ascii_of_string i).

(** Reading a trace in the order of time with at most one child
    pending, [pending] being its pid: a spawn needs that none is
    pending and makes its child the pending one; a SIGTERM must be
    addressed to the pending child, at its pid or at [-1] when it has
    none, and discharges it.  The result is what is pending at the end,
    [None] when the trace breaks the discipline. *)
Fixpoint signalled (pending : option (option Z)) (evs : list event)
    : option (option (option Z)) :=
  match evs with
  | [] => Some pending
  | EvSpawn _ _ _ _ _ p :: evs' =>
      match pending with
      | None => signalled (Some p) evs'
      | Some _ => None
      end
  | EvKill q :: evs' =>
      match pending with
      | Some p => if q =? default (-1) p then signalled None evs' else None
      | None => None
      end
  | _ :: evs' => signalled pending evs'
  end.

(** Neither a spawn nor a signal. *)
Definition quiet (e : event) : Prop :=
  match e with
  | EvSpawn _ _ _ _ _ _ | EvKill _ => False
  | _ => True
  end.

(** Whether the [package.json] of [cwd] lists the package [k] with a
    version that is not empty, an entry of [devDependencies] hiding the
    entry of [dependencies] of the same name; [false] when the file
    cannot be read. *)
Definition depends_on (E : Env) (cwd : string) (w : World) (k : string) : bool :=
  match readJson E w (cwd +:+ "/package.json") with
  | Some pkg =>
      truthy (match default ∅ (devDependencies pkg) !! k with
              | Some v => Some v
              | None => default ∅ (dependencies pkg) !! k
              end)
  | None => false
  end.

(** The argument lists of an attempt on [port], in the order they are
    tried: [run dev -- --port <port>], with the host and strict-port
    flags for a Vite project, and then, for a project that depends on
    next, [run dev] alone. *)
Definition port_flags (port : Z) : list string :=
  ["run"; "dev"; "--"; "--port"; String_ port].

Definition plan (isVite isNext : bool) (port : Z) : list (list string) :=
  (if isVite then port_flags port ++ ["--host"; "127.0.0.1"; "--strictPort"]
   else port_flags port)
  :: (if isNext then [["run"; "dev"]] else []).

(** One pass over the strategies [ts] on [port], from world to world:
    each strategy is spawned, then [http://127.0.0.1:<port>] is probed
    with a budget of 20 s and an interval of 600 ms in the world the
    spawn leaves; the pass ends with the spawned child when the probe
    answers [true]; when it answers [false] the child is sent SIGTERM
    and the pass goes on with the next strategy 300 ms later. *)
Inductive tries_run (E : Env) (cwd : string) (port : Z)
    : list Strategy -> World -> option ChildProcess -> World -> Prop :=
| run_none w : tries_run E cwd port [] w None w
| run_hit t ts w w2 :
    waitForOkAny E (base_url port) 20000 600
      (log (spawn_event E cwd t (mkChild (spawn_pid E w))) w) = (Ok true, w2) ->
    tries_run E cwd port (t :: ts) w (Some (mkChild (spawn_pid E w))) w2
| run_miss t ts w w2 w3 r w4 :
    waitForOkAny E (base_url port) 20000 600
      (log (spawn_event E cwd t (mkChild (spawn_pid E w))) w) = (Ok false, w2) ->
    sleep E 300 (log (EvKill (default (-1) (spawn_pid E w))) w2) = (Ok tt, w3) ->
    tries_run E cwd port ts w3 r w4 ->
    tries_run E cwd port (t :: ts) w r w4.

(** [n] attempts, from world to world: each allocates a port from
    5100..5199 and makes one pass over all the strategies of the
    project on that port; the first pass that ends with a child ends
    the launch with that child and that port. *)
Inductive attempts_run (E : Env) (cwd : string) (isVite isNext : bool)
    : nat -> World -> outcome (ChildProcess * Z) -> World -> Prop :=
| run_out w :
    attempts_run E cwd isVite isNext O w (Throw (Error "Failed to start dev server")) w
| run_no_port n w e w1 :
    getFreePort E 5100 5199 w = (Throw e, w1) ->
    attempts_run E cwd isVite isNext (S n) w (Throw e) w1
| run_found n w port w1 child w2 :
    getFreePort E 5100 5199 w = (Ok port, w1) ->
    tries_run E cwd port (tries E isVite isNext port) w1 (Some child) w2 ->
    attempts_run E cwd isVite isNext (S n) w (Ok (child, port)) w2
| run_again n w port w1 w2 r w3 :
    getFreePort E 5100 5199 w = (Ok port, w1) ->
    tries_run E cwd port (tries E isVite isNext port) w1 None w2 ->
    attempts_run E cwd isVite isNext n w2 r w3 ->
    attempts_run E cwd isVite isNext (S n) w r w3.

(** ** The probe, from world to world *)

(** How long a request lasts when its abort timer is set to [t]: until
    the answer or the failure comes, and no longer than [t]. *)
Definition request_cost (r : reply) (t : Z) : Z :=
  match r with
  | Reply _ lat => Z.min (Z.of_N lat) t
  | NetError lat => Z.min (Z.of_N lat) t
  | NoReply => t
  end.

(** The world a request of a probe tick leaves behind. *)
Definition asked (E : Env) (i : Z) (url : string) (m : method) (w : World) : World :=
  mkWorld (now w + request_cost (fetch E w url m) (request_timeout i))
          (EvFetch url m (Z.min 2000 i) :: trace w).

(** One tick over the candidate paths [ps]: each path that resolves
    against [base] is asked with HEAD and, when that is not answered
    2xx in time, with GET; the first request answered 2xx in time ends
    the tick with [true]; a tick that has asked everything in vain ends
    with [false]. *)
Inductive tick_run (E : Env) (base : string) (i : Z)
    : list string -> World -> bool -> World -> Prop :=
| tick_end w : tick_run E base i [] w false w
| tick_skip p ps w b w' :
    url_resolve E p base = None ->
    tick_run E base i ps w b w' ->
    tick_run E base i (p :: ps) w b w'
| tick_head p ps url w :
    url_resolve E p base = Some url ->
    answers_ok (fetch E w url HEAD) (request_timeout i) = true ->
    tick_run E base i (p :: ps) w true (asked E i url HEAD w)
| tick_get p ps url w :
    url_resolve E p base = Some url ->
    answers_ok (fetch E w url HEAD) (request_timeout i) = false ->
    answers_ok (fetch E (asked E i url HEAD w) url GET) (request_timeout i) = true ->
    tick_run E base i (p :: ps) w true (asked E i url GET (asked E i url HEAD w))
| tick_next p ps url w b w' :
    url_resolve E p base = Some url ->
    answers_ok (fetch E w url HEAD) (request_timeout i) = false ->
    answers_ok (fetch E (asked E i url HEAD w) url GET) (request_timeout i) = false ->
    tick_run E base i ps (asked E i url GET (asked E i url HEAD w)) b w' ->
    tick_run E base i (p :: ps) w b w'.

(** The probe started at time [t0]: a tick is begun as long as less
    than [totalMs] has elapsed; a tick that ends with [true] ends the
    probe with [true]; after a tick that ends with [false] the probe
    sleeps [intervalMs]; once the budget has elapsed the probe ends
    with [false]. *)
Inductive probe_run (E : Env) (base : string) (totalMs i t0 : Z)
    : World -> bool -> World -> Prop :=
| probe_over w :
    totalMs <= now w - t0 -> probe_run E base totalMs i t0 w false w
| probe_hit w w1 :
    now w - t0 < totalMs ->
    tick_run E base i paths w true w1 ->
    probe_run E base totalMs i t0 w true w1
| probe_miss w w1 w2 b w3 :
    now w - t0 < totalMs ->
    tick_run E base i paths w false w1 ->
    sleep E i w1 = (Ok tt, w2) ->
    probe_run E base totalMs i t0 w2 b w3 ->
    probe_run E base totalMs i t0 w b w3.

(** From time [T] on, some candidate path answers 2xx in time, to HEAD
    or to GET. *)
Definition healthy_from (E : Env) (base : string) (intervalMs T : Z) : Prop :=
  exists p url m, p ∈ paths /\ url_resolve E p base = Some url /\
    forall u, T <= now u ->
      answers_ok (fetch E u url m) (request_timeout intervalMs) = true.

End RunSpec.

(** ** Further concrete environments *)

Module Scenario3.
Import Os Prober Launcher Registry Scenario.

(** Only [GET /api/status] is answered, with 200 after 299 ms; nothing
    comes back from any other request. *)
Definition E_slow : Env :=
  mkEnv (fun _ _ => false)
        (fun _ url m =>
           match m with
           | GET => if String.eqb url "http://127.0.0.1:5100/api/status"
                    then Reply 200 299 else NoReply
           | HEAD => NoReply
           end)
        join_url (fun _ => 0%N) (fun _ => Some 4242) (fun _ _ => false)
        (fun _ _ => false) (fun _ _ => None) (fun _ _ => None) false ∅.

(** A backend that answers 500 during its first second and 200 from
    then on. *)
Definition E_late : Env :=
  mkEnv (fun _ _ => false)
        (fun w _ _ => if now w <? 1000 then Reply 500 3 else Reply 200 3)
        join_url (fun _ => 0%N) (fun _ => Some 4242) (fun _ _ => false)
        (fun _ _ => false) (fun _ _ => None) (fun _ _ => None) false ∅.

(** The id of a second session. *)
Definition second_id : string := "9b2d4f60-1c3e-4a5b-8c7d-0e1f2a3b4c5d".

End Scenario3.

(** * Swallowed failures *)

Module OsFacts.
Import Os.

Section Facts.
Variable E : Env.

(** [try { process.kill(p, "SIGTERM") } catch {}] never throws. *)
Lemma kill_ignored (p : Z) (w : World) :
  try_ignore (process_kill E p) w = (Ok tt, log (EvKill p) w).
Proof. unfold try_ignore, process_kill. destruct (kill_fails E w p); reflexivity. Qed.

(** [fs.remove(path).catch(() => {})] never rejects. *)
Lemma remove_ignored (path : string) (w : World) :
  try_ignore (fs_remove E path) w = (Ok tt, log (EvRemove path) w).
Proof. unfold try_ignore, fs_remove. destruct (remove_fails E w path); reflexivity. Qed.

End Facts.
End OsFacts.

(** * Properties of the port allocator *)

Module AllocatorFacts.
Import Allocator RunSpec Scenario.

Section Facts.
Variable E : Env.

Lemma failed_snoc (k : nat) (p : Z) :
  failed (S k) p = failed k (p + 1) ++ [EvListen p false].
Proof. reflexivity. Qed.

(** What one scan does, in terms of the trace it leaves. *)
Lemma scan_spec (n : nat) : forall (p : Z) (w : World),
  0 <= p -> (n = 0%nat \/ p + Z.of_nat n - 1 <= 65535) ->
  match scan E n p w with
  | (Ok q, w') =>
      p <= q < p + Z.of_nat n /\ now w' = now w /\
      trace w' = EvClose q :: EvListen q true :: failed (Z.to_nat (q - p)) p ++ trace w
  | (Throw e, w') =>
      e = Error "No free port found" /\ now w' = now w /\
      trace w' = failed n p ++ trace w
  | (Pending, _) => False
  end.
Proof.
  induction n as [|n IH]; intros p w Hp Hhi.
  - cbn. auto.
  - cbn [scan]. unfold bind, tryPort.
    replace ((0 <=? p) && (p <=? 65535)) with true by lia.
    destruct (listen_fails E w p) eqn:Hbusy.
    + specialize (IH (p + 1) (log (EvListen p false) w)).
      destruct (scan E n (p + 1) (log (EvListen p false) w)) as [[q|e|] w'].
      * destruct IH as (Hq & Hnow & Htr); [lia | lia |].
        split; [lia|]. split; [exact Hnow|].
        rewrite Htr. cbn [log trace].
        replace (Z.to_nat (q - p)) with (S (Z.to_nat (q - (p + 1)))) by lia.
        rewrite failed_snoc, <- !app_assoc. reflexivity.
      * destruct IH as (He & Hnow & Htr); [lia | lia |].
        split; [exact He|]. split; [exact Hnow|].
        rewrite Htr, failed_snoc, <- app_assoc. reflexivity.
      * apply IH; lia.
    + cbn. split; [lia|]. split; [reflexivity|].
      replace (p - p) with 0 by lia. reflexivity.
Qed.

(** A successful scan saw its port bind in some world after the start. *)
Lemma scan_free (n : nat) : forall (p : Z) (w w' : World) (q : Z),
  scan E n p w = (Ok q, w') ->
  exists l, listen_fails E (mkWorld (now w) (l ++ trace w)) q = false.
Proof.
  induction n as [|n IH]; intros p w w' q H.
  - discriminate.
  - cbn [scan] in H. unfold bind, tryPort in H.
    destruct ((0 <=? p) && (p <=? 65535)); [|discriminate].
    destruct (listen_fails E w p) eqn:Hbusy.
    + apply IH in H. destruct H as [l Hl]. exists (l ++ [EvListen p false]).
      cbn in Hl. rewrite <- app_assoc. exact Hl.
    + inversion H; subst. exists []. destruct w; exact Hbusy.
Qed.


Lemma scan_range (n : nat) : forall (p : Z) (w : World),
  match scan E n p w with
  | (Ok q, _) => p <= q
  | _ => True
  end.
Proof.
  induction n as [|n IH]; intros p w; [exact I|].
  cbn [scan]. unfold bind, tryPort.
  destruct ((0 <=? p) && (p <=? 65535)); [|exact I].
  destruct (listen_fails E w p).
  - specialize (IH (p + 1) (log (EvListen p false) w)).
    destruct (scan E n (p + 1) (log (EvListen p false) w)) as [[q|e|] w']; try exact I. lia.
  - cbn. lia.
Qed.

Lemma scan_world_step (w : World) (p : Z) (j : nat) :
  scan_world (log (EvListen p false) w) (p + 1) j = scan_world w p (S j).
Proof.
  unfold scan_world. cbn [log now trace failed]. rewrite <- app_assoc. reflexivity.
Qed.

(** What the operating system said at each bind of a scan: the port
    returned bound when it was tried, and each port tried before it did
    not. *)
Lemma scan_binds (n : nat) : forall (p : Z) (w : World),
  match scan E n p w with
  | (Ok q, _) =>
      listen_fails E (scan_world w p (Z.to_nat (q - p))) q = false /\
      forall j, (j < Z.to_nat (q - p))%nat ->
        listen_fails E (scan_world w p j) (p + Z.of_nat j) = true
  | (Throw (Error _), _) =>
      forall j, (j < n)%nat -> listen_fails E (scan_world w p j) (p + Z.of_nat j) = true
  | _ => True
  end.
Proof.
  induction n as [|n IH]; intros p w.
  - cbn. intros j Hj. lia.
  - cbn [scan]. unfold bind, tryPort.
    destruct ((0 <=? p) && (p <=? 65535)) eqn:Hvalid; [|exact I].
    assert (Hw : scan_world w p 0 = w) by (destruct w; reflexivity).
    destruct (listen_fails E w p) eqn:Hbusy.
    + specialize (IH (p + 1) (log (EvListen p false) w)).
      pose proof (scan_range n (p + 1) (log (EvListen p false) w)) as Hrange.
      destruct (scan E n (p + 1) (log (EvListen p false) w)) as [[q|[msg|?|?|?]|] w'];
        try exact I.
      * destruct IH as [Hfree Hbelow].
        replace (Z.to_nat (q - p)) with (S (Z.to_nat (q - (p + 1)))) by lia.
        split; [rewrite <- scan_world_step; exact Hfree|].
        intros [|j] Hj.
        -- rewrite Hw, Z.add_0_r. exact Hbusy.
        -- rewrite <- scan_world_step.
           replace (p + Z.of_nat (S j)) with (p + 1 + Z.of_nat j) by lia.
           apply Hbelow. lia.
      * intros [|j] Hj.
        -- rewrite Hw, Z.add_0_r. exact Hbusy.
        -- rewrite <- scan_world_step.
           replace (p + Z.of_nat (S j)) with (p + 1 + Z.of_nat j) by lia.
           apply IH. lia.
    + unfold ret. replace (Z.to_nat (p - p)) with 0%nat by lia. rewrite Hw.
      split; [exact Hbusy|]. intros j Hj. lia.
Qed.

End Facts.

(** C8: [getFreePort(start, end)] tries to bind each port of the range
    in ascending order; on the first bind that succeeds it closes the
    listener at once and returns that port, the trace showing the failed
    binds below it, the successful bind and the close; when no port of
    the range binds it throws [Error("No free port found")] after having
    tried every port.  Whether a bind succeeds is what the operating
    system says at the moment the port is tried: the port returned bound
    then, every port below it failed to bind when its turn came, and a
    throw means that every port of the range failed in its turn. *)
Theorem getFreePort_first_free (E : Env) (start end_ : Z) (w : World)
    (Hlo : 0 <= start) (Hhi : end_ <= 65535) :
  match getFreePort E start end_ w with
  | (Ok p, w') =>
      start <= p <= end_ /\
      trace w' = EvClose p :: EvListen p true
                   :: failed (Z.to_nat (p - start)) start ++ trace w /\
      listen_fails E (scan_world w start (Z.to_nat (p - start))) p = false /\
      (forall j, (j < Z.to_nat (p - start))%nat ->
         listen_fails E (scan_world w start j) (start + Z.of_nat j) = true)
  | (Throw e, w') =>
      e = Error "No free port found" /\
      trace w' = failed (Z.to_nat (end_ - start + 1)) start ++ trace w /\
      (forall j, (j < Z.to_nat (end_ - start + 1))%nat ->
         listen_fails E (scan_world w start j) (start + Z.of_nat j) = true)
  | (Pending, _) => False
  end.
Proof.
  unfold getFreePort.
  pose proof (scan_spec E (Z.to_nat (end_ - start + 1)) start w Hlo) as H.
  pose proof (scan_binds E (Z.to_nat (end_ - start + 1)) start w) as Hb.
  destruct (scan E (Z.to_nat (end_ - start + 1)) start w) as [[q|e|] w'].
  - destruct H as (Hq & _ & Htr); [lia|]. destruct Hb as [Hfree Hbelow].
    split; [lia|]. split; [exact Htr|]. split; assumption.
  - destruct H as (-> & _ & Htr); [lia|]. split; [reflexivity|]. split; assumption.
  - apply H. lia.
Qed.

Lemma getFreePort_first_free_witness :
  match getFreePort E_three_taken 5100 5199 w0 with
  | (Ok p, w') =>
      5100 <= p <= 5199 /\
      trace w' = EvClose p :: EvListen p true
                   :: failed (Z.to_nat (p - 5100)) 5100 ++ trace w0 /\
      listen_fails E_three_taken (scan_world w0 5100 (Z.to_nat (p - 5100))) p = false /\
      (forall j, (j < Z.to_nat (p - 5100))%nat ->
         listen_fails E_three_taken (scan_world w0 5100 j) (5100 + Z.of_nat j) = true)
  | (Throw e, w') =>
      e = Error "No free port found" /\
      trace w' = failed (Z.to_nat (5199 - 5100 + 1)) 5100 ++ trace w0 /\
      (forall j, (j < Z.to_nat (5199 - 5100 + 1))%nat ->
         listen_fails E_three_taken (scan_world w0 5100 j) (5100 + Z.of_nat j) = true)
  | (Pending, _) => False
  end.
Proof. apply (getFreePort_first_free E_three_taken 5100 5199 w0); lia. Defined.




End AllocatorFacts.

(** * Properties of the health prober *)

Module ProberFacts.
Import Os Prober ProbeSpec ExtraSpec RunSpec Scenario Scenario3.

Section Facts.
Variable E : Env.

Lemma timer_delay_pos (ms : Z) : 1 <= timer_delay ms.
Proof. unfold timer_delay. destruct ((ms <? 1) || (2147483647 <? ms)) eqn:H; lia. Qed.

Lemma ping_spec (url : string) (m : method) (t : Z) (w : World) :
  exists r w', ping E url m t w = (Ok r, w') /\
    ok r = answers_ok (fetch E w url m) (timer_delay t) /\
    trace w' = EvFetch url m t :: trace w /\
    now w <= now w' <= now w + timer_delay t.
Proof.
  unfold ping. pose proof (timer_delay_pos t) as Ht.
  destruct (fetch E w url m) as [st lat | lat |]; cbn [answers_ok].
  - destruct (Z.of_N lat <? timer_delay t) eqn:Hl.
    + eexists _, _. split; [reflexivity|]. cbn.
      rewrite andb_true_r. repeat split; lia.
    + eexists _, _. split; [reflexivity|]. cbn.
      rewrite andb_false_r. repeat split; lia.
  - eexists _, _. split; [reflexivity|]. cbn. repeat split; lia.
  - eexists _, _. split; [reflexivity|]. cbn. repeat split; lia.
Qed.

(** One tick never throws, issues only requests, and takes at most two
    request timeouts per path. *)
Lemma probe_paths_total (base : string) (i : Z) (ps : list string) : forall w,
  exists b w' new, probe_paths E base i ps w = (Ok b, w') /\
    trace w' = new ++ trace w /\ Forall is_fetch new /\
    now w <= now w' <= now w + 2 * Z.of_nat (length ps) * request_timeout i.
Proof.
  pose proof (timer_delay_pos (Z.min 2000 i)) as Ht. fold (request_timeout i) in Ht.
  induction ps as [|p ps IH]; intros w.
  - exists false, w, []. cbn. repeat split; try lia. constructor.
  - cbn [probe_paths]. destruct (url_resolve E p base) as [url|].
    + unfold bind.
      destruct (ping_spec url HEAD (Z.min 2000 i) w) as (r1 & w1 & -> & _ & Htr1 & Hn1).
      fold (request_timeout i) in Hn1.
      destruct (ok r1).
      { exists true, w1, [EvFetch url HEAD (Z.min 2000 i)]. cbn [length].
        repeat split; try (exact Htr1 || lia). repeat constructor. }
      destruct (ping_spec url GET (Z.min 2000 i) w1) as (r2 & w2 & -> & _ & Htr2 & Hn2).
      fold (request_timeout i) in Hn2.
      destruct (ok r2).
      { exists true, w2, [EvFetch url GET (Z.min 2000 i); EvFetch url HEAD (Z.min 2000 i)].
        cbn [length]. repeat split; try lia.
        - rewrite Htr2, Htr1. reflexivity.
        - repeat constructor. }
      destruct (IH w2) as (b & w' & new & -> & Htr & Hf & Hn).
      exists b, w', (new ++ [EvFetch url GET (Z.min 2000 i); EvFetch url HEAD (Z.min 2000 i)]).
      cbn [length]. repeat split; try lia.
      * rewrite Htr, Htr2, Htr1, <- app_assoc. reflexivity.
      * apply Forall_app. split; [exact Hf | repeat constructor].
    + destruct (IH w) as (b & w' & new & -> & Htr & Hf & Hn).
      exists b, w', new. cbn [length]. repeat split; try (assumption || lia).
Qed.

(** Against a backend that never answers ok, a tick finds nothing and
    has asked HEAD then GET on every path. *)
Lemma probe_paths_fruitless (base : string) (i : Z) (ps : list string) : forall w,
  (forall u url m t, answers_ok (fetch E u url m) t = false) ->
  exists w', probe_paths E base i ps w = (Ok false, w') /\
    trace w' = rev (tick_events E base i ps) ++ trace w /\ now w <= now w'.
Proof.
  intros w Hbad. revert w.
  induction ps as [|p ps IH]; intros w.
  - exists w. cbn. repeat split; lia.
  - cbn [probe_paths tick_events flat_map]. destruct (url_resolve E p base) as [url|].
    + unfold bind.
      destruct (ping_spec url HEAD (Z.min 2000 i) w) as (r1 & w1 & -> & Hok1 & Htr1 & Hn1).
      rewrite Hbad in Hok1. rewrite Hok1.
      destruct (ping_spec url GET (Z.min 2000 i) w1) as (r2 & w2 & -> & Hok2 & Htr2 & Hn2).
      rewrite Hbad in Hok2. rewrite Hok2.
      destruct (IH w2) as (w' & -> & Htr & Hn).
      exists w'. repeat split; try lia.
      rewrite Htr, Htr2, Htr1, rev_app_distr. cbn. rewrite <- app_assoc. reflexivity.
    + destruct (IH w) as (w' & -> & Htr & Hn). exists w'. cbn. repeat split; assumption.
Qed.

(** A path that answers ok makes the tick return true. *)
Lemma probe_paths_hit (base : string) (i : Z) (ps : list string) (p url : string) (m : method) :
  p ∈ ps -> url_resolve E p base = Some url ->
  (forall w, answers_ok (fetch E w url m) (request_timeout i) = true) ->
  forall w, exists w', probe_paths E base i ps w = (Ok true, w').
Proof.
  intros Hin Hurl Hok.
  induction ps as [|q ps IH]; intros w.
  - inversion Hin.
  - cbn [probe_paths]. destruct (decide (q = p)) as [->|Hne].
    + rewrite Hurl. unfold bind.
      destruct (ping_spec url HEAD (Z.min 2000 i) w) as (r1 & w1 & -> & Hok1 & _ & _).
      destruct (ok r1) eqn:Hr1; [eexists; reflexivity|].
      destruct (ping_spec url GET (Z.min 2000 i) w1) as (r2 & w2 & -> & Hok2 & _ & _).
      destruct (ok r2) eqn:Hr2; [eexists; reflexivity|].
      exfalso. destruct m.
      * specialize (Hok w). unfold request_timeout in Hok. congruence.
      * specialize (Hok w1). unfold request_timeout in Hok. congruence.
    + assert (p ∈ ps) as Hin' by (inversion Hin; subst; [congruence | assumption]).
      specialize (IH Hin').
      destruct (url_resolve E q base) as [url'|]; [|apply IH].
      unfold bind.
      destruct (ping_spec url' HEAD (Z.min 2000 i) w) as (r1 & w1 & -> & _ & _ & _).
      destruct (ok r1); [eexists; reflexivity|].
      destruct (ping_spec url' GET (Z.min 2000 i) w1) as (r2 & w2 & -> & _ & _ & _).
      destruct (ok r2); [eexists; reflexivity|].
      apply IH.
Qed.

Lemma sleep_spec (ms : Z) (w : World) :
  exists w', sleep E ms w = (Ok tt, w') /\
    trace w' = EvSleep ms :: trace w /\ now w + 1 <= now w'.
Proof.
  eexists. split; [reflexivity|]. cbn. split; [reflexivity|].
  pose proof (timer_delay_pos ms). lia.
Qed.

(** The loop never runs out of ticks when it is given one tick per
    millisecond of budget left. *)
Lemma poll_enough_fuel (base : string) (t0 total i : Z) (fuel : nat) : forall w,
  (Z.to_nat (total - (now w - t0)) <= fuel)%nat ->
  exists b w' new, poll E fuel base t0 total i w = (Ok b, w') /\
    trace w' = new ++ trace w /\
    now w <= now w' /\
    (b = false -> total <= now w' - t0) /\
    (b = true -> now w - t0 < total).
Proof.
  induction fuel as [|fuel IH]; intros w Hfuel.
  - exists false, w, []. cbn [poll].
    replace (now w - t0 <? total) with false by lia.
    repeat split; try lia; discriminate.
  - cbn [poll]. destruct (now w - t0 <? total) eqn:Hlt.
    + unfold bind.
      destruct (probe_paths_total base i paths w) as (b & w1 & new & -> & Htr1 & _ & Hn1).
      destruct b.
      * exists true, w1, new. cbn. repeat split; try (assumption || lia); discriminate.
      * destruct (sleep_spec i w1) as (w2 & -> & Htr2 & Hn2).
        destruct (IH w2) as (b & w' & new' & -> & Htr & Hn & Hf & Ht); [lia|].
        exists b, w', (new' ++ EvSleep i :: new). repeat split; try lia.
        -- rewrite Htr, Htr2, Htr1, <- app_assoc. reflexivity.
        -- exact Hf.
    + exists false, w, []. repeat split; try lia; discriminate.
Qed.

(** Against a backend that never answers ok the loop spends its whole
    budget in fruitless ticks. *)
Lemma poll_fruitless (base : string) (t0 total i : Z) (fuel : nat) : forall w,
  (forall u url m t, answers_ok (fetch E u url m) t = false) ->
  (Z.to_nat (total - (now w - t0)) <= fuel)%nat ->
  exists w' k, poll E fuel base t0 total i w = (Ok false, w') /\
    trace w' = rounds E base i k ++ trace w /\ total <= now w' - t0 /\
    (now w - t0 < total -> (0 < k)%nat).
Proof.
  intros w Hbad. revert w.
  induction fuel as [|fuel IH]; intros w Hfuel.
  - exists w, O. cbn [poll].
    replace (now w - t0 <? total) with false by lia.
    repeat split; lia.
  - cbn [poll]. destruct (now w - t0 <? total) eqn:Hlt.
    + unfold bind.
      destruct (probe_paths_fruitless base i paths w Hbad) as (w1 & -> & Htr1 & Hn1).
      destruct (sleep_spec i w1) as (w2 & -> & Htr2 & Hn2).
      destruct (IH w2) as (w' & k & -> & Htr & Hn & _); [lia|].
      exists w', (S k). repeat split; try lia.
      rewrite Htr, Htr2, Htr1. cbn [rounds]. rewrite <- app_assoc. reflexivity.
    + exists w, O. repeat split; lia.
Qed.

(** Against a healthy backend the first tick succeeds. *)
Lemma poll_healthy (base : string) (t0 total i : Z) (fuel : nat) (w : World) :
  healthy E base i -> now w - t0 < total ->
  exists w' new, poll E (S fuel) base t0 total i w = (Ok true, w') /\
    trace w' = new ++ trace w /\ Forall is_fetch new /\
    now w <= now w' <= now w + 10 * request_timeout i.
Proof.
  intros (p & url & m & Hin & Hurl & Hok) Hlt.
  cbn [poll]. replace (now w - t0 <? total) with true by lia. unfold bind.
  destruct (probe_paths_total base i paths w) as (b & w1 & new & Heq & Htr & Hf & Hn).
  destruct (probe_paths_hit base i paths p url m Hin Hurl Hok w) as (w1' & Heq').
  rewrite Heq' in Heq. inversion Heq; subst b w1'. rewrite Heq'.
  exists w1, new. cbn [length paths] in Hn. repeat split; try (assumption || lia).
Qed.

Lemma request_cost_bounds (r : reply) (t : Z) :
  1 <= t -> 0 <= request_cost r t <= t.
Proof. intros Ht. destruct r; cbn; lia. Qed.

(** A request, from world to world. *)
Lemma ping_asked (url : string) (m : method) (i : Z) (w : World) :
  exists r, ping E url m (Z.min 2000 i) w = (Ok r, asked E i url m w) /\
    ok r = answers_ok (fetch E w url m) (request_timeout i).
Proof.
  unfold ping, asked, request_timeout, advance, log.
  pose proof (timer_delay_pos (Z.min 2000 i)) as Ht.
  destruct (fetch E w url m) as [st lat | lat |]; cbn [answers_ok request_cost now trace].
  - destruct (Z.of_N lat <? timer_delay (Z.min 2000 i)) eqn:Hl.
    + exists (mkPing ((200 <=? st) && (st <=? 299)) st).
      split; [|cbn; rewrite andb_true_r; reflexivity].
      replace (Z.of_N lat `min` timer_delay (2000 `min` i)) with (Z.of_N lat) by lia.
      reflexivity.
    + exists (mkPing false 0).
      split; [|cbn; rewrite andb_false_r; reflexivity].
      replace (Z.of_N lat `min` timer_delay (2000 `min` i))
        with (timer_delay (2000 `min` i)) by lia.
      reflexivity.
  - exists (mkPing false 0). split; reflexivity.
  - exists (mkPing false 0). split; reflexivity.
Qed.

(** One tick follows [tick_run]. *)
Lemma probe_paths_run (base : string) (i : Z) (ps : list string) : forall w,
  exists b w', probe_paths E base i ps w = (Ok b, w') /\ tick_run E base i ps w b w'.
Proof.
  induction ps as [|p ps IH]; intros w.
  - exists false, w. split; [reflexivity | constructor].
  - cbn [probe_paths]. destruct (url_resolve E p base) as [url|] eqn:Hurl.
    + unfold bind.
      destruct (ping_asked url HEAD i w) as (r1 & -> & Hok1).
      destruct (ok r1) eqn:Hr1.
      { eexists _, _. split; [reflexivity|]. eapply tick_head; [exact Hurl | congruence]. }
      destruct (ping_asked url GET i (asked E i url HEAD w)) as (r2 & -> & Hok2).
      destruct (ok r2) eqn:Hr2.
      { eexists _, _. split; [reflexivity|].
        eapply tick_get; [exact Hurl | congruence | congruence]. }
      destruct (IH (asked E i url GET (asked E i url HEAD w))) as (b & w' & -> & Hrun).
      exists b, w'. split; [reflexivity|].
      eapply tick_next; [exact Hurl | congruence | congruence | exact Hrun].
    + destruct (IH w) as (b & w' & -> & Hrun).
      exists b, w'. split; [reflexivity|]. apply tick_skip; assumption.
Qed.

(** What a tick leaves: a tick that ends with [false] has asked HEAD
    then GET on every path; a tick that ends with [true] has stopped at
    a request that was answered 2xx in time. *)
Lemma tick_run_facts (base : string) (i : Z) (ps : list string) (w : World) (b : bool)
    (w' : World) :
  tick_run E base i ps w b w' ->
  now w <= now w' <= now w + 2 * Z.of_nat (length ps) * request_timeout i /\
  if b then
    exists u p url m hit rest,
      p ∈ ps /\ url_resolve E p base = Some url /\
      answers_ok (fetch E u url m) (request_timeout i) = true /\
      w' = asked E i url m u /\ trace u = hit ++ trace w /\
      tick_events E base i ps = rev hit ++ EvFetch url m (Z.min 2000 i) :: rest /\
      now w <= now u
  else trace w' = rev (tick_events E base i ps) ++ trace w.
Proof.
  pose proof (timer_delay_pos (Z.min 2000 i)) as Ht. fold (request_timeout i) in Ht.
  assert (Hc : forall r, 0 <= request_cost r (request_timeout i) <= request_timeout i)
    by (intros r; apply request_cost_bounds, Ht).
  induction 1 as [w|p ps w b w' Hurl _ IH|p ps url w Hurl Hh|p ps url w Hurl Hh Hg
                  |p ps url w b w' Hurl Hh Hg _ IH].
  - cbn. split; [lia | reflexivity].
  - destruct IH as [Hn IH]. cbn [length tick_events flat_map]. rewrite Hurl.
    split; [lia|]. destruct b.
    + destruct IH as (u & q & url & m & hit & rest & Hq & Hu & Ha & Hw & Htr & Hev & Hnu).
      exists u, q, url, m, hit, rest. split; [right; exact Hq|].
      repeat split; assumption.
    + exact IH.
  - split.
    + cbn [asked now length]. specialize (Hc (fetch E w url HEAD)). lia.
    + exists w, p, url, HEAD, [], (EvFetch url GET (Z.min 2000 i) :: tick_events E base i ps).
      split; [left|]. split; [exact Hurl|]. split; [exact Hh|].
      split; [reflexivity|]. split; [reflexivity|].
      split; [cbn [tick_events flat_map]; rewrite Hurl; reflexivity | lia].
  - split.
    + cbn [asked now length]. pose proof (Hc (fetch E w url HEAD)).
      pose proof (Hc (fetch E (asked E i url HEAD w) url GET)). cbn [asked] in *. lia.
    + exists (asked E i url HEAD w), p, url, GET, [EvFetch url HEAD (Z.min 2000 i)],
        (tick_events E base i ps).
      split; [left|]. split; [exact Hurl|]. split; [exact Hg|].
      split; [reflexivity|]. split; [reflexivity|].
      split; [cbn [tick_events flat_map]; rewrite Hurl; reflexivity|].
      cbn [asked now]. specialize (Hc (fetch E w url HEAD)). lia.
  - destruct IH as [Hn IH].
    assert (Hn2 : now w <= now (asked E i url GET (asked E i url HEAD w))
                  <= now w + 2 * request_timeout i).
    { cbn [asked now]. pose proof (Hc (fetch E w url HEAD)).
      pose proof (Hc (fetch E (asked E i url HEAD w) url GET)). cbn [asked] in *. lia. }
    split; [cbn [length]; lia|].
    cbn [tick_events flat_map]. rewrite Hurl. destruct b.
    + destruct IH as (u & q & url' & m & hit & rest & Hq & Hu & Ha & Hw & Htr & Hev & Hnu).
      exists u, q, url', m,
        (hit ++ [EvFetch url GET (Z.min 2000 i); EvFetch url HEAD (Z.min 2000 i)]), rest.
      split; [right; exact Hq|]. split; [exact Hu|]. split; [exact Ha|].
      split; [exact Hw|]. split; [rewrite Htr, <- app_assoc; reflexivity|].
      split; [|lia].
      rewrite rev_app_distr. cbn [rev app].
      fold (tick_events E base i ps). rewrite Hev. reflexivity.
    + rewrite IH. cbn [asked trace]. rewrite rev_app_distr. cbn [rev app].
      rewrite <- app_assoc. reflexivity.
Qed.

(** The loop follows [probe_run], and never runs out of ticks. *)
Lemma poll_run (base : string) (t0 total i : Z) (fuel : nat) : forall w,
  (Z.to_nat (total - (now w - t0)) <= fuel)%nat ->
  exists b w', poll E fuel base t0 total i w = (Ok b, w') /\
    probe_run E base total i t0 w b w'.
Proof.
  induction fuel as [|fuel IH]; intros w Hfuel.
  - exists false, w. cbn [poll].
    replace (now w - t0 <? total) with false by lia.
    split; [reflexivity|]. apply probe_over. lia.
  - cbn [poll]. destruct (now w - t0 <? total) eqn:Hlt.
    + unfold bind.
      destruct (probe_paths_run base i paths w) as (b & w1 & -> & Htick).
      destruct b.
      * exists true, w1. split; [reflexivity|]. apply probe_hit; [lia | exact Htick].
      * destruct (tick_run_facts _ _ _ _ _ _ Htick) as [Hn1 _].
        destruct (sleep_spec i w1) as (w2 & Hs & _ & Hn2). rewrite Hs.
        destruct (IH w2) as (b & w' & -> & Hrun); [lia|].
        exists b, w'. split; [reflexivity|].
        eapply probe_miss; [lia | exact Htick | exact Hs | exact Hrun].
    + exists false, w. split; [reflexivity|]. apply probe_over. lia.
Qed.

(** What a probe leaves: fruitless ticks with their sleeps, and either
    the budget spent or a last tick, begun within the budget, that
    stopped at a request answered 2xx in time. *)
Lemma probe_run_facts (base : string) (total i t0 : Z) (w : World) (b : bool) (w' : World) :
  probe_run E base total i t0 w b w' ->
  now w <= now w' /\
  if b then
    now w - t0 < total /\ now w' - t0 < total + 10 * request_timeout i /\
    exists u p url m hit k rest,
      p ∈ paths /\ url_resolve E p base = Some url /\
      answers_ok (fetch E u url m) (request_timeout i) = true /\
      w' = asked E i url m u /\
      trace u = hit ++ rounds E base i k ++ trace w /\
      tick_events E base i paths = rev hit ++ EvFetch url m (Z.min 2000 i) :: rest
  else
    total <= now w' - t0 /\
    exists k, trace w' = rounds E base i k ++ trace w /\
      (now w - t0 < total -> (0 < k)%nat).
Proof.
  induction 1 as [w Hover|w w1 Hlt Htick|w w1 w2 b w3 Hlt Htick Hs _ IH].
  - split; [lia|]. split; [exact Hover|]. exists 0%nat. split; [reflexivity | lia].
  - destruct (tick_run_facts _ _ _ _ _ _ Htick)
      as [Hn (u & p & url & m & hit & rest & Hp & Hu & Ha & Hw & Htr & Hev & _)].
    cbn [length paths] in Hn. split; [lia|]. split; [exact Hlt|]. split; [lia|].
    exists u, p, url, m, hit, 0%nat, rest. repeat split; assumption.
  - destruct (tick_run_facts _ _ _ _ _ _ Htick) as [Hn1 Htr1].
    destruct (sleep_spec i w1) as (w2' & Hs' & Htr2 & Hn2).
    rewrite Hs in Hs'. injection Hs' as <-.
    destruct IH as [Hn IH]. split; [lia|]. destruct b.
    + destruct IH as (_ & Hb & u & p & url & m & hit & k & rest
                      & Hp & Hu & Ha & Hw & Htr & Hev).
      split; [exact Hlt|]. split; [exact Hb|].
      exists u, p, url, m, hit, (S k), rest.
      repeat split; try assumption.
      rewrite Htr, Htr2, Htr1. cbn [rounds]. rewrite <- !app_assoc. reflexivity.
    + destruct IH as (Hb & k & Htr & _). split; [exact Hb|].
      exists (S k). split; [|lia].
      rewrite Htr, Htr2, Htr1. cbn [rounds]. rewrite <- !app_assoc. reflexivity.
Qed.

(** A tick begun after the backend has become healthy ends with [true]. *)
Lemma tick_run_from (base : string) (i T : Z) (p url : string) (m : method) :
  url_resolve E p base = Some url ->
  (forall u, T <= now u -> answers_ok (fetch E u url m) (request_timeout i) = true) ->
  forall ps w b w', tick_run E base i ps w b w' -> p ∈ ps -> T <= now w -> b = true.
Proof.
  intros Hurl Hok ps w b w'.
  pose proof (timer_delay_pos (Z.min 2000 i)) as Ht. fold (request_timeout i) in Ht.
  assert (Hc : forall r, 0 <= request_cost r (request_timeout i) <= request_timeout i)
    by (intros r; apply request_cost_bounds, Ht).
  induction 1 as [w|q ps w b w' Hq _ IH|q ps url' w Hq Hh|q ps url' w Hq Hh Hg
                  |q ps url' w b w' Hq Hh Hg _ IH]; intros Hin HT.
  - inversion Hin.
  - apply elem_of_cons in Hin. destruct Hin as [->|Hin]; [congruence|].
    apply IH; assumption.
  - reflexivity.
  - reflexivity.
  - assert (Hn1 : now w <= now (asked E i url' HEAD w)).
    { cbn [asked now]. specialize (Hc (fetch E w url' HEAD)). lia. }
    assert (Hn2 : now w <= now (asked E i url' GET (asked E i url' HEAD w))).
    { cbn [asked now] in *. specialize (Hc (fetch E (asked E i url' HEAD w) url' GET)).
      cbn [asked] in *. lia. }
    apply elem_of_cons in Hin. destruct Hin as [->|Hin].
    + exfalso. rewrite Hurl in Hq. injection Hq as <-. destruct m.
      * rewrite (Hok w HT) in Hh. discriminate.
      * rewrite (Hok (asked E i url HEAD w)) in Hg by lia. discriminate.
    + apply IH; [exact Hin | lia].
Qed.

(** With punctual timers, a probe whose budget leaves room for one
    tick and one sleep after the backend has become healthy ends with
    [true]. *)
Lemma probe_run_from (base : string) (total i t0 T : Z) :
  punctual E -> healthy_from E base i T ->
  forall w b w', probe_run E base total i t0 w b w' ->
    (T <= now w /\ now w - t0 < total) \/
    (now w < T /\ T + 10 * request_timeout i + timer_delay i <= t0 + total) ->
    b = true.
Proof.
  intros Hp (p & url & m & Hin & Hurl & Hok) w b w'.
  pose proof (timer_delay_pos (Z.min 2000 i)) as Ht. fold (request_timeout i) in Ht.
  pose proof (timer_delay_pos i) as Hd.
  induction 1 as [w Hover|w w1 Hlt Htick|w w1 w2 b w3 Hlt Htick Hs _ IH]; intros Hc.
  - exfalso. lia.
  - reflexivity.
  - destruct Hc as [[HT _]|[HT Hroom]].
    + exfalso.
      pose proof (tick_run_from base i T p url m Hurl Hok _ _ _ _ Htick Hin HT).
      discriminate.
    + destruct (tick_run_facts _ _ _ _ _ _ Htick) as [Hn1 _].
      cbn [length paths] in Hn1.
      unfold sleep in Hs. rewrite (Hp w1) in Hs. injection Hs as <-.
      apply IH. cbn [advance log now].
      destruct (Z_lt_le_dec (now w1 + (timer_delay i + Z.of_N 0)) T) as [Hl|Hl].
      * right. split; [exact Hl | exact Hroom].
      * left. split; [exact Hl | lia].
Qed.

Lemma probe_event_mono (base : string) (i : Z) (ps qs : list string) (e : event) :
  (forall p, p ∈ ps -> p ∈ qs) -> probe_event E base i ps e -> probe_event E base i qs e.
Proof.
  intros Hsub. destruct e; cbn; try tauto.
  intros (Ht & p & Hp & Hu). split; [exact Ht|]. exists p. split; [apply Hsub, Hp | exact Hu].
Qed.

Lemma probe_paths_events (base : string) (i : Z) (ps : list string) : forall w r w',
  probe_paths E base i ps w = (r, w') ->
  exists new, trace w' = new ++ trace w /\ Forall (probe_event E base i ps) new.
Proof.
  induction ps as [|p ps IH]; intros w r w' H.
  - inversion H; subst. exists []. split; [reflexivity | constructor].
  - assert (Hmono : forall new, Forall (probe_event E base i ps) new ->
                                Forall (probe_event E base i (p :: ps)) new).
    { intros new Hnew. eapply Forall_impl; [exact Hnew|].
      intros e. apply probe_event_mono. intros q Hq. right. exact Hq. }
    cbn [probe_paths] in H. destruct (url_resolve E p base) as [url|] eqn:Hurl.
    + assert (Hev : forall m, probe_event E base i (p :: ps) (EvFetch url m (Z.min 2000 i))).
      { intros m. split; [reflexivity|]. exists p. split; [left | exact Hurl]. }
      unfold bind in H.
      destruct (ping_spec url HEAD (Z.min 2000 i) w) as (r1 & w1 & Heq1 & _ & Htr1 & _).
      rewrite Heq1 in H. destruct (ok r1).
      { inversion H; subst. exists [EvFetch url HEAD (Z.min 2000 i)].
        split; [exact Htr1 | constructor; [apply Hev | constructor]]. }
      destruct (ping_spec url GET (Z.min 2000 i) w1) as (r2 & w2 & Heq2 & _ & Htr2 & _).
      rewrite Heq2 in H. destruct (ok r2).
      { inversion H; subst.
        exists [EvFetch url GET (Z.min 2000 i); EvFetch url HEAD (Z.min 2000 i)].
        split; [rewrite Htr2, Htr1; reflexivity|].
        constructor; [apply Hev | constructor; [apply Hev | constructor]]. }
      apply IH in H. destruct H as (new & Htr & Hf).
      exists (new ++ [EvFetch url GET (Z.min 2000 i); EvFetch url HEAD (Z.min 2000 i)]).
      split; [rewrite Htr, Htr2, Htr1, <- app_assoc; reflexivity|].
      apply Forall_app. split; [apply Hmono, Hf|].
      constructor; [apply Hev | constructor; [apply Hev | constructor]].
    + apply IH in H. destruct H as (new & Htr & Hf). exists new.
      split; [exact Htr | apply Hmono, Hf].
Qed.

Lemma poll_events (base : string) (t0 total i : Z) (fuel : nat) : forall w r w',
  poll E fuel base t0 total i w = (r, w') ->
  exists new, trace w' = new ++ trace w /\ Forall (probe_event E base i paths) new.
Proof.
  induction fuel as [|fuel IH]; intros w r w' H; cbn [poll] in H.
  - destruct (now w - t0 <? total); inversion H; subst;
      exists []; (split; [reflexivity | constructor]).
  - destruct (now w - t0 <? total).
    + unfold bind in H.
      destruct (probe_paths E base i paths w) as [[b|e|] w1] eqn:Hp;
        apply probe_paths_events in Hp; destruct Hp as (new1 & Htr1 & Hf1).
      * destruct b.
        { inversion H; subst. exists new1. split; assumption. }
        destruct (sleep_spec i w1) as (w2 & Hs & Htr2 & _). rewrite Hs in H.
        apply IH in H. destruct H as (new & Htr & Hf).
        exists (new ++ EvSleep i :: new1).
        split; [rewrite Htr, Htr2, Htr1, <- app_assoc; reflexivity|].
        apply Forall_app. split; [exact Hf|]. constructor; [reflexivity | exact Hf1].
      * inversion H; subst. exists new1. split; assumption.
      * inversion H; subst. exists new1. split; assumption.
    + inversion H; subst. exists []. split; [reflexivity | constructor].
Qed.

(** A probe always returns, leaving only probe events behind. *)
Lemma waitForOkAny_returns (base : string) (total i : Z) (w : World) :
  exists b w' new, waitForOkAny E base total i w = (Ok b, w') /\
    trace w' = new ++ trace w /\ Forall (probe_event E base i paths) new.
Proof.
  unfold waitForOkAny.
  destruct (poll_enough_fuel base (now w) total i (Z.to_nat total) w)
    as (b & w' & new0 & Heq & _); [lia|].
  destruct (poll_events _ _ _ _ _ _ _ _ Heq) as (new & Htr & Hf).
  exists b, w', new. repeat split; assumption.
Qed.

Lemma only_500_never_ok :
  only_500 E -> forall u url m t, answers_ok (fetch E u url m) t = false.
Proof. intros H u url m t. destruct (H u url m) as [lat ->]. reflexivity. Qed.

End Facts.

(** C7 (as stated, refuted): the budget is looked at only before a
    tick, so a [true] can come after it.  A backend that answers 200 to
    every request after 3 ms is reported healthy after 3 ms by a probe
    with a budget of 2 ms; a backend on which only [GET /api/status]
    answers, after 299 ms, is reported healthy after 2999 ms by a probe
    with a budget of 2000 ms and an interval of 300 ms. *)
Lemma true_comes_after_budget :
  healthy E_up "http://127.0.0.1:5100" 600 /\
  waitForOkAny E_up "http://127.0.0.1:5100" 2 600 w0
    = (Ok true, mkWorld 3 [EvFetch "http://127.0.0.1:5100/" HEAD 600]) /\
  healthy E_slow "http://127.0.0.1:5100" 300 /\
  fst (waitForOkAny E_slow "http://127.0.0.1:5100" 2000 300 w0) = Ok true /\
  now (snd (waitForOkAny E_slow "http://127.0.0.1:5100" 2000 300 w0)) = 2999.
Proof.
  split; [|split; [|split; [|split]]].
  - exists "/", "http://127.0.0.1:5100/", HEAD.
    split; [left|]. split; [reflexivity|]. intros w. reflexivity.
  - vm_compute. reflexivity.
  - exists "/api/status", "http://127.0.0.1:5100/api/status", GET.
    split; [repeat constructor|]. split; [reflexivity|]. intros w. reflexivity.
  - vm_compute. reflexivity.
  - vm_compute. reflexivity.
Qed.

(** C7 (amended): [waitForOkAny(base, totalMs, intervalMs)] always
    returns, and it runs as [probe_run] says: as long as less than
    [totalMs] has elapsed it begins a tick, which asks HEAD and then,
    when HEAD is not answered 2xx within the request timeout, GET on
    each of the five candidate paths in order and ends the probe with
    [true] at the first request answered 2xx in time; after a tick
    that found nothing it sleeps [intervalMs]; once the budget has
    elapsed it returns [false].  Hence: a budget of 0 or less gives
    [false] without a request; a [false] comes only after the whole
    budget, having left full ticks and their sleeps; a [true] comes
    from a tick begun within the budget, less than ten request
    timeouts after the budget at the latest and not always within it,
    and its last request was answered 2xx in time; a backend that
    never answers 2xx in time (500 only, refused, silent) gives
    [false]; one on which some candidate path always answers 2xx in
    time gives [true] in the first tick, without a sleep, within ten
    request timeouts; and with punctual timers one that answers so from
    time [T] on gives [true] when the budget leaves room for one tick
    and one sleep after [T]. *)
Theorem waitForOkAny_spec (E : Env) (base : string) (totalMs intervalMs : Z) (w : World) :
  exists b w' new,
    waitForOkAny E base totalMs intervalMs w = (Ok b, w') /\
    probe_run E base totalMs intervalMs (now w) w b w' /\
    trace w' = new ++ trace w /\
    Forall (probe_event E base intervalMs paths) new /\
    (totalMs <= 0 -> b = false /\ w' = w) /\
    (b = false ->
       totalMs <= now w' - now w /\
       exists k, new = rounds E base intervalMs k /\ (0 < totalMs -> (0 < k)%nat)) /\
    (b = true ->
       0 < totalMs /\
       now w' - now w < totalMs + 10 * request_timeout intervalMs /\
       exists u p url m hit k rest,
         p ∈ paths /\ url_resolve E p base = Some url /\
         answers_ok (fetch E u url m) (request_timeout intervalMs) = true /\
         w' = asked E intervalMs url m u /\
         trace u = hit ++ rounds E base intervalMs k ++ trace w /\
         tick_events E base intervalMs paths
           = rev hit ++ EvFetch url m (Z.min 2000 intervalMs) :: rest) /\
    ((forall u url m,
        answers_ok (fetch E u url m) (request_timeout intervalMs) = false) ->
     b = false) /\
    (only_500 E -> b = false) /\
    (0 < totalMs -> healthy E base intervalMs ->
       b = true /\ Forall is_fetch new /\
       now w' - now w <= 10 * request_timeout intervalMs) /\
    (punctual E -> forall T, healthy_from E base intervalMs T ->
       Z.max 0 (T - now w) + 10 * request_timeout intervalMs + timer_delay intervalMs
         <= totalMs ->
       b = true).
Proof.
  pose proof (timer_delay_pos (Z.min 2000 intervalMs)) as Hrt.
  fold (request_timeout intervalMs) in Hrt.
  pose proof (timer_delay_pos intervalMs) as Hd.
  unfold waitForOkAny.
  destruct (poll_run E base (now w) totalMs intervalMs (Z.to_nat totalMs) w)
    as (b & w' & Heq & Hrun); [lia|].
  destruct (poll_events _ _ _ _ _ _ _ _ _ Heq) as (new & Hnew & Hev).
  pose proof (probe_run_facts E _ _ _ _ _ _ _ Hrun) as [Hn Hfacts].
  assert (Hnever : (forall u url m,
             answers_ok (fetch E u url m) (request_timeout intervalMs) = false) ->
          b = false).
  { intros Hbad. destruct b; [|reflexivity].
    destruct Hfacts as (_ & _ & u & p & url & m & hit & k & rest & _ & _ & Ha & _).
    rewrite Hbad in Ha. discriminate. }
  exists b, w', new. rewrite Heq.
  split; [reflexivity|]. split; [exact Hrun|]. split; [exact Hnew|]. split; [exact Hev|].
  split; [|split; [|split; [|split; [|split; [|split]]]]].
  - intros Hneg. inversion Hrun; subst; [split; reflexivity | lia | lia].
  - intros ->. destruct Hfacts as (Hb & k & Htr & Hk).
    split; [exact Hb|]. exists k. split; [|intros Hpos; apply Hk; lia].
    rewrite Hnew in Htr. apply app_inv_tail in Htr. exact Htr.
  - intros ->. destruct Hfacts as (Hlt & Hb & Hex).
    split; [lia|]. split; [exact Hb | exact Hex].
  - exact Hnever.
  - intros H500. apply Hnever. intros u url m.
    apply (only_500_never_ok E H500).
  - intros Hpos Hh.
    destruct (Z.to_nat totalMs) as [|fuel] eqn:Hfuel; [lia|].
    destruct (poll_healthy E base (now w) totalMs intervalMs fuel w Hh)
      as (w1 & new1 & Heq1 & Hnew1 & Hfetch & Hn1); [lia|].
    rewrite Heq1 in Heq. inversion Heq; subst b w1.
    rewrite Hnew in Hnew1. apply app_inv_tail in Hnew1. subst new1.
    split; [reflexivity|]. split; [exact Hfetch | lia].
  - intros Hp T HT Hroom.
    eapply (probe_run_from E base totalMs intervalMs (now w) T Hp HT); [exact Hrun|].
    destruct (Z_lt_le_dec (now w) T); [right | left]; split; lia.
Qed.

Lemma waitForOkAny_spec_witness :
  (exists w', waitForOkAny E_up "http://127.0.0.1:5100" 20000 600 w0 = (Ok true, w')) /\
  (exists w', waitForOkAny E_500 "http://127.0.0.1:5100" 20000 600 w0 = (Ok false, w')) /\
  (exists w', waitForOkAny E_late "http://127.0.0.1:5100" 20000 600 w0 = (Ok true, w')).
Proof.
  split; [|split].
  - destruct (waitForOkAny_spec E_up "http://127.0.0.1:5100" 20000 600 w0)
      as (b & w' & new & Heq & _ & _ & _ & _ & _ & _ & _ & _ & Hh & _).
    destruct Hh as (-> & _ & _); [lia | | eexists; exact Heq].
    exists "/", "http://127.0.0.1:5100/", HEAD.
    split; [left|]. split; [reflexivity|]. intros w. reflexivity.
  - destruct (waitForOkAny_spec E_500 "http://127.0.0.1:5100" 20000 600 w0)
      as (b & w' & new & Heq & _ & _ & _ & _ & _ & _ & _ & H5 & _).
    rewrite H5 in Heq; [eexists; exact Heq|].
    intros w url m. exists 3%N. reflexivity.
  - destruct (waitForOkAny_spec E_late "http://127.0.0.1:5100" 20000 600 w0)
      as (b & w' & new & Heq & _ & _ & _ & _ & _ & _ & _ & _ & _ & Hl).
    rewrite (Hl (fun _ => eq_refl) 1000) in Heq; [eexists; exact Heq | |].
    + exists "/", "http://127.0.0.1:5100/", HEAD.
      split; [left|]. split; [reflexivity|]. intros u Hu.
      cbn [E_late fetch]. replace (now u <? 1000) with false by lia. reflexivity.
    + vm_compute. discriminate.
Defined.

End ProberFacts.

(** * Properties of the launcher *)

Module LauncherFacts.
Import Os OsFacts Allocator Prober Launcher ProbeSpec LaunchSpec RunSpec Scenario.

Section Facts.
Variable E : Env.
Variable cwd : string.

Lemma spawnDev_spec (a : list string) (env_ : gmap string string) (w : World) :
  exists child, spawnDev E cwd a env_ Inherit w
    = (Ok child, log (EvSpawn (npm E) a cwd env_ Inherit (pid child)) w).
Proof. eexists. reflexivity. Qed.

(** The inner loop: every strategy is spawned in [cwd] with its own
    arguments and environment, probed on [port], and killed before the
    next one when the probe fails. *)
Lemma run_tries_trace (port : Z) (ts : list Strategy) : forall w,
  exists r w' evs, run_tries E cwd port ts w = (Ok r, w') /\
    trace w' = rev evs ++ trace w /\
    tries_trace E cwd port ts (fst <$> r) evs /\
    (forall c q, r = Some (c, q) -> q = port).
Proof.
  induction ts as [|t ts IH]; intros w.
  - exists None, w, []. repeat split; [constructor | discriminate].
  - cbn [run_tries]. unfold bind at 1.
    destruct (spawnDev_spec (args t) (default (process_env E) (env t)) w) as [child ->].
    fold (spawn_event E cwd t child). set (w1 := log (spawn_event E cwd t child) w).
    unfold bind at 1.
    destruct (ProberFacts.waitForOkAny_returns E (base_url port) 20000 600 w1)
      as (b & w2 & new & -> & Htr2 & Hf).
    assert (Hprobes : Forall (launch_probe E port) (rev new)).
    { apply Forall_rev, Hf. }
    destruct b.
    + exists (Some (child, port)), w2, (spawn_event E cwd t child :: rev new).
      split; [reflexivity|]. split.
      * rewrite Htr2. cbn [rev]. rewrite rev_involutive, <- app_assoc. reflexivity.
      * split; [constructor; exact Hprobes|]. intros c q [= _ <-]. reflexivity.
    + unfold bind at 1. rewrite kill_ignored. unfold bind at 1.
      destruct (ProberFacts.sleep_spec E 300 (log (EvKill (default (-1) (pid child))) w2))
        as (w4 & -> & Htr4 & _).
      destruct (IH w4) as (r & w' & rest & -> & Htr & Htt & Hport).
      exists r, w',
        (spawn_event E cwd t child :: rev new
           ++ EvKill (default (-1) (pid child)) :: EvSleep 300 :: rest).
      split; [reflexivity|]. split.
      * rewrite Htr, Htr4. cbn [log trace]. rewrite Htr2. cbn [rev].
        rewrite !rev_app_distr. cbn [rev]. rewrite rev_involutive, <- !app_assoc.
        reflexivity.
      * split; [constructor; assumption | exact Hport].
Qed.

(** The outer loop. *)
Lemma attempts_follow_trace (isVite isNext : bool) (n : nat) : forall w,
  exists r w' evs, attempts E n cwd isVite isNext w = (r, w') /\
    trace w' = rev evs ++ trace w /\
    attempts_trace E cwd isVite isNext n r evs.
Proof.
  induction n as [|n IH]; intros w.
  - exists (Throw (Error "Failed to start dev server")), w, [].
    repeat split. constructor.
  - cbn [attempts]. unfold bind at 1.
    pose proof (AllocatorFacts.scan_spec E 100 5100 w) as Hscan.
    change (getFreePort E 5100 5199 w) with (scan E 100 5100 w).
    destruct (scan E 100 5100 w) as [[port|e|] w1].
    + destruct Hscan as (Hport & _ & Htr1); [lia | lia |].
      unfold bind at 1.
      destruct (run_tries_trace port (tries E isVite isNext port) w1)
        as (r & w2 & evs & -> & Htr2 & Htt & Hsame).
      destruct r as [[child q]|].
      * rewrite (Hsame child q eq_refl) in *.
        exists (Ok (child, port)), w2, (alloc_events port ++ evs).
        split; [reflexivity|]. split.
        -- rewrite Htr2, Htr1. unfold alloc_events.
           rewrite rev_app_distr, rev_involutive, <- app_assoc. reflexivity.
        -- constructor; [lia | exact Htt].
      * destruct (IH w2) as (r & w' & rest & -> & Htr & Hat).
        exists r, w', (alloc_events port ++ evs ++ rest).
        split; [reflexivity|]. split.
        -- rewrite Htr, Htr2, Htr1. unfold alloc_events.
           rewrite !rev_app_distr, rev_involutive, <- !app_assoc. reflexivity.
        -- apply attempts_miss; [lia | exact Htt | exact Hat].
    + destruct Hscan as (-> & _ & Htr1); [lia | lia |].
      exists (Throw (Error "No free port found")), w1, (rev (failed 100 5100)).
      split; [reflexivity|]. split; [rewrite rev_involutive; exact Htr1 | constructor].
    + exfalso. apply Hscan; lia.
Qed.

(** The package analysis reads the two flags off [package.json]. *)
Lemma detect_spec (w : World) :
  detect E cwd w = (Ok (depends_on E cwd w "vite", depends_on E cwd w "next"), w).
Proof.
  unfold detect, depends_on.
  destruct (readJson E w (cwd +:+ "/package.json")) as [pkg|]; [|reflexivity].
  rewrite !lookup_union.
  destruct (default ∅ (devDependencies pkg) !! "vite"),
           (default ∅ (dependencies pkg) !! "vite"),
           (default ∅ (devDependencies pkg) !! "next"),
           (default ∅ (dependencies pkg) !! "next"); reflexivity.
Qed.

(** The inner loop, world by world: what follows a spawn is decided by
    the answer of the probe. *)
Lemma run_tries_run (port : Z) (ts : list Strategy) : forall w,
  exists r w', run_tries E cwd port ts w = (Ok r, w') /\
    tries_run E cwd port ts w (fst <$> r) w' /\
    (forall c q, r = Some (c, q) -> q = port).
Proof.
  induction ts as [|t ts IH]; intros w.
  - exists None, w. repeat split; [constructor | discriminate].
  - cbn [run_tries]. unfold bind at 1.
    change (spawnDev E cwd (args t) (default (process_env E) (env t)) Inherit w)
      with (Ok (mkChild (spawn_pid E w)),
            log (spawn_event E cwd t (mkChild (spawn_pid E w))) w).
    cbv iota. unfold bind at 1.
    destruct (waitForOkAny E (base_url port) 20000 600
                (log (spawn_event E cwd t (mkChild (spawn_pid E w))) w))
      as [[[|]|e|] w2] eqn:Hw.
    + exists (Some (mkChild (spawn_pid E w), port)), w2.
      split; [reflexivity|]. split; [apply run_hit, Hw|].
      intros c q [= _ <-]. reflexivity.
    + unfold bind at 1. rewrite kill_ignored. unfold bind at 1.
      destruct (sleep E 300 (log (EvKill (default (-1) (pid (mkChild (spawn_pid E w))))) w2))
        as [[[]|e|] w3] eqn:Hs; try discriminate Hs.
      destruct (IH w3) as (r & w' & -> & Hrun & Hport).
      exists r, w'. split; [reflexivity|]. split; [|exact Hport].
      eapply run_miss; [exact Hw | exact Hs | exact Hrun].
    + exfalso.
      destruct (ProberFacts.waitForOkAny_returns E (base_url port) 20000 600
                  (log (spawn_event E cwd t (mkChild (spawn_pid E w))) w))
        as (b & w' & new & Heq & _).
      rewrite Hw in Heq. discriminate Heq.
    + exfalso.
      destruct (ProberFacts.waitForOkAny_returns E (base_url port) 20000 600
                  (log (spawn_event E cwd t (mkChild (spawn_pid E w))) w))
        as (b & w' & new & Heq & _).
      rewrite Hw in Heq. discriminate Heq.
Qed.

(** The outer loop, world by world. *)
Lemma attempts_follow_run (isVite isNext : bool) (n : nat) : forall w,
  exists r w', attempts E n cwd isVite isNext w = (r, w') /\
    attempts_run E cwd isVite isNext n w r w'.
Proof.
  induction n as [|n IH]; intros w.
  - exists (Throw (Error "Failed to start dev server")), w. split; [reflexivity|constructor].
  - cbn [attempts]. unfold bind at 1.
    pose proof (AllocatorFacts.scan_spec E 100 5100 w) as Hscan.
    change (scan E 100 5100 w) with (getFreePort E 5100 5199 w) in Hscan.
    destruct (getFreePort E 5100 5199 w) as [[port|e|] w1] eqn:Hg.
    + unfold bind at 1.
      destruct (run_tries_run port (tries E isVite isNext port) w1)
        as (r & w2 & -> & Hrun & Hsame).
      destruct r as [[child q]|].
      * rewrite (Hsame child q eq_refl) in *.
        exists (Ok (child, port)), w2. split; [reflexivity|].
        eapply run_found; [exact Hg | exact Hrun].
      * destruct (IH w2) as (r & w' & -> & Hat).
        exists r, w'. split; [reflexivity|].
        eapply run_again; [exact Hg | exact Hrun | exact Hat].
    + exists (Throw e), w1. split; [reflexivity|]. apply run_no_port, Hg.
    + exfalso. apply Hscan; lia.
Qed.

Lemma launch_follows_trace (n : nat) (w : World) :
  exists r w' evs isVite isNext,
    spawnDevServerWithRetry E cwd n w = (r, w') /\
    trace w' = rev evs ++ trace w /\
    attempts_trace E cwd isVite isNext n r evs.
Proof.
  unfold spawnDevServerWithRetry, bind at 1.
  assert (exists v x, detect E cwd w = (Ok (v, x), w)) as (v & x & ->).
  { unfold detect. destruct (readJson E w (cwd +:+ "/package.json")); eauto. }
  cbn [fst snd].
  destruct (attempts_follow_trace v x n w) as (r & w' & evs & -> & Htr & Hat).
  exists r, w', evs, v, x. repeat split; assumption.
Qed.

Lemma launch_probe_inherits (port : Z) (e : event) :
  launch_probe E port e -> spawn_inherits e.
Proof. destruct e; cbn; tauto. Qed.

Lemma tries_env (isVite isNext : bool) (port : Z) (t : Strategy) :
  t ∈ tries E isVite isNext port ->
  env t = Some (<["PORT" := String_ port]> (process_env E)).
Proof.
  unfold tries. intros Hin.
  destruct isVite, isNext; cbn in Hin;
    repeat match goal with
           | H : _ ∈ _ :: _ |- _ => inversion H; clear H; subst
           | H : _ ∈ [] |- _ => inversion H
           end; reflexivity.
Qed.

Lemma tries_length (isVite isNext : bool) (port : Z) :
  length (tries E isVite isNext port) = if isNext then 2%nat else 1%nat.
Proof. destruct isVite, isNext; reflexivity. Qed.

Lemma tries_trace_inherits (port : Z) (ts : list Strategy) (r : option ChildProcess)
    (evs : list event) :
  tries_trace E cwd port ts r evs -> Forall spawn_inherits evs.
Proof.
  induction 1 as [|t ts child probes Hp|t ts child probes r rest Hp _ IH].
  - constructor.
  - constructor; [reflexivity|].
    eapply Forall_impl; [exact Hp | intros e; apply launch_probe_inherits].
  - constructor; [reflexivity|]. apply Forall_app. split.
    + eapply Forall_impl; [exact Hp | intros e; apply launch_probe_inherits].
    + constructor; [exact I|]. constructor; [exact I | exact IH].
Qed.

(** A successful inner loop ends with the spawn of the child handed
    back, followed by nothing but the probe that found it healthy. *)
Lemma tries_trace_hit (port : Z) (ts : list Strategy) (r : option ChildProcess)
    (evs : list event) :
  tries_trace E cwd port ts r evs ->
  forall child, r = Some child ->
  exists pre t probes, evs = pre ++ spawn_event E cwd t child :: probes /\
    t ∈ ts /\ Forall (launch_probe E port) probes.
Proof.
  induction 1 as [|t ts c probes Hp|t ts c probes r rest Hp _ IH]; intros child Hr.
  - discriminate.
  - injection Hr as ->. exists [], t, probes. repeat split; [left | exact Hp].
  - destruct (IH child Hr) as (pre & t' & probes' & -> & Hin & Hp').
    exists (spawn_event E cwd t c :: probes
              ++ EvKill (default (-1) (pid c)) :: EvSleep 300 :: pre), t', probes'.
    split; [|split; [right; exact Hin | exact Hp']].
    cbn. rewrite <- app_assoc. reflexivity.
Qed.

Lemma alloc_events_close (port : Z) : In (EvClose port) (alloc_events port).
Proof. unfold alloc_events. rewrite <- in_rev. left. reflexivity. Qed.

Lemma failed_inherit (n : nat) : forall p, Forall spawn_inherits (failed n p).
Proof.
  induction n as [|n IH]; intros p; cbn [failed]; [constructor|].
  apply Forall_app. split; [apply IH | constructor; [exact I | constructor]].
Qed.

Lemma alloc_events_inherit (port : Z) : Forall spawn_inherits (alloc_events port).
Proof.
  unfold alloc_events. apply Forall_rev.
  constructor; [exact I|]. constructor; [exact I|]. apply failed_inherit.
Qed.

Lemma attempts_trace_inherits (v x : bool) (n : nat) (r : outcome (ChildProcess * Z))
    (evs : list event) :
  attempts_trace E cwd v x n r evs -> Forall spawn_inherits evs.
Proof.
  induction 1 as [|n|n port child evs _ Ht|n port evs r rest _ Ht _ IH].
  - constructor.
  - apply Forall_rev, failed_inherit.
  - apply Forall_app. split; [apply alloc_events_inherit|].
    eapply tries_trace_inherits, Ht.
  - apply Forall_app. split; [apply alloc_events_inherit|].
    apply Forall_app. split; [eapply tries_trace_inherits, Ht | exact IH].
Qed.

(** A successful launch ends with the allocation of the returned
    port, the spawn of the returned child on that port, and the probe
    of that port. *)
Lemma attempts_trace_ok (v x : bool) (n : nat) (r : outcome (ChildProcess * Z))
    (evs : list event) :
  attempts_trace E cwd v x n r evs ->
  forall child port, r = Ok (child, port) ->
  exists pre t probes, evs = pre ++ spawn_event E cwd t child :: probes /\
    In (EvClose port) pre /\ t ∈ tries E v x port /\
    Forall (launch_probe E port) probes.
Proof.
  induction 1 as [|n|n p c evs _ Ht|n p evs r rest _ Ht _ IH]; intros child port Hr.
  - discriminate.
  - discriminate.
  - injection Hr as -> ->.
    destruct (tries_trace_hit _ _ _ _ Ht child eq_refl) as (pre & t & probes & -> & Hin & Hp).
    exists (alloc_events port ++ pre), t, probes.
    split; [rewrite <- app_assoc; reflexivity|].
    split; [apply in_or_app; left; apply alloc_events_close|]. split; assumption.
  - destruct (IH child port Hr) as (pre & t & probes & -> & Hc & Hin & Hp).
    exists (alloc_events p ++ evs ++ pre), t, probes.
    split; [rewrite <- !app_assoc; reflexivity|].
    split; [|split; assumption].
    apply in_or_app; right. apply in_or_app; right. exact Hc.
Qed.

(** What the children write does not reach the launcher. *)
Lemma launch_ignores_output (f : World -> Z -> option Z) (n : nat) (w : World) :
  spawnDevServerWithRetry (with_logged_port f E) cwd n w
  = spawnDevServerWithRetry E cwd n w.
Proof. reflexivity. Qed.

End Facts.

(** C6 (as stated, refuted): for a Next project whose server never
    answers, a single attempt ([maxRetry = 1]) allocates one port and
    spawns two strategies, both on that port. *)
Lemma next_attempt_spawns_twice :
  fst (spawnDevServerWithRetry E_next_down "/srv/app" 1 w0)
    = Throw (Error "Failed to start dev server") /\
  count_allocs (trace (snd (spawnDevServerWithRetry E_next_down "/srv/app" 1 w0))) = 1%nat /\
  spawn_ports (trace (snd (spawnDevServerWithRetry E_next_down "/srv/app" 1 w0)))
    = [Some "5100"; Some "5100"].
Proof. vm_compute. repeat split. Qed.

(** C6 (amended): a launch makes at most [maxRetry] attempts for the
    framework that [package.json] shows (Vite if it lists vite, Next if
    it lists next, a devDependencies entry hiding the dependencies
    entry; neither when the file cannot be read).  Each attempt
    allocates one port from 5100..5199 and then tries every strategy of
    the project in order on that same port: [run dev -- --port <port>]
    (with [--host 127.0.0.1 --strictPort] for Vite) and, for a project
    that lists next, [run dev] alone after it.  Each strategy is
    spawned with the project root as working directory and the process
    environment extended with PORT; [http://127.0.0.1:<port>] is then
    probed with the default budget; the launch returns that child and
    port exactly when the probe answers [true], and when it answers
    [false] the child is sent SIGTERM, and 300 ms pass, before the next
    spawn.  A launch that finds no port throws the allocator's error,
    and one that has used up its attempts throws "Failed to start dev
    server". *)
Theorem launch_attempts_spec (E : Env) (cwd : string) (maxRetry : nat) (w : World) :
  exists r w' evs,
    spawnDevServerWithRetry E cwd maxRetry w = (r, w') /\
    attempts_run E cwd (depends_on E cwd w "vite") (depends_on E cwd w "next")
      maxRetry w r w' /\
    trace w' = rev evs ++ trace w /\
    attempts_trace E cwd (depends_on E cwd w "vite") (depends_on E cwd w "next")
      maxRetry r evs /\
    (forall v x port, map args (tries E v x port) = plan v x port) /\
    (forall v x port, length (tries E v x port) = if x then 2%nat else 1%nat) /\
    (forall v x port t, t ∈ tries E v x port ->
       env t = Some (<["PORT" := String_ port]> (process_env E))).
Proof.
  unfold spawnDevServerWithRetry, bind at 1. rewrite detect_spec. cbn [fst snd].
  destruct (attempts_follow_run E cwd (depends_on E cwd w "vite")
              (depends_on E cwd w "next") maxRetry w) as (r & w' & Heq & Hrun).
  destruct (attempts_follow_trace E cwd (depends_on E cwd w "vite")
              (depends_on E cwd w "next") maxRetry w) as (r1 & w1 & evs & Heq1 & Htr & Hat).
  rewrite Heq in Heq1. injection Heq1 as <- <-.
  exists r, w', evs.
  split; [exact Heq|]. split; [exact Hrun|]. split; [exact Htr|]. split; [exact Hat|].
  split; [|split].
  - intros v x port. destruct v, x; reflexivity.
  - intros v x port. apply tries_length.
  - intros v x port t. apply tries_env.
Qed.

Lemma launch_attempts_spec_witness :
  exists r w' evs,
    spawnDevServerWithRetry E_next_down "/srv/app" 1 w0 = (r, w') /\
    attempts_run E_next_down "/srv/app" (depends_on E_next_down "/srv/app" w0 "vite")
      (depends_on E_next_down "/srv/app" w0 "next") 1 w0 r w' /\
    trace w' = rev evs ++ trace w0 /\
    attempts_trace E_next_down "/srv/app" (depends_on E_next_down "/srv/app" w0 "vite")
      (depends_on E_next_down "/srv/app" w0 "next") 1 r evs /\
    (forall v x port, map args (tries E_next_down v x port) = plan v x port) /\
    (forall v x port, length (tries E_next_down v x port) = if x then 2%nat else 1%nat) /\
    (forall v x port t, t ∈ tries E_next_down v x port ->
       env t = Some (<["PORT" := String_ port]> (process_env E_next_down))).
Proof. exact (launch_attempts_spec E_next_down "/srv/app" 1 w0). Defined.

(** C2 (as stated, refuted): the child announces port 5101 on its
    output while the requested port 5100 answers; the launcher returns
    5100. *)
Lemma logged_port_is_not_read :
  fst (spawnDevServerWithRetry E_shifted "/srv/app" 4 w0) = Ok (mkChild (Some 4242), 5100) /\
  child_logged_port E_shifted
    (snd (spawnDevServerWithRetry E_shifted "/srv/app" 4 w0)) 4242 = Some 5101.
Proof. vm_compute. split; reflexivity. Qed.

(** C2 (amended): the launcher never reads what a child writes: every
    child is spawned with inherited stdio, and the outcome of a launch
    is the same whatever the children announce.  When a launch
    succeeds, the returned port is the one allocated for the last
    attempt: it was handed to the returned child as PORT, and the probe
    that declared success asked [http://127.0.0.1:<that port>]. *)
Theorem returned_port_is_requested (E : Env) (cwd : string) (maxRetry : nat)
    (w w' : World) (child : ChildProcess) (port : Z)
    (H : spawnDevServerWithRetry E cwd maxRetry w = (Ok (child, port), w')) :
  exists evs pre t probes,
    trace w' = rev evs ++ trace w /\
    evs = pre ++ spawn_event E cwd t child :: probes /\
    In (EvClose port) pre /\
    env t = Some (<["PORT" := String_ port]> (process_env E)) /\
    Forall (launch_probe E port) probes /\
    Forall spawn_inherits evs /\
    forall f, spawnDevServerWithRetry (with_logged_port f E) cwd maxRetry w
              = (Ok (child, port), w').
Proof.
  destruct (launch_follows_trace E cwd maxRetry w) as (r & w1 & evs & v & x & Heq & Htr & Hat).
  rewrite H in Heq. injection Heq as <- <-.
  destruct (attempts_trace_ok E cwd v x maxRetry _ evs Hat child port eq_refl)
    as (pre & t & probes & Hevs & Hclose & Hin & Hp).
  exists evs, pre, t, probes.
  split; [exact Htr|]. split; [exact Hevs|]. split; [exact Hclose|].
  split; [eapply tries_env, Hin|]. split; [exact Hp|].
  split; [eapply attempts_trace_inherits, Hat|].
  intros f. rewrite launch_ignores_output. exact H.
Qed.

Lemma returned_port_is_requested_witness :
  exists evs pre t probes,
    trace (snd (spawnDevServerWithRetry E_up "/srv/app" 4 w0)) = rev evs ++ trace w0 /\
    evs = pre ++ spawn_event E_up "/srv/app" t (mkChild (Some 4242)) :: probes /\
    In (EvClose 5100) pre /\
    env t = Some (<["PORT" := String_ 5100]> (process_env E_up)) /\
    Forall (launch_probe E_up 5100) probes /\
    Forall spawn_inherits evs /\
    forall f, spawnDevServerWithRetry (with_logged_port f E_up) "/srv/app" 4 w0
              = (Ok (mkChild (Some 4242), 5100),
                 snd (spawnDevServerWithRetry E_up "/srv/app" 4 w0)).
Proof.
  apply (returned_port_is_requested E_up "/srv/app" 4 w0
           (snd (spawnDevServerWithRetry E_up "/srv/app" 4 w0))
           (mkChild (Some 4242)) 5100).
  vm_compute. reflexivity.
Defined.

End LauncherFacts.

(** * Properties of the stores: sweep and stop *)

Module RegistryFacts.
Import Os OsFacts Registry ReaperSpec RunSpec Scenario.

Section Facts.
Variable E : Env.

Lemma remove_all_trace {V} (path : V -> string) (l : list (string * V)) (w : World) :
  let w' := foldr (fun kv w => snd (try_ignore (fs_remove E (path kv.2)) w)) w l in
  now w' = now w /\ trace w' = map (fun kv => EvRemove (path kv.2)) l ++ trace w.
Proof.
  induction l as [|kv l IH]; cbn; [split; reflexivity|].
  rewrite remove_ignored. cbn. destruct IH as [Hn Ht]. split; [exact Hn|].
  rewrite Ht. reflexivity.
Qed.

Lemma swept_mono {V} (ts : V -> Z) (path : V -> string) (now_ : Z)
    (m m' : gmap string V) (new new' : list event) :
  (forall e, In e new -> In e new') ->
  swept ts path now_ m m' new -> swept ts path now_ m m' new'.
Proof.
  intros Hsub H k. specialize (H k). destruct (m !! k) as [v|]; [|exact H].
  destruct (decide (expired now_ (ts v))); [|exact H].
  destruct H as [Hnone Hin]. split; [exact Hnone | apply Hsub, Hin].
Qed.

(** One store loop: the entries that are not expired stay as they
    are, the expired ones are gone and their path has been removed;
    nothing but removals is issued. *)
Lemma sweep_store_spec {V} (ts : V -> Z) (path : V -> string) (now_ : Z)
    (m : gmap string V) (w : World) :
  exists m' w' new, sweep_store E ts path now_ m w = (Ok m', w') /\
    now w' = now w /\ trace w' = new ++ trace w /\ Forall is_remove new /\
    swept ts path now_ m m' new.
Proof.
  unfold sweep_store.
  set (gone := filter (fun kv => expired now_ (ts kv.2)) m).
  destruct (remove_all_trace path (map_to_list gone) w) as [Hn Ht].
  eexists _, _, _. split; [reflexivity|]. split; [exact Hn|]. split; [exact Ht|].
  split.
  - apply Forall_forall. intros e He. apply list_elem_of_In in He.
    apply in_map_iff in He. destruct He as (kv & <- & _). exact I.
  - intros k. destruct (m !! k) as [v|] eqn:Hk.
    + destruct (decide (expired now_ (ts v))) as [He|Hne].
      * split.
        -- apply map_lookup_filter_None. right. intros v' Hv'. cbn.
           rewrite Hk in Hv'. injection Hv' as <-. tauto.
        -- apply in_map_iff. exists (k, v). split; [reflexivity|].
           apply list_elem_of_In, elem_of_map_to_list.
           apply map_lookup_filter_Some. split; assumption.
      * apply map_lookup_filter_Some. split; assumption.
    + apply map_lookup_filter_None. left. exact Hk.
Qed.

(** The events of one store loop are exactly the removals of the
    paths of its expired entries. *)
Lemma sweep_store_removes {V} (ts : V -> Z) (path : V -> string) (now_ : Z)
    (m : gmap string V) (w : World) :
  exists m' w' new, sweep_store E ts path now_ m w = (Ok m', w') /\
    trace w' = new ++ trace w /\
    forall e, In e new <->
      exists k v, m !! k = Some v /\ expired now_ (ts v) /\ e = EvRemove (path v).
Proof.
  unfold sweep_store.
  set (gone := filter (fun kv => expired now_ (ts kv.2)) m).
  destruct (remove_all_trace path (map_to_list gone) w) as [_ Ht].
  eexists _, _, _. split; [reflexivity|]. split; [exact Ht|].
  intros e. rewrite in_map_iff. split.
  - intros ([k v] & <- & Hin). apply list_elem_of_In, elem_of_map_to_list in Hin.
    apply map_lookup_filter_Some in Hin. destruct Hin as [Hk He].
    exists k, v. repeat split; assumption.
  - intros (k & v & Hk & He & ->). exists (k, v). split; [reflexivity|].
    apply list_elem_of_In, elem_of_map_to_list.
    apply map_lookup_filter_Some. split; assumption.
Qed.

(** The stop handler on a registered session. *)
Lemma delete_preview_found (i : string) (st : Stores) (sess : PreviewSession) (w : World) :
  previewSessions st !! i = Some sess ->
  delete_preview E i st w
  = (Ok (mkResponse 200 (Json true None),
         mkStores (migrationResults st) (planSessions st) (diagnoseSessions st)
                  (delete i (previewSessions st))),
     log (EvRemove (tempDir sess)) (log (EvKill (childPid sess)) w)).
Proof.
  intros H. unfold delete_preview. rewrite H. unfold bind.
  rewrite kill_ignored, remove_ignored. reflexivity.
Qed.

(** The stop handler on an id that is not registered. *)
Lemma delete_preview_missing (i : string) (st : Stores) (w : World) :
  previewSessions st !! i = None ->
  delete_preview E i st w
  = (Ok (mkResponse 404 (Json false (Some "Preview not found")), st), w).
Proof. intros H. unfold delete_preview. rewrite H. reflexivity. Qed.

End Facts.

(** C1 (as stated, refuted): a preview session a whole day old is still
    registered after a sweep, and the sweep has signalled no process and
    removed no directory. *)
Lemma sweep_keeps_old_preview :
  sweep E_idle st_one w_day = (Ok st_one, w_day) /\
  now w_day - startedAt s1 > CLEANUP_INTERVAL /\
  lookup_session "s1" st_one = Some s1.
Proof. vm_compute. repeat split. Qed.

(** C1 (amended): one run of the sweep leaves the preview sessions as
    they are, whatever their age, and signals no process: the events it
    issues are exactly the removals of the paths that are due, the zip
    of each migration result and the temp directory of each plan
    session and diagnose session older than [CLEANUP_INTERVAL], and
    those entries are the ones it evicts.  A preview session is torn
    down by the stop call alone, which sends SIGTERM to its process,
    evicts its entry and removes its temp directory, after which its id
    is not found. *)
Theorem sweep_spares_previews (E : Env) (st : Stores) (w : World) :
  (exists st' w' new,
     sweep E st w = (Ok st', w') /\
     trace w' = new ++ trace w /\ Forall is_remove new /\
     (forall e, In e new <-> exists p, e = EvRemove p /\ due_path st (now w) p) /\
     previewSessions st' = previewSessions st /\
     swept timestamp zipPath (now w) (migrationResults st) (migrationResults st') new /\
     swept plan_timestamp plan_tempDir (now w) (planSessions st) (planSessions st') new /\
     swept plan_timestamp plan_tempDir (now w)
           (diagnoseSessions st) (diagnoseSessions st') new) /\
  (forall i sess, previewSessions st !! i = Some sess ->
     exists st1 w1,
       delete_preview E i st w = (Ok (mkResponse 200 (Json true None), st1), w1) /\
       trace w1 = EvRemove (tempDir sess) :: EvKill (childPid sess) :: trace w /\
       lookup_session i st1 = None).
Proof.
  split.
  - unfold sweep, bind.
    destruct (sweep_store_spec E timestamp zipPath (now w) (migrationResults st) w)
      as (mr & w1 & new1 & Heq1 & _ & Ht1 & Hf1 & Hs1).
    destruct (sweep_store_removes E timestamp zipPath (now w) (migrationResults st) w)
      as (mr' & w1' & new1' & Heq1' & Ht1' & Hr1).
    rewrite Heq1 in Heq1'. injection Heq1' as <- <-.
    rewrite Ht1 in Ht1'. apply app_inv_tail in Ht1'. subst new1'. rewrite Heq1.
    destruct (sweep_store_spec E plan_timestamp plan_tempDir (now w) (planSessions st) w1)
      as (pl & w2 & new2 & Heq2 & _ & Ht2 & Hf2 & Hs2).
    destruct (sweep_store_removes E plan_timestamp plan_tempDir (now w) (planSessions st) w1)
      as (pl' & w2' & new2' & Heq2' & Ht2' & Hr2).
    rewrite Heq2 in Heq2'. injection Heq2' as <- <-.
    rewrite Ht2 in Ht2'. apply app_inv_tail in Ht2'. subst new2'. rewrite Heq2.
    destruct (sweep_store_spec E plan_timestamp plan_tempDir (now w) (diagnoseSessions st) w2)
      as (dg & w3 & new3 & Heq3 & _ & Ht3 & Hf3 & Hs3).
    destruct (sweep_store_removes E plan_timestamp plan_tempDir (now w)
                (diagnoseSessions st) w2) as (dg' & w3' & new3' & Heq3' & Ht3' & Hr3).
    rewrite Heq3 in Heq3'. injection Heq3' as <- <-.
    rewrite Ht3 in Ht3'. apply app_inv_tail in Ht3'. subst new3'. rewrite Heq3.
    exists (mkStores mr pl dg (previewSessions st)), w3, (new3 ++ new2 ++ new1).
    split; [reflexivity|]. split; [rewrite Ht3, Ht2, Ht1, <- !app_assoc; reflexivity|].
    split; [repeat (apply Forall_app; split); assumption|].
    split.
    { intros e. rewrite !in_app_iff, Hr1, Hr2, Hr3. unfold due_path. split.
      - intros [(k & v & Hk & He & ->) | [(k & v & Hk & He & ->) | (k & v & Hk & He & ->)]];
          eexists; (split; [reflexivity|]).
        + right. right. exists k, v. repeat split; assumption.
        + right. left. exists k, v. repeat split; assumption.
        + left. exists k, v. repeat split; assumption.
      - intros (p & -> & [(k & v & Hk & He & ->) | [(k & v & Hk & He & ->)
                                                   | (k & v & Hk & He & ->)]]).
        + right. right. exists k, v. repeat split; assumption.
        + right. left. exists k, v. repeat split; assumption.
        + left. exists k, v. repeat split; assumption. }
    split; [reflexivity|]. cbn [migrationResults planSessions diagnoseSessions].
    split; [|split].
    + eapply swept_mono, Hs1. intros e He. apply in_or_app; right. apply in_or_app; right.
      exact He.
    + eapply swept_mono, Hs2. intros e He. apply in_or_app; right. apply in_or_app; left.
      exact He.
    + eapply swept_mono, Hs3. intros e He. apply in_or_app; left. exact He.
  - intros i sess Hi. eexists _, _. split; [apply delete_preview_found, Hi|].
    split; [reflexivity|]. apply lookup_delete_eq.
Qed.

Lemma sweep_spares_previews_witness :
  (exists st' w' new,
     sweep E_idle Scenario2.st_result w_day = (Ok st', w') /\
     trace w' = new ++ trace w_day /\ Forall is_remove new /\
     (forall e, In e new <->
        exists p, e = EvRemove p /\ due_path Scenario2.st_result (now w_day) p) /\
     previewSessions st' = previewSessions Scenario2.st_result /\
     swept timestamp zipPath (now w_day)
           (migrationResults Scenario2.st_result) (migrationResults st') new /\
     swept plan_timestamp plan_tempDir (now w_day)
           (planSessions Scenario2.st_result) (planSessions st') new /\
     swept plan_timestamp plan_tempDir (now w_day)
           (diagnoseSessions Scenario2.st_result) (diagnoseSessions st') new) /\
  (exists st1 w1,
     delete_preview E_idle "s1" Scenario2.st_result w_day
       = (Ok (mkResponse 200 (Json true None), st1), w1) /\
     trace w1 = EvRemove (tempDir s1) :: EvKill (childPid s1) :: trace w_day /\
     lookup_session "s1" st1 = None).
Proof.
  split.
  - exact (proj1 (sweep_spares_previews E_idle Scenario2.st_result w_day)).
  - apply (proj2 (sweep_spares_previews E_idle Scenario2.st_result w_day) "s1" s1).
    reflexivity.
Defined.

(** C4: stopping a registered session answers ok after having sent
    SIGTERM to its process, evicted its entry and removed its temp
    directory; stopping the same id again answers 404 not-found and
    changes nothing; so does stopping an id that was never registered.
    No call throws. *)
Theorem stop_twice (E : Env) (st : Stores) (w : World) (i : string) :
  (forall sess, previewSessions st !! i = Some sess ->
     exists st1 w1,
       delete_preview E i st w = (Ok (mkResponse 200 (Json true None), st1), w1) /\
       trace w1 = EvRemove (tempDir sess) :: EvKill (childPid sess) :: trace w /\
       previewSessions st1 = delete i (previewSessions st) /\
       delete_preview E i st1 w1
       = (Ok (mkResponse 404 (Json false (Some "Preview not found")), st1), w1)) /\
  (previewSessions st !! i = None ->
     delete_preview E i st w
     = (Ok (mkResponse 404 (Json false (Some "Preview not found")), st), w)).
Proof.
  split.
  - intros sess Hi. eexists _, _. split; [apply delete_preview_found, Hi|].
    split; [reflexivity|]. split; [reflexivity|].
    apply delete_preview_missing. cbn. apply lookup_delete_eq.
  - apply delete_preview_missing.
Qed.

Lemma stop_twice_witness :
  (exists st1 w1,
     delete_preview E_idle "s1" st_one w0
       = (Ok (mkResponse 200 (Json true None), st1), w1) /\
     trace w1 = EvRemove (tempDir s1) :: EvKill (childPid s1) :: trace w0 /\
     previewSessions st1 = delete "s1" (previewSessions st_one) /\
     delete_preview E_idle "s1" st1 w1
     = (Ok (mkResponse 404 (Json false (Some "Preview not found")), st1), w1)) /\
  delete_preview E_idle "never" st_one w0
  = (Ok (mkResponse 404 (Json false (Some "Preview not found")), st_one), w0).
Proof.
  split.
  - apply (proj1 (stop_twice E_idle st_one w0 "s1") s1). reflexivity.
  - apply (proj2 (stop_twice E_idle st_one w0 "never")). reflexivity.
Defined.

(** C5 (as stated, refuted): stopping an id that is gone answers 404
    with [ok: false]. *)
Lemma stop_gone_is_not_ok :
  delete_preview E_idle "gone" st_empty w0
  = (Ok (mkResponse 404 (Json false (Some "Preview not found")), st_empty), w0).
Proof. reflexivity. Qed.

(** C5 (amended): the DELETE-session endpoint answers ok exactly when
    the id is registered at the time of the call; for an id that is
    gone (already stopped or never registered) it answers 404 with
    [ok: false] and the error "Preview not found", and leaves the
    stores and the world untouched. *)
Theorem stop_ok_iff_registered (E : Env) (st st' : Stores) (w w' : World) (i : string)
    (r : Response) (H : delete_preview E i st w = (Ok (r, st'), w')) :
  (r = mkResponse 200 (Json true None) <-> is_Some (previewSessions st !! i)) /\
  (r = mkResponse 404 (Json false (Some "Preview not found")) /\ st' = st /\ w' = w
   <-> previewSessions st !! i = None).
Proof.
  destruct (previewSessions st !! i) as [sess|] eqn:Hi.
  - rewrite (delete_preview_found E i st sess w Hi) in H. injection H as <- <- <-.
    split; split; try discriminate; eauto. intros [[=] _].
  - rewrite (delete_preview_missing E i st w Hi) in H. injection H as <- <- <-.
    split; split; try (intros [? [=]]); try discriminate; eauto.
Qed.

Lemma stop_ok_iff_registered_witness :
  (mkResponse 404 (Json false (Some "Preview not found")) = mkResponse 200 (Json true None)
   <-> is_Some (previewSessions st_empty !! "gone")) /\
  (mkResponse 404 (Json false (Some "Preview not found"))
     = mkResponse 404 (Json false (Some "Preview not found"))
   /\ st_empty = st_empty /\ w0 = w0
   <-> previewSessions st_empty !! "gone" = None).
Proof.
  apply (stop_ok_iff_registered E_idle st_empty st_empty w0 w0 "gone"). reflexivity.
Defined.

End RegistryFacts.

(** * Properties of the proxy middlewares *)

Module RouterFacts.
Import Registry Router RouterSpec Scenario.

Lemma to_lower_p (c : ascii) : to_lower c = "p"%char -> c = "p"%char \/ c = "P"%char.
Proof.
  destruct c as [[] [] [] [] [] [] [] []]; vm_compute; intros H;
    try discriminate H; auto.
Qed.

(** A path under the mount point is not one of the asset paths. *)
Lemma mount_not_asset (path : string) (seg : string) :
  mount_preview path = Some seg -> absAsset path = false.
Proof.
  unfold mount_preview.
  destruct (String.eqb (slower (stake 9 path)) "/preview/") eqn:Heq; [|discriminate].
  intros _. apply String.eqb_eq in Heq.
  destruct path as [|c0 [|c1 rest]]; try discriminate Heq.
  cbn in Heq. injection Heq as _ Hp _. apply to_lower_p in Hp.
  unfold absAsset. cbn [String.prefix].
  destruct (ascii_dec "/" c0); [|reflexivity].
  destruct Hp as [-> | ->]; reflexivity.
Qed.

Lemma prefix_split (p : string) : forall s,
  String.prefix p s = true -> s = p +:+ sdrop (String.length p) s.
Proof.
  induction p as [|a p IH]; intros s H.
  - reflexivity.
  - destruct s as [|b s]; [discriminate|]. cbn in H.
    destruct (ascii_dec a b) as [->|]; [|discriminate].
    change (String b s = String b (p +:+ sdrop (String.length p) s)).
    f_equal. apply IH, H.
Qed.

Lemma take_id_spec (n : nat) : forall s i,
  take_id n s = Some i ->
  String.length i = n /\ s = i +:+ sdrop n s /\
  Forall (fun c => is_id_char c = true) (String.list_ascii_of_string i).
Proof.
  induction n as [|n IH]; intros s i H; cbn in H.
  - injection H as <-. repeat split. constructor.
  - destruct s as [|c s]; [discriminate|].
    destruct (is_id_char c) eqn:Hc; [|discriminate].
    destruct (take_id n s) as [j|] eqn:Hj; [|discriminate].
    injection H as <-. destruct (IH s j Hj) as (Hlen & Hs & Hall).
    split; [cbn; f_equal; exact Hlen|].
    split; [change (String c s = String c (j +:+ sdrop n s)); f_equal; exact Hs|].
    constructor; assumption.
Qed.

Lemma match_here_names (s i : string) :
  match_here s = Some i -> names_session s i.
Proof.
  unfold match_here. destruct (String.prefix "/preview/" s) eqn:Hp; [|discriminate].
  intros H. apply prefix_split in Hp. apply take_id_spec in H.
  destruct H as (Hlen & Hs & Hall).
  exists "", (sdrop 36 (sdrop 9 s)). split; [|split; assumption].
  rewrite Hp at 1. cbn [String.length]. rewrite Hs at 1. reflexivity.
Qed.

(** The capture of the Referer expression is a 36-character id that
    the string contains after [/preview/]. *)
Lemma preview_match_names (s : string) : forall i,
  preview_match s = Some i -> names_session s i.
Proof.
  induction s as [|c s IH]; intros i H.
  - cbn in H. discriminate.
  - cbn [preview_match] in H.
    destruct (match_here (String c s)) as [j|] eqn:Hj.
    + injection H as <-. apply match_here_names, Hj.
    + destruct (IH i H) as (pre & post & -> & Hlen & Hall).
      exists (String c pre), post. repeat split; assumption.
Qed.

Section Facts.
Variable decodeURIComponent : string -> option string.
Variable st : Stores.

Lemma referer_mw_non_asset (req : Request) :
  absAsset (path req) = false -> referer_mw st req = Next.
Proof. intros H. unfold referer_mw. rewrite H. destruct (referer_id req); reflexivity. Qed.

Lemma referer_mw_no_referer (req : Request) :
  referer_id req = None -> referer_mw st req = Next.
Proof. intros H. unfold referer_mw. rewrite H. reflexivity. Qed.

Lemma referer_mw_unregistered (req : Request) (i : string) :
  absAsset (path req) = true -> referer_id req = Some i ->
  previewSessions st !! i = None ->
  referer_mw st req = Send 404 "Preview session not found".
Proof. intros Ha Hi Hs. unfold referer_mw. rewrite Hi, Ha, Hs. reflexivity. Qed.

Lemma referer_mw_registered (req : Request) (i : string) (sess : PreviewSession) :
  absAsset (path req) = true -> referer_id req = Some i ->
  previewSessions st !! i = Some sess ->
  referer_mw st req = Forward (target_of sess) (path req).
Proof. intros Ha Hi Hs. unfold referer_mw. rewrite Hi, Ha, Hs. reflexivity. Qed.

Lemma referer_id_names (req : Request) (i : string) :
  referer_id req = Some i -> exists ref, ref_of req = HString ref /\ names_session ref i.
Proof.
  unfold referer_id. destruct (ref_of req) as [ref|l]; [|discriminate].
  intros H. exists ref. split; [reflexivity | apply preview_match_names, H].
Qed.

End Facts.

(** C9: a request under [/preview/<id>] whose id is not registered is
    answered 404 by the router at once, and so is an asset request
    whose Referer names a session that is not registered; neither is
    forwarded, passed on, or left without an answer. *)
Theorem unknown_session_not_found (decodeURIComponent : string -> option string)
    (st : Stores) (req : Request) :
  (forall seg i, mount_preview (path req) = Some seg ->
     decodeURIComponent seg = Some i -> previewSessions st !! i = None ->
     proxy_router decodeURIComponent st req = Send 404 "Preview not found or stopped") /\
  (forall i, absAsset (path req) = true -> referer_id req = Some i ->
     previewSessions st !! i = None ->
     proxy_router decodeURIComponent st req = Send 404 "Preview session not found").
Proof.
  split.
  - intros seg i Hm Hd Hs. unfold proxy_router.
    rewrite (referer_mw_non_asset st req (mount_not_asset _ _ Hm)).
    unfold preview_mw. rewrite Hm, Hd, Hs. reflexivity.
  - intros i Ha Hi Hs. unfold proxy_router.
    rewrite (referer_mw_unregistered st req i Ha Hi Hs). reflexivity.
Qed.

Lemma unknown_session_not_found_witness :
  proxy_router Some st_one req_prefixed = Send 404 "Preview not found or stopped" /\
  proxy_router Some st_one req_asset = Send 404 "Preview session not found".
Proof.
  split.
  - apply (proj1 (unknown_session_not_found Some st_one req_prefixed) ghost ghost);
      reflexivity.
  - apply (proj2 (unknown_session_not_found Some st_one req_asset) ghost); reflexivity.
Defined.

(** C10 (as stated, refuted): an asset request whose Referer names no
    registered session does not fall through to normal routing: it is
    answered 404. *)
Lemma referer_of_ghost_is_answered :
  absAsset (path req_asset) = true /\
  referer_id req_asset = Some ghost /\
  previewSessions st_empty !! ghost = None /\
  referer_mw st_empty req_asset = Send 404 "Preview session not found" /\
  referer_mw st_empty req_asset <> Next.
Proof. repeat split. discriminate. Qed.

(** C10 (amended): the Referer-based fallback forwards a request only
    when its path starts with one of [/@vite], [/src], [/node_modules],
    [/__vite_ping] and its Referer contains [/preview/<36-character id>]
    with that id registered; it then forwards the path as it is to that
    session's port.  A request whose path is outside that set, or whose
    Referer carries no such id, falls through to normal routing, and
    when it is not under the [/preview/<id>] mount either it is passed
    on by both middlewares.  A request whose path is in the set and
    whose Referer names an id that is not registered is answered 404. *)
Theorem referer_fallback_spec (st : Stores) (req : Request) :
  (forall target p, referer_mw st req = Forward target p ->
     absAsset (path req) = true /\ p = path req /\
     exists i sess ref, ref_of req = HString ref /\ names_session ref i /\
       previewSessions st !! i = Some sess /\ target = target_of sess) /\
  (forall i sess, absAsset (path req) = true -> referer_id req = Some i ->
     previewSessions st !! i = Some sess ->
     referer_mw st req = Forward (target_of sess) (path req)) /\
  (absAsset (path req) = false -> referer_mw st req = Next) /\
  (referer_id req = None -> referer_mw st req = Next) /\
  (mount_preview (path req) = None ->
     absAsset (path req) = false \/ referer_id req = None ->
     forall decodeURIComponent, proxy_router decodeURIComponent st req = Next) /\
  (forall i, absAsset (path req) = true -> referer_id req = Some i ->
     previewSessions st !! i = None ->
     referer_mw st req = Send 404 "Preview session not found").
Proof.
  split; [|split; [|split; [|split; [|split]]]].
  - intros target p H. unfold referer_mw in H.
    destruct (referer_id req) as [i|] eqn:Hi; [|discriminate].
    destruct (absAsset (path req)) eqn:Ha; [|discriminate].
    destruct (previewSessions st !! i) as [sess|] eqn:Hs; [|discriminate].
    injection H as <- <-. split; [reflexivity|]. split; [reflexivity|].
    destruct (referer_id_names req i Hi) as (ref & Href & Hnames).
    exists i, sess, ref. repeat split; assumption.
  - intros i sess. apply referer_mw_registered.
  - apply referer_mw_non_asset.
  - apply referer_mw_no_referer.
  - intros Hm Hor decode. unfold proxy_router.
    assert (referer_mw st req = Next) as ->.
    { destruct Hor; [apply referer_mw_non_asset | apply referer_mw_no_referer]; assumption. }
    unfold preview_mw. rewrite Hm. reflexivity.
  - intros i. apply referer_mw_unregistered.
Qed.

Lemma referer_fallback_spec_witness :
  referer_mw st_empty req_asset = Send 404 "Preview session not found" /\
  referer_mw st_empty req_prefixed = Next.
Proof.
  split.
  - apply (proj2 (proj2 (proj2 (proj2 (proj2 (referer_fallback_spec st_empty req_asset)))))
             ghost); reflexivity.
  - apply (proj1 (proj2 (proj2 (referer_fallback_spec st_empty req_prefixed)))).
    reflexivity.
Defined.

End RouterFacts.

(** * Properties of the project-root search *)

Module ProjectRootFacts.
Import ProjectRoot ProjectRootSpec Scenario2.

Section Facts.
Variable join : string -> string -> string.
Variable access : string -> bool.
Variable readdir : string -> option (list Dirent).

Lemma subdirs_In (dir : string) (entries : list Dirent) (x : string) :
  In x (subdirs join dir entries) ->
  exists e, In e entries /\ enterable e /\ x = join dir (name e).
Proof.
  unfold subdirs. intros Hin. apply in_map_iff in Hin.
  destruct Hin as (e & <- & He). apply filter_In in He. destruct He as [He Hf].
  apply andb_true_iff in Hf. destruct Hf as [Hd Hn].
  exists e. split; [exact He|]. split; [|reflexivity].
  split; [exact Hd|]. intros Heq. rewrite Heq in Hn. discriminate.
Qed.

Lemma scan_subs_found (dirs : list string) (c : string) :
  scan_subs join access readdir dirs = Ok (Some c) ->
  exists d sub, In d dirs /\ readdir d = Some sub /\
    In c (subdirs join d sub) /\ hasPkg join access c = true.
Proof.
  induction dirs as [|d ds IH]; cbn [scan_subs]; [discriminate|].
  unfold scan_sub at 1. destruct (readdir d) as [sub|] eqn:Hr; [|discriminate].
  destruct (find (hasPkg join access) (subdirs join d sub)) as [c'|] eqn:Hf.
  - intros [= <-]. apply find_some in Hf. destruct Hf as [Hin Hp].
    exists d, sub. repeat split; try assumption. left. reflexivity.
  - intros Hs. destruct (IH Hs) as (d' & sub' & Hin & Hr' & Hc & Hp).
    exists d', sub'. repeat split; try assumption. right. exact Hin.
Qed.

(** The block for a single wrapping folder is redundant. *)
Lemma single_folder_block (extractedDir d0 : string) :
  (if hasPkg join access d0 then Ok d0 else
   match scan_sub join access readdir d0 with
   | Ok (Some c) => Ok c
   | Ok None => closing_loops join access readdir extractedDir [d0]
   | Throw e => Throw e
   | Pending => Pending
   end)
  = closing_loops join access readdir extractedDir [d0].
Proof.
  unfold closing_loops. cbn [find scan_subs].
  destruct (hasPkg join access d0); [reflexivity|].
  destruct (scan_sub join access readdir d0) as [[c|]|e|]; reflexivity.
Qed.

(** What the closing loops return is the root, or a child or grandchild
    with a package.json. *)
Lemma closing_loops_sound (dir r : string) (entries : list Dirent) :
  readdir dir = Some entries ->
  closing_loops join access readdir dir (subdirs join dir entries) = Ok r ->
  r = dir \/ (hasPkg join access r = true /\ within_two_levels join readdir dir r).
Proof.
  intros Hr H. unfold closing_loops in H.
  destruct (find (hasPkg join access) (subdirs join dir entries)) as [d|] eqn:Hf.
  - injection H as <-. apply find_some in Hf. destruct Hf as [Hin Hp].
    apply subdirs_In in Hin. destruct Hin as (e & He & Hen & ->).
    right. split; [exact Hp|]. exists entries, e.
    split; [exact Hr|]. split; [exact He|]. split; [exact Hen|]. left. reflexivity.
  - destruct (scan_subs join access readdir (subdirs join dir entries))
      as [[c|]|e|] eqn:Hs; try discriminate.
    + injection H as <-. apply scan_subs_found in Hs.
      destruct Hs as (d & sub & Hd & Hrd & Hc & Hp).
      apply subdirs_In in Hd. destruct Hd as (e & He & Hen & ->).
      apply subdirs_In in Hc. destruct Hc as (s0 & Hs0 & Hsn & ->).
      right. split; [exact Hp|]. exists entries, e.
      split; [exact Hr|]. split; [exact He|]. split; [exact Hen|].
      right. exists sub, s0.
      split; [exact Hrd|]. split; [exact Hs0|]. split; [exact Hsn | reflexivity].
    + left. congruence.
Qed.

End Facts.

(** X1: the special case for an archive with a single wrapping folder
    never changes the answer of [resolveProjectRoot]: the result is the
    extracted directory when it has a package.json; otherwise the first
    child directory (skipping [__MACOSX]) that has one; otherwise the
    first grandchild directory that has one; otherwise the extracted
    directory again; and a directory that cannot be read makes the
    search throw. *)
Theorem resolveProjectRoot_plain (join : string -> string -> string)
    (access : string -> bool) (readdir : string -> option (list Dirent))
    (extractedDir : string) :
  resolveProjectRoot join access readdir extractedDir
  = resolve_plain join access readdir extractedDir.
Proof.
  unfold resolveProjectRoot, resolve_plain.
  destruct (hasPkg join access extractedDir); [reflexivity|].
  destruct (readdir extractedDir) as [entries|]; [|reflexivity].
  destruct (subdirs join extractedDir entries) as [|d0 [|d1 ds]]; try reflexivity.
  apply single_folder_block.
Qed.

(** X2: whatever [resolveProjectRoot] returns other than the extracted
    directory itself has a package.json and is a child or a grandchild
    of the extracted directory, reached through directories only and
    never through (or into) a [__MACOSX] folder. *)
Theorem resolveProjectRoot_sound (join : string -> string -> string)
    (access : string -> bool) (readdir : string -> option (list Dirent))
    (extractedDir r : string)
    (H : resolveProjectRoot join access readdir extractedDir = Ok r) :
  r = extractedDir \/
  (hasPkg join access r = true /\ within_two_levels join readdir extractedDir r).
Proof.
  unfold resolveProjectRoot in H.
  destruct (hasPkg join access extractedDir); [left; congruence|].
  destruct (readdir extractedDir) as [entries|] eqn:Hr; [|discriminate].
  destruct (subdirs join extractedDir entries) as [|d0 [|d1 ds]] eqn:Hd.
  - rewrite <- Hd in H. eapply closing_loops_sound; eassumption.
  - rewrite single_folder_block, <- Hd in H. eapply closing_loops_sound; eassumption.
  - rewrite <- Hd in H. eapply closing_loops_sound; eassumption.
Qed.

Lemma resolveProjectRoot_sound_witness :
  "temp/preview/u1/app/web" = "temp/preview/u1" \/
  (hasPkg plain_join wrapped_access "temp/preview/u1/app/web" = true /\
   within_two_levels plain_join wrapped_readdir "temp/preview/u1" "temp/preview/u1/app/web").
Proof.
  apply (resolveProjectRoot_sound plain_join wrapped_access wrapped_readdir
           "temp/preview/u1" "temp/preview/u1/app/web").
  reflexivity.
Defined.

End ProjectRootFacts.

(** * More on the port allocator *)

Module AllocatorMore.
Import Allocator ExtraSpec Scenario.

Section Facts.
Variable E : Env.

Lemma scan_least (n : nat) : forall (p : Z) (w : World),
  stable_ports E -> 0 <= p -> (n = 0%nat \/ p + Z.of_nat n - 1 <= 65535) ->
  match fst (scan E n p w) with
  | Ok q =>
      p <= q < p + Z.of_nat n /\ listen_fails E w q = false /\
      forall k, p <= k < q -> listen_fails E w k = true
  | Throw e =>
      e = Error "No free port found" /\
      forall k, p <= k < p + Z.of_nat n -> listen_fails E w k = true
  | Pending => False
  end.
Proof.
  induction n as [|n IH]; intros p w Hst Hp Hhi.
  - cbn. split; [reflexivity|]. intros k Hk. lia.
  - cbn [scan]. unfold bind, tryPort.
    replace ((0 <=? p) && (p <=? 65535)) with true by lia.
    destruct (listen_fails E w p) eqn:Hbusy.
    + specialize (IH (p + 1) (log (EvListen p false) w) Hst).
      destruct (scan E n (p + 1) (log (EvListen p false) w)) as [[q|e|] w']; cbn [fst] in *.
      * destruct IH as (Hq & Hfree & Hbelow); [lia | lia |].
        split; [lia|].
        split; [rewrite (Hst w (log (EvListen p false) w) q); exact Hfree|].
        intros k Hk. destruct (decide (k = p)) as [->|Hne]; [exact Hbusy|].
        rewrite (Hst w (log (EvListen p false) w) k). apply Hbelow. lia.
      * destruct IH as (He & Hall); [lia | lia |]. split; [exact He|].
        intros k Hk. destruct (decide (k = p)) as [->|Hne]; [exact Hbusy|].
        rewrite (Hst w (log (EvListen p false) w) k). apply Hall. lia.
      * apply IH; lia.
    + cbn. split; [lia|]. split; [exact Hbusy|]. intros k Hk. lia.
Qed.

End Facts.

(** X3: while the table of bound ports does not change, [getFreePort]
    returns the lowest port of the range that binds, every port below
    it being busy; it throws exactly when every port of the range is
    busy (an empty range included). *)
Theorem getFreePort_least_free (E : Env) (start end_ : Z) (w : World)
    (Hst : stable_ports E) (Hlo : 0 <= start) (Hhi : end_ <= 65535) :
  match fst (getFreePort E start end_ w) with
  | Ok p =>
      start <= p <= end_ /\ listen_fails E w p = false /\
      forall k, start <= k < p -> listen_fails E w k = true
  | Throw e =>
      e = Error "No free port found" /\
      forall k, start <= k <= end_ -> listen_fails E w k = true
  | Pending => False
  end.
Proof.
  unfold getFreePort.
  pose proof (scan_least E (Z.to_nat (end_ - start + 1)) start w Hst Hlo) as H.
  destruct (fst (scan E (Z.to_nat (end_ - start + 1)) start w)) as [q|e|].
  - destruct H as (Hq & Hfree & Hbelow); [lia|]. split; [lia|]. split; assumption.
  - destruct H as (He & Hall); [lia|]. split; [exact He|].
    intros k Hk. apply Hall. lia.
  - apply H. lia.
Qed.

Lemma getFreePort_least_free_witness :
  match fst (getFreePort E_three_taken 5100 5199 w0) with
  | Ok p =>
      5100 <= p <= 5199 /\ listen_fails E_three_taken w0 p = false /\
      forall k, 5100 <= k < p -> listen_fails E_three_taken w0 k = true
  | Throw e =>
      e = Error "No free port found" /\
      forall k, 5100 <= k <= 5199 -> listen_fails E_three_taken w0 k = true
  | Pending => False
  end.
Proof.
  apply (getFreePort_least_free E_three_taken 5100 5199 w0); [|lia|lia].
  intros u v q. reflexivity.
Defined.

End AllocatorMore.

(** * More on the health prober *)

Module ProberMore.
Import Os Prober ProbeSpec ExtraSpec ProberFacts Scenario.

Section Facts.
Variable E : Env.

(** A tick that returns true has seen a candidate path answer ok. *)
Lemma probe_paths_true (base : string) (i : Z) (ps : list string) : forall w w',
  probe_paths E base i ps w = (Ok true, w') ->
  exists u p url m, p ∈ ps /\ url_resolve E p base = Some url /\
    answers_ok (fetch E u url m) (request_timeout i) = true /\
    now w <= now u <= now w'.
Proof.
  induction ps as [|p ps IH]; intros w w' H.
  - discriminate.
  - cbn [probe_paths] in H. destruct (url_resolve E p base) as [url|] eqn:Hurl.
    + unfold bind in H.
      destruct (ping_spec E url HEAD (Z.min 2000 i) w) as (r1 & w1 & Heq1 & Hok1 & _ & Hn1).
      rewrite Heq1 in H. destruct (ok r1) eqn:Hr1.
      { injection H as <-. exists w, p, url, HEAD.
        split; [left|]. split; [exact Hurl|]. split; [|lia].
        unfold request_timeout. congruence. }
      destruct (ping_spec E url GET (Z.min 2000 i) w1) as (r2 & w2 & Heq2 & Hok2 & _ & Hn2).
      rewrite Heq2 in H. destruct (ok r2) eqn:Hr2.
      { injection H as <-. exists w1, p, url, GET.
        split; [left|]. split; [exact Hurl|]. split; [|lia].
        unfold request_timeout. congruence. }
      apply IH in H. destruct H as (u & q & url' & m & Hq & Hu & Ha & Hn).
      exists u, q, url', m. split; [right; exact Hq|]. repeat split; try assumption; lia.
    + apply IH in H. destruct H as (u & q & url' & m & Hq & Hu & Ha & Hn).
      exists u, q, url', m. split; [right; exact Hq|]. repeat split; try assumption; lia.
Qed.

Lemma poll_true (base : string) (t0 total i : Z) (fuel : nat) : forall w w',
  poll E fuel base t0 total i w = (Ok true, w') ->
  exists u p url m, p ∈ paths /\ url_resolve E p base = Some url /\
    answers_ok (fetch E u url m) (request_timeout i) = true /\
    now w <= now u <= now w'.
Proof.
  induction fuel as [|fuel IH]; intros w w' H; cbn [poll] in H.
  - destruct (now w - t0 <? total); discriminate.
  - destruct (now w - t0 <? total); [|discriminate].
    unfold bind in H.
    destruct (probe_paths_total E base i paths w) as (b & w1 & new & Heq & _ & _ & Hn1).
    rewrite Heq in H. destruct b.
    + injection H as <-. apply probe_paths_true, Heq.
    + destruct (sleep_spec E i w1) as (w2 & Hs & _ & Hn2). rewrite Hs in H.
      apply IH in H. destruct H as (u & p & url & m & Hp & Hu & Ha & Hn).
      exists u, p, url, m. repeat split; try assumption; lia.
Qed.

(** With punctual timers the clock never runs more than one tick and
    one sleep past the budget. *)
Lemma poll_deadline (base : string) (t0 total i : Z) (fuel : nat) : forall w r w',
  punctual E ->
  poll E fuel base t0 total i w = (r, w') ->
  now w' - t0 <= Z.max (now w - t0) (total - 1 + 10 * request_timeout i + timer_delay i).
Proof.
  pose proof (timer_delay_pos i) as Hd.
  pose proof (timer_delay_pos (Z.min 2000 i)) as Hrt. fold (request_timeout i) in Hrt.
  induction fuel as [|fuel IH]; intros w r w' Hp H; cbn [poll] in H.
  - destruct (now w - t0 <? total); injection H as <- <-; lia.
  - destruct (now w - t0 <? total) eqn:Hlt; [|injection H as <- <-; lia].
    unfold bind in H.
    destruct (probe_paths_total E base i paths w) as (b & w1 & new & Heq & _ & _ & Hn1).
    cbn [length paths] in Hn1. rewrite Heq in H. destruct b.
    + injection H as <- <-. lia.
    + unfold sleep in H. rewrite (Hp w1) in H. cbn in H.
      apply IH in H; [|exact Hp]. cbn in H. lia.
Qed.

End Facts.

(** X4: [waitForOkAny] never reports a server healthy on its own
    account: a [true] means that, at some moment of the probe, a
    request for one of the five candidate paths under [base] was
    answered with a 2xx status before the request timeout. *)
Theorem waitForOkAny_true_sound (E : Env) (base : string) (totalMs intervalMs : Z)
    (w w' : World)
    (H : waitForOkAny E base totalMs intervalMs w = (Ok true, w')) :
  exists u p url m, p ∈ paths /\ url_resolve E p base = Some url /\
    answers_ok (fetch E u url m) (request_timeout intervalMs) = true /\
    now w <= now u <= now w'.
Proof.
  unfold waitForOkAny in H. eapply poll_true. exact H.
Qed.

Lemma waitForOkAny_true_sound_witness :
  exists u p url m, p ∈ paths /\
    url_resolve E_up p "http://127.0.0.1:5100" = Some url /\
    answers_ok (fetch E_up u url m) (request_timeout 600) = true /\
    now w0 <= now u
           <= now (snd (waitForOkAny E_up "http://127.0.0.1:5100" 20000 600 w0)).
Proof.
  apply (waitForOkAny_true_sound E_up "http://127.0.0.1:5100" 20000 600 w0).
  vm_compute. reflexivity.
Defined.

(** X5: with punctual timers, a probe with a positive budget is over
    less than one tick (ten request timeouts) and one sleep after its
    budget; with a budget of zero or less it returns [false] at once
    without asking anything. *)
Theorem waitForOkAny_deadline (E : Env) (base : string) (totalMs intervalMs : Z)
    (w : World) (Hp : punctual E) :
  (0 < totalMs ->
   now (snd (waitForOkAny E base totalMs intervalMs w)) - now w
   < totalMs + 10 * request_timeout intervalMs + timer_delay intervalMs) /\
  (totalMs <= 0 -> waitForOkAny E base totalMs intervalMs w = (Ok false, w)).
Proof.
  split.
  - intros Hpos. unfold waitForOkAny.
    destruct (poll E (Z.to_nat totalMs) base (now w) totalMs intervalMs w) as [r w'] eqn:Heq.
    pose proof (poll_deadline E base (now w) totalMs intervalMs _ w r w' Hp Heq) as Hb.
    pose proof (timer_delay_pos intervalMs).
    pose proof (timer_delay_pos (Z.min 2000 intervalMs)) as Hrt.
    fold (request_timeout intervalMs) in Hrt. cbn [snd]. lia.
  - intros Hneg. unfold waitForOkAny.
    replace (Z.to_nat totalMs) with 0%nat by lia. cbn [poll].
    replace (now w - now w <? totalMs) with false by lia. reflexivity.
Qed.

Lemma waitForOkAny_deadline_witness :
  (0 < 20000 ->
   now (snd (waitForOkAny E_500 "http://127.0.0.1:5100" 20000 600 w0)) - now w0
   < 20000 + 10 * request_timeout 600 + timer_delay 600) /\
  (20000 <= 0 ->
   waitForOkAny E_500 "http://127.0.0.1:5100" 20000 600 w0 = (Ok false, w0)).
Proof.
  apply (waitForOkAny_deadline E_500 "http://127.0.0.1:5100" 20000 600 w0).
  intros w. reflexivity.
Defined.

End ProberMore.

(** * More on the launcher *)

Module LauncherMore.
Import Os OsFacts Allocator Prober Launcher ProbeSpec LaunchSpec ExtraSpec RunSpec Scenario.
Import ProberFacts LauncherFacts.

Lemma count_app (f : event -> bool) (a b : list event) :
  length (List.filter f (a ++ b))
  = (length (List.filter f a) + length (List.filter f b))%nat.
Proof. rewrite List.filter_app, length_app. reflexivity. Qed.

Lemma count_rev (f : event -> bool) (l : list event) :
  length (List.filter f (rev l)) = length (List.filter f l).
Proof.
  induction l as [|e l IH]; [reflexivity|].
  cbn [rev]. rewrite count_app, IH. cbn [List.filter].
  destruct (f e); cbn [length]; lia.
Qed.

Lemma count_none (f : event -> bool) (l : list event) :
  Forall (fun e => f e = false) l -> length (List.filter f l) = 0%nat.
Proof.
  induction 1 as [|e l He _ IH]; [reflexivity|].
  cbn [List.filter]. rewrite He. exact IH.
Qed.

Section Facts.
Variable E : Env.
Variable cwd : string.

Lemma probes_count (port : Z) (f : event -> bool) (probes : list event) :
  (forall url m t, f (EvFetch url m t) = false) -> (forall ms, f (EvSleep ms) = false) ->
  Forall (launch_probe E port) probes -> length (List.filter f probes) = 0%nat.
Proof.
  intros Hf Hs Hp. apply count_none. eapply Forall_impl; [exact Hp|].
  intros e He. destruct e; cbn in He; try contradiction; auto.
Qed.

Lemma failed_count (f : event -> bool) (n : nat) : forall p,
  (forall q b, f (EvListen q b) = false) -> length (List.filter f (failed n p)) = 0%nat.
Proof.
  induction n as [|n IH]; intros p Hf; [reflexivity|].
  cbn [failed]. rewrite count_app, IH by exact Hf. cbn. rewrite Hf. reflexivity.
Qed.

Lemma alloc_counts (port : Z) :
  count_allocs (alloc_events port) = 1%nat /\
  count_spawns (alloc_events port) = 0%nat /\
  count_kills (alloc_events port) = 0%nat.
Proof.
  unfold count_allocs, count_spawns, count_kills, alloc_events.
  rewrite !count_rev. cbn [List.filter length].
  rewrite !failed_count by reflexivity. repeat split.
Qed.

(** The children of one inner loop: none is left unsignalled but the
    one handed back. *)
Lemma tries_counts (port : Z) (ts : list Strategy) (r : option ChildProcess)
    (evs : list event) :
  tries_trace E cwd port ts r evs ->
  count_allocs evs = 0%nat /\
  (count_spawns evs <= length ts)%nat /\
  (count_kills evs + match r with Some _ => 1 | None => 0 end = count_spawns evs)%nat.
Proof.
  unfold count_allocs, count_spawns, count_kills.
  induction 1 as [|t ts child probes Hp|t ts child probes r rest Hp _ IH].
  - repeat split; cbn; lia.
  - cbn [List.filter spawn_event length].
    rewrite !(probes_count port _ probes) by (reflexivity || exact Hp).
    repeat split; lia.
  - destruct IH as (Ha & Hs & Hk).
    cbn [List.filter spawn_event length]. rewrite !count_app.
    rewrite !(probes_count port _ probes) by (reflexivity || exact Hp).
    cbn [List.filter length]. repeat split; lia.
Qed.

Lemma attempts_counts (v x : bool) (n : nat) (r : outcome (ChildProcess * Z))
    (evs : list event) :
  attempts_trace E cwd v x n r evs ->
  (count_allocs evs <= n)%nat /\
  (count_spawns evs <= 2 * n)%nat /\
  (count_kills evs + kept_child r = count_spawns evs)%nat.
Proof.
  induction 1 as [|n|n port child evs _ Ht|n port evs r rest _ Ht _ IH].
  - repeat split; cbn; lia.
  - unfold count_allocs, count_spawns, count_kills.
    rewrite !count_rev, !failed_count by reflexivity. repeat split; cbn; lia.
  - destruct (alloc_counts port) as (Ha & Hs & Hk).
    destruct (tries_counts _ _ _ _ Ht) as (Ha' & Hs' & Hk').
    rewrite tries_length in Hs'.
    unfold count_allocs, count_spawns, count_kills in *. rewrite !count_app.
    cbn [kept_child]. destruct x; repeat split; lia.
  - destruct (alloc_counts port) as (Ha & Hs & Hk).
    destruct (tries_counts _ _ _ _ Ht) as (Ha' & Hs' & Hk').
    rewrite tries_length in Hs'. destruct IH as (Ha'' & Hs'' & Hk'').
    unfold count_allocs, count_spawns, count_kills in *. rewrite !count_app.
    destruct x; repeat split; lia.
Qed.

Lemma signalled_quiet (l : list event) : forall pending rest,
  Forall quiet l -> signalled pending (l ++ rest) = signalled pending rest.
Proof.
  induction l as [|e l IH]; intros pending rest Hq; [reflexivity|].
  inversion Hq as [|? ? He Hl]; subst.
  destruct e; cbn in He; try contradiction; cbn [app signalled]; apply IH, Hl.
Qed.

Lemma probes_quiet (port : Z) (probes : list event) :
  Forall (launch_probe E port) probes -> Forall quiet probes.
Proof.
  intros H. eapply Forall_impl; [exact H|].
  intros e He. destruct e; cbn in *; tauto.
Qed.

Lemma failed_quiet (n : nat) : forall p, Forall quiet (Allocator.failed n p).
Proof.
  induction n as [|n IH]; intros p; cbn; [constructor|].
  apply Forall_app. split; [apply IH | repeat constructor].
Qed.

Lemma alloc_quiet (port : Z) : Forall quiet (alloc_events port).
Proof.
  unfold alloc_events. apply Forall_rev.
  repeat (constructor; [exact I|]). apply failed_quiet.
Qed.

(** One inner loop signals each child it gives up, at that child's
    pid, before it spawns the next; the child handed back is pending. *)
Lemma tries_signalled (port : Z) (ts : list Strategy) (r : option ChildProcess)
    (evs : list event) :
  tries_trace E cwd port ts r evs ->
  forall rest, signalled None (evs ++ rest) = signalled (pid <$> r) rest.
Proof.
  induction 1 as [|t ts child probes Hp|t ts child probes r rest0 Hp _ IH]; intros rest.
  - reflexivity.
  - cbn [spawn_event app signalled].
    apply signalled_quiet, (probes_quiet port), Hp.
  - cbn [spawn_event app signalled]. rewrite <- app_assoc.
    rewrite signalled_quiet by (apply (probes_quiet port), Hp).
    cbn [app signalled]. rewrite Z.eqb_refl. apply IH.
Qed.

Lemma attempts_signalled (v x : bool) (n : nat) (r : outcome (ChildProcess * Z))
    (evs : list event) :
  attempts_trace E cwd v x n r evs ->
  signalled None evs
    = Some (match r with Ok (child, _) => Some (pid child) | _ => None end).
Proof.
  induction 1 as [|n|n port child evs _ Ht|n port evs r rest _ Ht _ IH].
  - reflexivity.
  - rewrite <- (app_nil_r (rev _)). rewrite signalled_quiet; [reflexivity|].
    apply Forall_rev, failed_quiet.
  - rewrite signalled_quiet by apply alloc_quiet.
    rewrite <- (app_nil_r evs). rewrite (tries_signalled _ _ _ _ Ht). reflexivity.
  - rewrite signalled_quiet by apply alloc_quiet.
    rewrite (tries_signalled _ _ _ _ Ht). exact IH.
Qed.

Lemma sleep_at_least (ms : Z) (w : World) :
  exists w', sleep E ms w = (Ok tt, w') /\ now w + timer_delay ms <= now w'.
Proof. eexists. split; [reflexivity|]. cbn. lia. Qed.

(** A probe never turns the clock back, and a failed one has used up
    its budget. *)
Lemma probe_time (base : string) (total i : Z) (w : World) :
  exists b w', waitForOkAny E base total i w = (Ok b, w') /\
    now w <= now w' /\ (b = false -> total <= now w' - now w).
Proof.
  unfold waitForOkAny.
  destruct (poll_enough_fuel E base (now w) total i (Z.to_nat total) w)
    as (b & w' & new & Heq & _ & Hn & Hf & _); [lia|].
  exists b, w'. repeat split; assumption.
Qed.

(** An inner loop that hands back no child has spent a full probe and
    a pause on every strategy. *)
Lemma run_tries_time (port : Z) (ts : list Strategy) : forall w r w',
  run_tries E cwd port ts w = (Ok r, w') ->
  now w <= now w' /\
  (r = None -> Z.of_nat (length ts) * 20300 <= now w' - now w).
Proof.
  induction ts as [|t ts IH]; intros w r w' H.
  - injection H as <- <-. cbn. lia.
  - cbn [run_tries] in H. unfold bind at 1 in H.
    destruct (spawnDev_spec E cwd (args t) (default (process_env E) (env t)) w)
      as [child Hsp]. rewrite Hsp in H. unfold bind at 1 in H.
    destruct (probe_time (base_url port) 20000 600
                (log (EvSpawn (npm E) (args t) cwd (default (process_env E) (env t))
                              Inherit (pid child)) w))
      as (b & w2 & Hpr & Hn2 & Hf2).
    rewrite Hpr in H. cbn [log now] in Hn2, Hf2. destruct b.
    + injection H as <- <-. split; [lia | discriminate].
    + unfold bind at 1 in H. rewrite kill_ignored in H. unfold bind at 1 in H.
      destruct (sleep_at_least 300 (log (EvKill (default (-1) (pid child))) w2))
        as (w4 & Hs & Hn4).
      rewrite Hs in H. cbn [log now] in Hn4.
      change (timer_delay 300) with 300 in Hn4.
      apply IH in H. destruct H as [Hmono Hnone].
      specialize (Hf2 eq_refl). split; [lia|].
      intros Hr. specialize (Hnone Hr). cbn [length]. lia.
Qed.

(** A launch that gives up has spent at least 20.3 s on each attempt. *)
Lemma attempts_time (v x : bool) (n : nat) : forall w w',
  attempts E n cwd v x w = (Throw (Error "Failed to start dev server"), w') ->
  Z.of_nat n * 20300 <= now w' - now w.
Proof.
  induction n as [|n IH]; intros w w' H.
  - injection H as <-. lia.
  - cbn [attempts] in H. unfold bind at 1 in H.
    pose proof (AllocatorFacts.scan_spec E 100 5100 w) as Hscan.
    change (getFreePort E 5100 5199 w) with (scan E 100 5100 w) in H.
    destruct (scan E 100 5100 w) as [[port|e|] w1].
    + destruct Hscan as (_ & Hn1 & _); [lia | lia |].
      unfold bind at 1 in H.
      destruct (run_tries_trace E cwd port (tries E v x port) w1)
        as (r & w2 & evs & Hrt & _ & _ & _).
      rewrite Hrt in H. apply run_tries_time in Hrt. destruct Hrt as [Hmono Hnone].
      destruct r as [res|]; [discriminate H|].
      specialize (Hnone eq_refl). rewrite tries_length in Hnone.
      apply IH in H. destruct x; lia.
    + destruct Hscan as (-> & _ & _); [lia | lia |]. discriminate H.
    + discriminate H.
Qed.


End Facts.

(** X6: whatever a launch comes to, it has allocated at most
    [maxRetry] ports and spawned at most [2 * maxRetry] children, one
    at a time: every child it spawned but the one it returns has been
    sent SIGTERM, at its own pid, or at [-1] when the spawn gave none,
    before the next spawn; no other pid is signalled, and the child
    left unsignalled at the end is the one returned (none when the
    launch throws). *)
Theorem launch_children_accounted (E : Env) (cwd : string) (maxRetry : nat) (w : World) :
  exists r w' evs,
    spawnDevServerWithRetry E cwd maxRetry w = (r, w') /\
    trace w' = rev evs ++ trace w /\
    (count_allocs evs <= maxRetry)%nat /\
    (count_spawns evs <= 2 * maxRetry)%nat /\
    (count_kills evs + kept_child r = count_spawns evs)%nat /\
    signalled None evs
      = Some (match r with Ok (child, _) => Some (pid child) | _ => None end).
Proof.
  destruct (launch_follows_trace E cwd maxRetry w) as (r & w' & evs & v & x & Heq & Htr & Hat).
  exists r, w', evs. split; [exact Heq|]. split; [exact Htr|].
  destruct (attempts_counts E cwd v x maxRetry r evs Hat) as (Ha & Hs & Hk).
  repeat (split; [assumption|]).
  eapply attempts_signalled, Hat.
Qed.

(** X7: a launch that ends with "Failed to start dev server" has
    lasted at least 20.3 seconds per attempt: a full 20 s probe and
    the 300 ms pause after the kill. *)
Theorem launch_failure_takes_time (E : Env) (cwd : string) (maxRetry : nat) (w w' : World)
    (H : spawnDevServerWithRetry E cwd maxRetry w
         = (Throw (Error "Failed to start dev server"), w')) :
  Z.of_nat maxRetry * 20300 <= now w' - now w.
Proof.
  unfold spawnDevServerWithRetry, bind at 1 in H.
  assert (exists v x, detect E cwd w = (Ok (v, x), w)) as (v & x & Hd).
  { unfold detect. destruct (readJson E w (cwd +:+ "/package.json")); eauto. }
  rewrite Hd in H. cbn [fst snd] in H. eapply attempts_time, H.
Qed.

Lemma launch_failure_takes_time_witness :
  Z.of_nat 1 * 20300
  <= now (snd (spawnDevServerWithRetry E_next_down "/srv/app" 1 w0)) - now w0.
Proof.
  apply (launch_failure_takes_time E_next_down "/srv/app" 1 w0). vm_compute. reflexivity.
Defined.



End LauncherMore.

(** * More on the stores *)

Module RegistryMore.
Import Os OsFacts Registry ReaperSpec Preview RegistryInv Scenario Scenario2.
Import RegistryFacts.

Section Facts.
Variable E : Env.

(** A store that has just been swept has nothing left to sweep. *)
Lemma sweep_store_again {V} (ts : V -> Z) (path : V -> string) (now_ : Z)
    (m : gmap string V) (w : World) :
  sweep_store E ts path now_ (filter (fun kv => ~ expired now_ (ts kv.2)) m) w
  = (Ok (filter (fun kv => ~ expired now_ (ts kv.2)) m), w).
Proof.
  unfold sweep_store.
  assert (Hgone : filter (fun kv : string * V => expired now_ (ts kv.2))
                         (filter (fun kv : string * V => ~ expired now_ (ts kv.2)) m) = ∅).
  { apply map_eq. intros k. rewrite lookup_empty. apply map_lookup_filter_None.
    right. intros v Hv. apply map_lookup_filter_Some in Hv. cbn in *. tauto. }
  assert (Hkept : filter (fun kv : string * V => ~ expired now_ (ts kv.2))
                         (filter (fun kv : string * V => ~ expired now_ (ts kv.2)) m)
                  = filter (fun kv : string * V => ~ expired now_ (ts kv.2)) m).
  { apply map_eq. intros k.
    destruct (filter (fun kv : string * V => ~ expired now_ (ts kv.2)) m !! k) as [v|] eqn:Hk.
    - apply map_lookup_filter_Some. split; [exact Hk|].
      apply map_lookup_filter_Some in Hk. tauto.
    - apply map_lookup_filter_None. left. exact Hk. }
  rewrite Hgone, Hkept, map_to_list_empty. cbn. destruct w; reflexivity.
Qed.

Lemma sweep_store_shape {V} (ts : V -> Z) (path : V -> string) (now_ : Z)
    (m : gmap string V) (w : World) :
  exists w', sweep_store E ts path now_ m w
             = (Ok (filter (fun kv => ~ expired now_ (ts kv.2)) m), w') /\ now w' = now w.
Proof.
  unfold sweep_store. eexists. split; [reflexivity|].
  apply (remove_all_trace E path).
Qed.

End Facts.

(** X9: the sweep is idempotent: run again on its own result, with the
    clock where the first run left it, it evicts nothing, removes
    nothing and returns the same stores. *)
Theorem sweep_idempotent (E : Env) (st st1 : Stores) (w w1 : World)
    (H : sweep E st w = (Ok st1, w1)) :
  sweep E st1 w1 = (Ok st1, w1).
Proof.
  unfold sweep, bind in H.
  destruct (sweep_store_shape E timestamp zipPath (now w) (migrationResults st) w)
    as (u1 & H1 & Hn1). rewrite H1 in H.
  destruct (sweep_store_shape E plan_timestamp plan_tempDir (now w) (planSessions st) u1)
    as (u2 & H2 & Hn2). rewrite H2 in H.
  destruct (sweep_store_shape E plan_timestamp plan_tempDir (now w) (diagnoseSessions st) u2)
    as (u3 & H3 & Hn3). rewrite H3 in H.
  injection H as <- <-.
  assert (Hnow : now u3 = now w) by congruence.
  unfold sweep, bind. cbn [migrationResults planSessions diagnoseSessions previewSessions].
  rewrite Hnow, !sweep_store_again. reflexivity.
Qed.

Lemma sweep_idempotent_witness :
  sweep E_idle (fst (Scenario2.swept_once)) (snd Scenario2.swept_once)
  = (Ok (fst Scenario2.swept_once), snd Scenario2.swept_once).
Proof.
  apply (sweep_idempotent E_idle st_result (fst Scenario2.swept_once)
           w_day (snd Scenario2.swept_once)).
  reflexivity.
Defined.

(** X10: a result that the sweep has found expired can no longer be
    downloaded, whatever is on disk: the download route answers 404
    "Result not found or expired" and changes nothing. *)
Theorem swept_result_not_downloadable (E : Env) (st st1 : Stores) (w w1 : World)
    (i : string) (r : MigrationResult) (existsSync : string -> bool)
    (Hi : migrationResults st !! i = Some r)
    (Hold : expired (now w) (timestamp r))
    (H : sweep E st w = (Ok st1, w1)) :
  download existsSync i st1 = (DownloadMissing "Result not found or expired", st1).
Proof.
  unfold sweep, bind in H.
  destruct (sweep_store_shape E timestamp zipPath (now w) (migrationResults st) w)
    as (u1 & H1 & _). rewrite H1 in H.
  destruct (sweep_store_shape E plan_timestamp plan_tempDir (now w) (planSessions st) u1)
    as (u2 & H2 & _). rewrite H2 in H.
  destruct (sweep_store_shape E plan_timestamp plan_tempDir (now w) (diagnoseSessions st) u2)
    as (u3 & H3 & _). rewrite H3 in H.
  injection H as <- <-. unfold download. cbn [migrationResults].
  assert (filter (fun kv : string * MigrationResult => ~ expired (now w) (timestamp kv.2))
                 (migrationResults st) !! i = None) as ->; [|reflexivity].
  apply map_lookup_filter_None. right. intros r' Hr'. cbn.
  rewrite Hi in Hr'. injection Hr' as <-. tauto.
Qed.

Lemma swept_result_not_downloadable_witness :
  download (fun _ => true) "r9" (fst Scenario2.swept_once)
  = (DownloadMissing "Result not found or expired", fst Scenario2.swept_once).
Proof.
  apply (swept_result_not_downloadable E_idle st_result (fst Scenario2.swept_once)
           w_day (snd Scenario2.swept_once) "r9" (mkResult "temp/results/r9.zip" 0)).
  - reflexivity.
  - vm_compute. reflexivity.
  - reflexivity.
Defined.

(** X11: a download that finds the entry but not the zip on disk
    evicts that entry and no other, so that asking again answers
    "Result not found or expired"; a download that finds the zip sends
    it under the name [migrated-project-<id>.zip] and leaves the stores
    as they are. *)
Theorem download_heals_registry (existsSync : string -> bool) (i : string)
    (st : Stores) (r : MigrationResult)
    (Hi : migrationResults st !! i = Some r) :
  (existsSync (zipPath r) = false ->
   exists st1,
     download existsSync i st = (DownloadMissing "Result file not found", st1) /\
     (forall j, j <> i -> migrationResults st1 !! j = migrationResults st !! j) /\
     previewSessions st1 = previewSessions st /\
     forall again, download again i st1
                   = (DownloadMissing "Result not found or expired", st1)) /\
  (existsSync (zipPath r) = true ->
   download existsSync i st
   = (DownloadFile (zipPath r) ("migrated-project-" +:+ i +:+ ".zip"), st)).
Proof.
  split; intros Hex; unfold download; rewrite Hi, Hex; cbn [negb]; [|reflexivity].
  eexists. split; [reflexivity|]. cbn [migrationResults previewSessions].
  split; [intros j Hj; apply lookup_delete_ne; congruence|].
  split; [reflexivity|]. intros again. rewrite lookup_delete_eq. reflexivity.
Qed.

Lemma download_heals_registry_witness :
  exists st1,
    download (fun _ => false) "r9" st_result
      = (DownloadMissing "Result file not found", st1) /\
    (forall j, j <> "r9" -> migrationResults st1 !! j = migrationResults st_result !! j) /\
    previewSessions st1 = previewSessions st_result /\
    forall again, download again "r9" st1
                  = (DownloadMissing "Result not found or expired", st1).
Proof.
  apply (proj1 (download_heals_registry (fun _ => false) "r9" st_result
                  (mkResult "temp/results/r9.zip" 0) eq_refl)).
  reflexivity.
Defined.

End RegistryMore.

(** * More on the router *)

Module RouterMore.
Import Registry Router RouterSpec RegistryInv RunSpec Scenario Scenario3.
Import RouterFacts.

Lemma take_id_complete (i : string) : forall post,
  Forall (fun c => is_id_char c = true) (String.list_ascii_of_string i) ->
  take_id (String.length i) (i +:+ post) = Some i.
Proof.
  induction i as [|c i IH]; intros post Hall.
  - reflexivity.
  - cbn in Hall. inversion Hall as [|? ? Hc Hrest]; subst.
    change (String c i +:+ post) with (String c (i +:+ post)).
    cbn [String.length take_id]. rewrite Hc, (IH post Hrest). reflexivity.
Qed.

Lemma string_app_prefix (p : string) : forall r, String.prefix p (p +:+ r) = true.
Proof.
  induction p as [|a p IH]; intros r; [destruct r; reflexivity|].
  change (String a p +:+ r) with (String a (p +:+ r)). cbn [String.prefix].
  destruct (ascii_dec a a); [apply IH | contradiction].
Qed.

Lemma sdrop_app (p : string) : forall r, sdrop (String.length p) (p +:+ r) = r.
Proof. induction p as [|a p IH]; intros r; [reflexivity | apply IH]. Qed.

Lemma match_here_complete (i post : string) :
  uuid_shaped i -> match_here ("/preview/" +:+ i +:+ post) = Some i.
Proof.
  intros [Hlen Hall]. unfold match_here.
  rewrite string_app_prefix.
  change (sdrop 9) with (sdrop (String.length "/preview/")). rewrite sdrop_app.
  rewrite <- Hlen. apply take_id_complete, Hall.
Qed.

(** An id segment ends where the string ends or at the next slash. *)
Lemma segment_id (i : string) :
  Forall (fun c => is_id_char c = true) (String.list_ascii_of_string i) ->
  segment i = i.
Proof.
  induction i as [|c i IH]; intros Hall; [reflexivity|].
  cbn in Hall. inversion Hall as [|? ? Hc Hrest]; subst.
  cbn [segment]. destruct (Ascii.eqb c "/") eqn:Hs.
  - apply Ascii.eqb_eq in Hs. subst c. discriminate Hc.
  - rewrite (IH Hrest). reflexivity.
Qed.

Lemma preview_match_finds (s i : string) :
  names_session s i -> exists j, preview_match s = Some j.
Proof.
  intros (pre & post & -> & Hlen & Hall).
  induction pre as [|c pre IH].
  - exists i.
    change ("" +:+ "/preview/" +:+ i +:+ post) with ("/preview/" +:+ i +:+ post).
    assert (Hm : match_here ("/preview/" +:+ i +:+ post) = Some i)
      by (apply match_here_complete; split; assumption).
    change ("/preview/" +:+ i +:+ post)
      with (String "/" ("preview/" +:+ i +:+ post)) in *.
    cbn [preview_match]. rewrite Hm. reflexivity.
  - destruct IH as (j & Hj).
    change (String c pre +:+ "/preview/" +:+ i +:+ post)
      with (String c (pre +:+ "/preview/" +:+ i +:+ post)).
    cbn [preview_match].
    destruct (match_here (String c (pre +:+ "/preview/" +:+ i +:+ post))) as [k|] eqn:Hk.
    + exists k. reflexivity.
    + exists j. exact Hj.
Qed.

(** An occurrence at offset 0 is what the anchored expression captures. *)
Lemma occurs_at_head (s i : string) :
  occurs_at s 0 i -> match_here s = Some i.
Proof.
  intros (pre & post & -> & Hpre & Hlen & Hall).
  destruct pre; [|discriminate Hpre].
  apply match_here_complete. split; assumption.
Qed.

Lemma occurs_at_tail (c : Ascii.ascii) (s : string) (m : nat) (i : string) :
  occurs_at (String c s) (S m) i -> occurs_at s m i.
Proof.
  intros (pre & post & Heq & Hpre & Hlen & Hall).
  destruct pre as [|a pre]; [discriminate Hpre|].
  change (String a pre +:+ "/preview/" +:+ i +:+ post)
    with (String a (pre +:+ "/preview/" +:+ i +:+ post)) in Heq.
  injection Heq as _ Heq. injection Hpre as Hpre.
  exists pre, post. repeat split; assumption.
Qed.

(** The capture stands at the least offset at which an id occurs. *)
Lemma preview_match_leftmost (s : string) : forall j,
  preview_match s = Some j ->
  exists n, occurs_at s n j /\
    forall m i', occurs_at s m i' -> (n <= m)%nat /\ (m = n -> i' = j).
Proof.
  induction s as [|c s IH]; intros j H.
  - cbn in H. discriminate.
  - cbn [preview_match] in H.
    destruct (match_here (String c s)) as [k|] eqn:Hk.
    + injection H as <-. exists 0%nat. split.
      * destruct (match_here_names _ _ Hk) as (pre & post & Heq & Hlen & Hall).
        unfold match_here in Hk.
        destruct (String.prefix "/preview/" (String c s)) eqn:Hp; [|discriminate].
        apply prefix_split in Hp. apply take_id_spec in Hk.
        destruct Hk as (Hl & Hs & Ha).
        exists "", (sdrop 36 (sdrop 9 (String c s))).
        split; [|repeat split; assumption].
        rewrite Hp at 1. cbn [String.length]. rewrite Hs at 1. reflexivity.
      * intros m i' Ho. split; [lia|]. intros ->.
        apply occurs_at_head in Ho. congruence.
    + destruct (IH j H) as (n & (pre & post & Heq & Hpre & Hlen & Hall) & Hmin).
      exists (S n). split.
      * exists (String c pre), post. split; [|split; [cbn; f_equal; exact Hpre|split; assumption]].
        change (String c pre +:+ "/preview/" +:+ j +:+ post)
          with (String c (pre +:+ "/preview/" +:+ j +:+ post)).
        f_equal. exact Heq.
      * intros m i' Ho. destruct m as [|m].
        { apply occurs_at_head in Ho. congruence. }
        apply occurs_at_tail in Ho. destruct (Hmin m i' Ho) as [Hle Hsame].
        split; [lia|]. intros Hm. apply Hsame. lia.
Qed.

(** X12: the Referer expression misses no session id and takes the
    leftmost one: whenever the header contains [/preview/] followed by
    36 characters of [[0-9a-f-]], [preview_match] captures the id that
    stands at the least offset at which such an occurrence begins, no
    occurrence begins before it, and the one that begins there is the
    capture. *)
Theorem preview_match_complete (s i : string) (H : names_session s i) :
  exists j n, preview_match s = Some j /\ names_session s j /\
    occurs_at s n j /\
    forall m i', occurs_at s m i' -> (n <= m)%nat /\ (m = n -> i' = j).
Proof.
  destruct (preview_match_finds s i H) as (j & Hj).
  destruct (preview_match_leftmost s j Hj) as (n & Ho & Hmin).
  exists j, n. split; [exact Hj|]. split; [apply preview_match_names, Hj|].
  split; assumption.
Qed.

Lemma preview_match_complete_witness :
  exists j n,
    preview_match ("http://localhost:5002/preview/" +:+ ghost +:+ "/preview/" +:+ second_id)
      = Some j /\
    names_session ("http://localhost:5002/preview/" +:+ ghost +:+ "/preview/" +:+ second_id) j /\
    occurs_at ("http://localhost:5002/preview/" +:+ ghost +:+ "/preview/" +:+ second_id) n j /\
    forall m i',
      occurs_at ("http://localhost:5002/preview/" +:+ ghost +:+ "/preview/" +:+ second_id) m i' ->
      (n <= m)%nat /\ (m = n -> i' = j).
Proof.
  apply (preview_match_complete _ second_id).
  exists ("http://localhost:5002/preview/" +:+ ghost), "".
  split; [reflexivity|]. split; [reflexivity|].
  repeat constructor.
Defined.

Lemma string_app_empty (p : string) : p +:+ "" = p.
Proof.
  induction p as [|a p IH]; [reflexivity|].
  change (String a p +:+ "") with (String a (p +:+ "")). f_equal. exact IH.
Qed.

Lemma pathRewrite_strips_eq (prefix rest : string) :
  prefix <> "" ->
  pathRewrite prefix (prefix +:+ rest) = if String.eqb rest "" then "/" else rest.
Proof.
  intros Hne. unfold pathRewrite.
  destruct (String.eqb prefix "") eqn:He; [apply String.eqb_eq in He; contradiction|].
  cbn [negb andb]. rewrite string_app_prefix, sdrop_app. reflexivity.
Qed.

(** X13: for a prefix that is not empty, [pathRewrite] takes exactly
    the prefix off a path under it, the bare prefix becoming [/], so
    that what it returns for such a path is never empty; a path that
    does not start with the prefix is returned as it is, and so is
    every path when the prefix is empty. *)
Theorem pathRewrite_strips (prefix rest : string) :
  (prefix <> "" ->
   pathRewrite prefix (prefix +:+ rest) = (if String.eqb rest "" then "/" else rest) /\
   pathRewrite prefix (prefix +:+ rest) <> "") /\
  (forall p, String.prefix prefix p = false -> pathRewrite prefix p = p) /\
  (forall p, pathRewrite "" p = p).
Proof.
  split; [|split].
  - intros Hne. pose proof (pathRewrite_strips_eq prefix rest Hne) as Heq.
    split; [exact Heq|]. rewrite Heq.
    destruct (String.eqb rest "") eqn:Hr; [discriminate|].
    intros ->. discriminate Hr.
  - intros p Hp. unfold pathRewrite. rewrite Hp, andb_false_r. reflexivity.
  - intros p. reflexivity.
Qed.

Lemma pathRewrite_strips_witness :
  (pathRewrite ("/preview/" +:+ ghost) (("/preview/" +:+ ghost) +:+ "/index.html")
   = (if String.eqb "/index.html" "" then "/" else "/index.html") /\
   pathRewrite ("/preview/" +:+ ghost) (("/preview/" +:+ ghost) +:+ "/index.html") <> "") /\
  pathRewrite ("/preview/" +:+ ghost) "/src/main.ts" = "/src/main.ts".
Proof.
  split.
  - apply (proj1 (pathRewrite_strips ("/preview/" +:+ ghost) "/index.html")).
    discriminate.
  - apply (proj1 (proj2 (pathRewrite_strips ("/preview/" +:+ ghost) "/index.html"))).
    reflexivity.
Defined.

End RouterMore.

(** * Properties of the preview routes: start, health *)

Module PreviewFacts.
Import Os OsFacts Prober Launcher Registry Router ProjectRoot Preview.
Import ProbeSpec LaunchSpec RouterSpec RegistryInv Scenario Scenario2.
Import ProberFacts LauncherFacts RegistryFacts RouterFacts.

Ltac crack H :=
  repeat (match type of H with
          | context [if ?c then _ else _] => destruct c eqn:?
          | context [match ?x with _ => _ end] => destruct x eqn:?
          end; try discriminate H).

Section Facts.
Variable E : Env.
Variable H : Host.

Lemma attempts_trace_port (cwd : string) (v x : bool) (n : nat)
    (r : outcome (ChildProcess * Z)) (evs : list event) :
  attempts_trace E cwd v x n r evs ->
  forall child p, r = Ok (child, p) -> 5100 <= p <= 5199.
Proof.
  induction 1 as [|n|n q c evs Hq _|n q evs r rest _ _ _ IH]; intros child p Hr;
    try discriminate.
  - injection Hr as _ <-. exact Hq.
  - eapply IH, Hr.
Qed.

Lemma launch_port_range (cwd : string) (n : nat) (w w' : World)
    (child : ChildProcess) (p : Z) :
  spawnDevServerWithRetry E cwd n w = (Ok (child, p), w') -> 5100 <= p <= 5199.
Proof.
  intros Hl.
  destruct (launch_follows_trace E cwd n w) as (r & w1 & evs & v & x & Heq & _ & Hat).
  rewrite Hl in Heq. injection Heq as <- <-.
  eapply attempts_trace_port; [exact Hat | reflexivity].
Qed.

(** A start that answers ok has filed one new session, under the id it
    answers with. *)
Lemma start_session_ok (rid : string) (st st' : Stores) (w w' : World) (b : PreviewOk) :
  start_session E H rid st w = (Ok (StartOk b, st'), w') ->
  exists child tempDir_,
    b = sendPreviewOk (previewId b) (ok_port b) /\
    5100 <= ok_port b <= 5199 /\
    st' = mkStores (migrationResults st) (planSessions st) (diagnoseSessions st)
            (<[previewId b :=
                 mkPreview (previewId b) (ok_port b) tempDir_
                           (default (-1) (pid child)) (now w')]>
               (previewSessions st)).
Proof.
  intros Hs. unfold start_session, bind, exists_, uuid, ensureDir, extract, resolve, ret in Hs.
  crack Hs.
  - unfold npm_install in *. crack Hs.
    match goal with
    | Hl : spawnDevServerWithRetry _ _ _ _ = (Ok ?cp, _) |- _ =>
        destruct cp as [child p]; pose proof (launch_port_range _ _ _ _ _ _ Hl) as Hp
    end.
    injection Hs as <- <- <-. exists child. eexists.
    cbn. repeat split; try reflexivity; apply Hp.
  - match goal with
    | Hl : spawnDevServerWithRetry _ _ _ _ = (Ok ?cp, _) |- _ =>
        destruct cp as [child p]; pose proof (launch_port_range _ _ _ _ _ _ Hl) as Hp
    end.
    injection Hs as <- <- <-. exists child. eexists.
    cbn. repeat split; try reflexivity; apply Hp.
Qed.

(** The one failure the [try] block answers itself is the missing zip,
    before anything has happened. *)
Lemma start_session_fail (rid : string) (st st' : Stores) (w w' : World) (r : Response) :
  start_session E H rid st w = (Ok (StartFail r, st'), w') ->
  r = mkResponse 404 (Json false (Some "result zip not found")) /\ st' = st /\ w' = w /\
  pathExists H w (path_join H RESULTS (rid +:+ ".zip")) = false.
Proof.
  intros Hs. unfold start_session, bind, exists_, uuid, ensureDir, extract, resolve, ret in Hs.
  crack Hs; try (unfold npm_install in *; crack Hs).
  injection Hs as <- <- <-.
  match goal with Hb : negb _ = true |- _ => apply negb_true_iff in Hb end.
  repeat split. assumption.
Qed.

Lemma preview_start_ok (body : StartBody) (st st' : Stores) (w w' : World) (b : PreviewOk) :
  preview_start E H body st w = (Ok (StartOk b, st'), w') ->
  exists rid, start_session E H rid st w = (Ok (StartOk b, st'), w').
Proof.
  unfold preview_start. intros Hs.
  destruct (first_truthy _) as [rid|]; [|discriminate Hs].
  exists rid. destruct (start_session E H rid st w) as [[[resp st1]|e|] w1];
    try discriminate Hs. exact Hs.
Qed.

(** Stopping what a start has just filed. *)
Lemma stop_inserted (i : string) (sess : PreviewSession) (st : Stores) (w : World) :
  previewSessions st !! i = None ->
  delete_preview E i
    (mkStores (migrationResults st) (planSessions st) (diagnoseSessions st)
              (<[i := sess]> (previewSessions st))) w
  = (Ok (mkResponse 200 (Json true None), st),
     log (EvRemove (tempDir sess)) (log (EvKill (childPid sess)) w)).
Proof.
  intros Hfresh. rewrite (delete_preview_found E i _ sess w) by apply lookup_insert_eq.
  cbn [migrationResults planSessions diagnoseSessions previewSessions].
  rewrite delete_insert_id by exact Hfresh. destruct st; reflexivity.
Qed.

Lemma preview_start_fail_same (body : StartBody) (st st' : Stores) (w w' : World)
    (r : Response) :
  preview_start E H body st w = (Ok (StartFail r, st'), w') -> st' = st.
Proof.
  intros Hs. unfold preview_start in Hs.
  destruct (first_truthy _) as [rid|].
  - destruct (start_session E H rid st w) as [[[resp st1]|e'|] w1] eqn:Hss;
      try discriminate Hs.
    + injection Hs as -> -> ->.
      destruct (start_session_fail rid st st' w w' r Hss) as (_ & -> & _). reflexivity.
    + injection Hs as <- <- <-. reflexivity.
  - injection Hs as <- <- <-. reflexivity.
Qed.

End Facts.

(** X14: [POST /api/preview/start] never throws, and every failure it
    answers (400, 404 or 500) leaves the stores as they were.  Without
    any of the four id fields it answers 400, and for an id whose result
    zip does not exist it answers 404, in both cases before anything
    else has happened. *)
Theorem preview_start_fails_clean (E : Env) (H : Host) (body : StartBody)
    (st : Stores) (w : World) :
  (forall e w', preview_start E H body st w <> (Throw e, w')) /\
  (forall r st' w', preview_start E H body st w = (Ok (StartFail r, st'), w') ->
     st' = st /\ (code r = 400 \/ code r = 404 \/ code r = 500)) /\
  (first_truthy [resultId body; body_id body; zipId body; downloadId body] = None ->
   preview_start E H body st w
   = (Ok (StartFail (mkResponse 400 (Json false (Some "resultId is required"))), st), w)) /\
  (forall rid,
     first_truthy [resultId body; body_id body; zipId body; downloadId body] = Some rid ->
     pathExists H w (path_join H RESULTS (rid +:+ ".zip")) = false ->
     preview_start E H body st w
     = (Ok (StartFail (mkResponse 404 (Json false (Some "result zip not found"))), st), w)).
Proof.
  split; [|split; [|split]].
  - intros e w' Hs. unfold preview_start in Hs.
    destruct (first_truthy _) as [rid|]; [|discriminate Hs].
    destruct (start_session E H rid st w) as [[a|e'|] w1]; discriminate Hs.
  - intros r st' w' Hs. unfold preview_start in Hs.
    destruct (first_truthy _) as [rid|].
    + destruct (start_session E H rid st w) as [[[resp st1]|e'|] w1] eqn:Hss;
        try discriminate Hs.
      * injection Hs as -> -> ->.
        destruct (start_session_fail E H rid st st' w w' r Hss) as (-> & -> & _).
        split; [reflexivity|]. right. left. reflexivity.
      * injection Hs as <- <- <-. split; [reflexivity|]. right. right. reflexivity.
    + injection Hs as <- <- <-. split; [reflexivity|]. left. reflexivity.
  - intros Hnone. unfold preview_start. rewrite Hnone. reflexivity.
  - intros rid Hrid Hmiss. unfold preview_start. rewrite Hrid.
    unfold start_session, bind, exists_. rewrite Hmiss. reflexivity.
Qed.

Lemma preview_start_fails_clean_witness :
  preview_start E_up H_ready body_none st_one w0
  = (Ok (StartFail (mkResponse 400 (Json false (Some "resultId is required"))), st_one), w0).
Proof.
  apply (proj1 (proj2 (proj2 (preview_start_fails_clean E_up H_ready body_none st_one w0)))).
  reflexivity.
Defined.

(** X15: a start that answers ok has added exactly one preview session
    and touched no other store: the session is filed under the id sent
    back, carries the port sent back, which lies in 5100..5199, and the
    time of registration; the answer is [sendPreviewOk] of that id and
    port. *)
Theorem preview_start_registers (E : Env) (H : Host) (body : StartBody)
    (st st' : Stores) (w w' : World) (b : PreviewOk)
    (Hs : preview_start E H body st w = (Ok (StartOk b, st'), w')) :
  exists sess,
    previewSessions st' = <[previewId b := sess]> (previewSessions st) /\
    lookup_session (previewId b) st' = Some sess /\
    id sess = previewId b /\ port sess = ok_port b /\ startedAt sess = now w' /\
    5100 <= ok_port b <= 5199 /\
    b = sendPreviewOk (previewId b) (ok_port b) /\
    migrationResults st' = migrationResults st /\
    planSessions st' = planSessions st /\
    diagnoseSessions st' = diagnoseSessions st.
Proof.
  destruct (preview_start_ok E H body st st' w w' b Hs) as [rid Hss].
  destruct (start_session_ok E H rid st st' w w' b Hss) as (child & dir & Hb & Hp & ->).
  eexists. split; [reflexivity|]. split; [apply lookup_insert_eq|].
  repeat split; try apply Hp. exact Hb.
Qed.

Lemma preview_start_registers_witness :
  exists sess,
    previewSessions started_stores
      = <[previewId (sendPreviewOk started_id 5100) := sess]> (previewSessions st_empty) /\
    lookup_session (previewId (sendPreviewOk started_id 5100)) started_stores = Some sess /\
    id sess = previewId (sendPreviewOk started_id 5100) /\
    port sess = ok_port (sendPreviewOk started_id 5100) /\
    startedAt sess = now (snd started) /\
    5100 <= ok_port (sendPreviewOk started_id 5100) <= 5199 /\
    sendPreviewOk started_id 5100
      = sendPreviewOk (previewId (sendPreviewOk started_id 5100))
                      (ok_port (sendPreviewOk started_id 5100)) /\
    migrationResults started_stores = migrationResults st_empty /\
    planSessions started_stores = planSessions st_empty /\
    diagnoseSessions started_stores = diagnoseSessions st_empty.
Proof.
  apply (preview_start_registers E_up H_ready body_r1 st_empty started_stores w0
           (snd started) (sendPreviewOk started_id 5100)).
  vm_compute. reflexivity.
Defined.

(** X16: the session a start has filed is reachable both ways: a
    request for the [previewUrl] sent back is forwarded, as [/], to
    [http://127.0.0.1:<port sent back>], and an asset request whose
    Referer names the new id is forwarded there with its path
    unchanged; [directUrl] is that same target followed by a slash. *)
Theorem started_session_is_routed (E : Env) (H : Host) (body : StartBody)
    (st st' : Stores) (w w' : World) (b : PreviewOk)
    (decodeURIComponent : string -> option string)
    (Hs : preview_start E H body st w = (Ok (StartOk b, st'), w'))
    (Hshape : uuid_shaped (previewId b))
    (Hdec : decodeURIComponent (previewId b) = Some (previewId b)) :
  proxy_router decodeURIComponent st' (mkRequest (previewUrl b) None None)
    = Forward ("http://127.0.0.1:" +:+ String_ (ok_port b)) "/" /\
  (forall req, absAsset (path req) = true -> referer_id req = Some (previewId b) ->
     proxy_router decodeURIComponent st' req
     = Forward ("http://127.0.0.1:" +:+ String_ (ok_port b)) (path req)) /\
  directUrl b = "http://127.0.0.1:" +:+ String_ (ok_port b) +:+ "/".
Proof.
  destruct (preview_start_ok E H body st st' w w' b Hs) as [rid Hss].
  destruct (start_session_ok E H rid st st' w w' b Hss) as (child & dir & Hb & Hp & ->).
  destruct Hshape as [Hlen Hall].
  set (i := previewId b) in *. set (p := ok_port b) in *.
  assert (Hurl : previewUrl b = "/preview/" +:+ i) by (rewrite Hb; reflexivity).
  split; [|split].
  - rewrite Hurl. unfold proxy_router.
    rewrite referer_mw_non_asset by reflexivity.
    unfold preview_mw. cbn [path].
    assert (Hm : mount_preview ("/preview/" +:+ i) = Some i).
    { unfold mount_preview.
      change (slower (stake 9 ("/preview/" +:+ i))) with "/preview/".
      change (sdrop 9 ("/preview/" +:+ i)) with i.
      rewrite (RouterMore.segment_id i Hall). cbn [String.eqb Ascii.eqb Bool.eqb].
      destruct i; [discriminate Hlen | reflexivity]. }
    rewrite Hm, Hdec. cbn [previewSessions]. rewrite lookup_insert_eq.
    unfold target_of. cbn [port]. f_equal.
    assert (Hne : "/preview/" +:+ i <> "") by discriminate.
    pose proof (RouterMore.pathRewrite_strips_eq ("/preview/" +:+ i) "" Hne) as Hr.
    rewrite RouterMore.string_app_empty in Hr. exact Hr.
  - intros req Ha Hi. unfold proxy_router.
    rewrite (referer_mw_registered _ req i _ Ha Hi (lookup_insert_eq _ _ _)).
    reflexivity.
  - rewrite Hb. reflexivity.
Qed.

Lemma started_session_is_routed_witness :
  proxy_router Some started_stores
    (mkRequest (previewUrl (sendPreviewOk started_id 5100)) None None)
    = Forward ("http://127.0.0.1:" +:+ String_ 5100) "/" /\
  (forall req, absAsset (path req) = true -> referer_id req = Some started_id ->
     proxy_router Some started_stores req
     = Forward ("http://127.0.0.1:" +:+ String_ 5100) (path req)) /\
  directUrl (sendPreviewOk started_id 5100)
    = "http://127.0.0.1:" +:+ String_ 5100 +:+ "/".
Proof.
  apply (started_session_is_routed E_up H_ready body_r1 st_empty started_stores w0
           (snd started) (sendPreviewOk started_id 5100) Some).
  - vm_compute. reflexivity.
  - split; [reflexivity | repeat constructor].
  - reflexivity.
Defined.

(** X17: start and stop are inverse on the stores: stopping the
    session a start has just filed under a fresh id answers ok, sends
    SIGTERM to the session's child, removes its temp directory and
    gives back exactly the stores from before the start. *)
Theorem start_then_stop (E : Env) (H : Host) (body : StartBody)
    (st st' : Stores) (w w' : World) (b : PreviewOk)
    (Hs : preview_start E H body st w = (Ok (StartOk b, st'), w'))
    (Hfresh : previewSessions st !! previewId b = None) :
  exists sess w'',
    lookup_session (previewId b) st' = Some sess /\
    delete_preview E (previewId b) st' w'
      = (Ok (mkResponse 200 (Json true None), st), w'') /\
    trace w'' = EvRemove (tempDir sess) :: EvKill (childPid sess) :: trace w'.
Proof.
  destruct (preview_start_ok E H body st st' w w' b Hs) as [rid Hss].
  destruct (start_session_ok E H rid st st' w w' b Hss) as (child & dir & Hb & Hp & ->).
  eexists _, _. split; [apply lookup_insert_eq|].
  split; [apply stop_inserted, Hfresh | reflexivity].
Qed.

Lemma start_then_stop_witness :
  exists sess w'',
    lookup_session (previewId (sendPreviewOk started_id 5100)) started_stores = Some sess /\
    delete_preview E_up (previewId (sendPreviewOk started_id 5100)) started_stores
                   (snd started)
      = (Ok (mkResponse 200 (Json true None), st_empty), w'') /\
    trace w'' = EvRemove (tempDir sess) :: EvKill (childPid sess) :: trace (snd started).
Proof.
  apply (start_then_stop E_up H_ready body_r1 st_empty started_stores w0
           (snd started) (sendPreviewOk started_id 5100)).
  - vm_compute. reflexivity.
  - reflexivity.
Defined.

(** X18: every preview session is filed under its own id, always: this
    holds of the empty stores the server starts with, and a start, a
    stop and a sweep each keep it. *)
Theorem keyed_preserved (E : Env) (H : Host) (st : Stores) (Hk : keyed st) :
  keyed (mkStores ∅ ∅ ∅ ∅) /\
  (forall body w resp st' w',
     preview_start E H body st w = (Ok (resp, st'), w') -> keyed st') /\
  (forall i w resp st' w',
     delete_preview E i st w = (Ok (resp, st'), w') -> keyed st') /\
  (forall w st' w', sweep E st w = (Ok st', w') -> keyed st').
Proof.
  split; [|split; [|split]].
  - intros k sess Hl. cbn in Hl. rewrite lookup_empty in Hl. discriminate.
  - intros body w [b|r] st' w' Hs.
    + destruct (preview_start_ok E H body st st' w w' b Hs) as [rid Hss].
      destruct (start_session_ok E H rid st st' w w' b Hss) as (child & dir & _ & _ & ->).
      intros k sess Hl. cbn [previewSessions] in Hl.
      destruct (decide (previewId b = k)) as [<-|Hne].
      * rewrite lookup_insert_eq in Hl. injection Hl as <-. reflexivity.
      * rewrite lookup_insert_ne in Hl by exact Hne. apply Hk, Hl.
    + rewrite (preview_start_fail_same E H body st st' w w' r Hs). exact Hk.
  - intros i w resp st' w' Hd.
    destruct (previewSessions st !! i) as [sess|] eqn:Hi.
    + rewrite (delete_preview_found E i st sess w Hi) in Hd. injection Hd as _ <- _.
      intros k s0 Hl. cbn [previewSessions] in Hl.
      apply lookup_delete_Some in Hl. apply Hk, Hl.
    + rewrite (delete_preview_missing E i st w Hi) in Hd. injection Hd as _ <- _. exact Hk.
  - intros w st' w' Hsw. unfold sweep, bind in Hsw.
    destruct (RegistryMore.sweep_store_shape E timestamp zipPath (now w)
                (migrationResults st) w) as (u1 & H1 & _). rewrite H1 in Hsw.
    destruct (RegistryMore.sweep_store_shape E plan_timestamp plan_tempDir (now w)
                (planSessions st) u1) as (u2 & H2 & _). rewrite H2 in Hsw.
    destruct (RegistryMore.sweep_store_shape E plan_timestamp plan_tempDir (now w)
                (diagnoseSessions st) u2) as (u3 & H3 & _). rewrite H3 in Hsw.
    injection Hsw as <- _. exact Hk.
Qed.

Lemma keyed_preserved_witness :
  keyed (mkStores ∅ ∅ ∅ ∅) /\
  (forall body w resp st' w',
     preview_start E_up H_ready body st_empty w = (Ok (resp, st'), w') -> keyed st') /\
  (forall i w resp st' w',
     delete_preview E_up i st_empty w = (Ok (resp, st'), w') -> keyed st') /\
  (forall w st' w', sweep E_up st_empty w = (Ok st', w') -> keyed st').
Proof.
  apply (keyed_preserved E_up H_ready st_empty).
  intros k sess Hl. cbn in Hl. rewrite lookup_empty in Hl. discriminate.
Defined.

(** X19: the health route answers 404 for an id that is not
    registered, without asking anything.  For a registered session it
    always answers with a report of that session's port: it has asked
    only candidate paths of [http://127.0.0.1:<port>/], a report that
    says not ok comes only after the 2 s budget, and one that says ok
    only after such a path has answered 2xx in time. *)
Theorem preview_health_spec (E : Env) (st : Stores) (w : World) (i : string) :
  (previewSessions st !! i = None ->
   preview_health E i st w
   = (Ok (inl (mkResponse 404 (Json false (Some "Preview not found")))), w)) /\
  (forall sess, previewSessions st !! i = Some sess ->
     let base := "http://127.0.0.1:" +:+ String_ (port sess) +:+ "/" in
     exists b w' new,
       preview_health E i st w
       = (Ok (inr (mkHealth b ("/preview/" +:+ i) base (port sess))), w') /\
       trace w' = new ++ trace w /\
       Forall (probe_event E base 300 paths) new /\
       (b = false -> 2000 <= now w' - now w) /\
       (b = true ->
        exists u p url m, p ∈ paths /\ url_resolve E p base = Some url /\
          answers_ok (fetch E u url m) (request_timeout 300) = true /\
          now w <= now u <= now w')).
Proof.
  split.
  - intros Hi. unfold preview_health. rewrite Hi. reflexivity.
  - intros sess Hi base. unfold preview_health. rewrite Hi. fold base. unfold bind.
    destruct (waitForOkAny_returns E base 2000 300 w) as (b & w' & new & Heq & Htr & Hf).
    destruct (LauncherMore.probe_time E base 2000 300 w) as (b' & w1 & Heq' & _ & Hfalse).
    rewrite Heq in Heq'. injection Heq' as <- <-. rewrite Heq.
    exists b, w', new. split; [reflexivity|]. split; [exact Htr|]. split; [exact Hf|].
    split; [exact Hfalse|]. intros ->.
    unfold waitForOkAny in Heq. eapply ProberMore.poll_true, Heq.
Qed.

Lemma preview_health_spec_witness :
  preview_health E_500 "never" st_one w0
  = (Ok (inl (mkResponse 404 (Json false (Some "Preview not found")))), w0) /\
  (let base := "http://127.0.0.1:" +:+ String_ (port s1) +:+ "/" in
   exists b w' new,
     preview_health E_500 "s1" st_one w0
     = (Ok (inr (mkHealth b ("/preview/" +:+ "s1") base (port s1))), w') /\
     trace w' = new ++ trace w0 /\
     Forall (probe_event E_500 base 300 paths) new /\
     (b = false -> 2000 <= now w' - now w0) /\
     (b = true ->
      exists u p url m, p ∈ paths /\ url_resolve E_500 p base = Some url /\
        answers_ok (fetch E_500 u url m) (request_timeout 300) = true /\
        now w0 <= now u <= now w')).
Proof.
  split.
  - apply (proj1 (preview_health_spec E_500 st_one w0 "never")). reflexivity.
  - apply (proj2 (preview_health_spec E_500 st_one w0 "s1") s1). reflexivity.
Defined.

End PreviewFacts.

(** * Edge behaviour of the launcher and the prober *)

Module EdgeFacts.
Import Os Allocator Prober Launcher ProbeSpec LaunchSpec ExtraSpec Scenario.
Import ProberFacts LauncherFacts.

Section Facts.
Variable E : Env.

(** When every port of the scan is busy at all times the scan throws. *)
Lemma scan_all_busy (n : nat) (p : Z) (w : World) :
  0 <= p -> (n = 0%nat \/ p + Z.of_nat n - 1 <= 65535) ->
  (forall u q, p <= q < p + Z.of_nat n -> listen_fails E u q = true) ->
  exists w', scan E n p w = (Throw (Error "No free port found"), w') /\
    trace w' = failed n p ++ trace w.
Proof.
  intros Hp Hhi Hbusy.
  pose proof (AllocatorFacts.scan_spec E n p w Hp Hhi) as Hspec.
  destruct (scan E n p w) as [[q|e|] w'] eqn:Hscan.
  - destruct Hspec as (Hq & _).
    apply AllocatorFacts.scan_free in Hscan. destruct Hscan as [l Hl].
    rewrite Hbusy in Hl by exact Hq. discriminate.
  - destruct Hspec as (-> & _ & Htr). exists w'. split; [reflexivity | exact Htr].
  - contradiction.
Qed.

(** A tick on a base that [new URL] rejects asks nothing. *)
Lemma probe_paths_bad_base (base : string) (i : Z) (ps : list string) (w : World) :
  (forall p, url_resolve E p base = None) ->
  probe_paths E base i ps w = (Ok false, w).
Proof.
  intros Hbad. induction ps as [|p ps IH]; [reflexivity|].
  cbn [probe_paths]. rewrite Hbad. exact IH.
Qed.

Lemma poll_bad_base (base : string) (t0 total i : Z) (fuel : nat) : forall w r w',
  (forall p, url_resolve E p base = None) ->
  poll E fuel base t0 total i w = (r, w') ->
  exists new, trace w' = new ++ trace w /\ Forall (fun e => e = EvSleep i) new.
Proof.
  induction fuel as [|fuel IH]; intros w r w' Hbad Hp; cbn [poll] in Hp.
  - destruct (now w - t0 <? total); injection Hp as <- <-;
      exists []; (split; [reflexivity | constructor]).
  - destruct (now w - t0 <? total).
    + unfold bind in Hp. rewrite (probe_paths_bad_base base i paths w Hbad) in Hp.
      destruct (sleep_spec E i w) as (w2 & Hs & Htr2 & _). rewrite Hs in Hp.
      destruct (IH w2 r w' Hbad Hp) as (new & Htr & Hall).
      exists (new ++ [EvSleep i]). split.
      * rewrite Htr, Htr2, <- app_assoc. reflexivity.
      * apply Forall_app. split; [exact Hall | repeat constructor].
    + injection Hp as <- <-. exists []. split; [reflexivity | constructor].
Qed.

End Facts.

(** X20: when every port of 5100..5199 is busy, a launch with at least
    one attempt throws "No free port found" after having tried to bind
    each of the hundred ports once, without spawning anything; with
    [maxRetry = 0] a launch throws "Failed to start dev server" at once
    and does nothing at all. *)
Theorem launch_without_port (E : Env) (cwd : string) (maxRetry : nat) (w : World) :
  (maxRetry <> 0%nat ->
   (forall u q, 5100 <= q <= 5199 -> listen_fails E u q = true) ->
   exists w', spawnDevServerWithRetry E cwd maxRetry w
              = (Throw (Error "No free port found"), w') /\
     trace w' = failed 100 5100 ++ trace w /\
     count_spawns (failed 100 5100) = 0%nat) /\
  (maxRetry = 0%nat ->
   spawnDevServerWithRetry E cwd maxRetry w
   = (Throw (Error "Failed to start dev server"), w)).
Proof.
  assert (exists v x, detect E cwd w = (Ok (v, x), w)) as (v & x & Hd).
  { unfold detect. destruct (readJson E w (cwd +:+ "/package.json")); eauto. }
  split.
  - intros Hn Hbusy. unfold spawnDevServerWithRetry, bind at 1. rewrite Hd. cbn [fst snd].
    destruct maxRetry as [|n]; [contradiction|]. cbn [attempts]. unfold bind at 1.
    change (getFreePort E 5100 5199 w) with (scan E 100 5100 w).
    destruct (scan_all_busy E 100 5100 w) as (w' & -> & Htr); [lia | lia | |].
    { intros u q Hq. apply Hbusy. lia. }
    exists w'. split; [reflexivity|]. split; [exact Htr|]. vm_compute. reflexivity.
  - intros ->. unfold spawnDevServerWithRetry, bind. rewrite Hd. reflexivity.
Qed.

Lemma launch_without_port_witness :
  spawnDevServerWithRetry E_up "/srv/app" 0 w0
  = (Throw (Error "Failed to start dev server"), w0).
Proof.
  apply (proj2 (launch_without_port E_up "/srv/app" 0 w0)). reflexivity.
Defined.

(** X21: a base that [new URL] rejects is not an error for the probe:
    every candidate path is skipped, so [waitForOkAny] sends no request
    at all, sleeps through its whole budget and returns [false]. *)
Theorem waitForOkAny_bad_base (E : Env) (base : string) (totalMs intervalMs : Z)
    (w : World) (Hbad : forall p, url_resolve E p base = None) :
  exists w' new,
    waitForOkAny E base totalMs intervalMs w = (Ok false, w') /\
    trace w' = new ++ trace w /\
    Forall (fun e => e = EvSleep intervalMs) new /\
    totalMs <= now w' - now w.
Proof.
  unfold waitForOkAny.
  destruct (poll_enough_fuel E base (now w) totalMs intervalMs (Z.to_nat totalMs) w)
    as (b & w' & new0 & Heq & _ & _ & Hfalse & _); [lia|].
  destruct (poll_bad_base E base (now w) totalMs intervalMs _ w _ w' Hbad Heq)
    as (new & Htr & Hall).
  destruct b.
  - exfalso. apply ProberMore.poll_true in Heq.
    destruct Heq as (u & p & url & m & _ & Hu & _). rewrite Hbad in Hu. discriminate.
  - exists w', new. rewrite Heq. split; [reflexivity|].
    split; [exact Htr|]. split; [exact Hall | apply Hfalse; reflexivity].
Qed.

Lemma waitForOkAny_bad_base_witness :
  exists w' new,
    waitForOkAny Scenario2.E_no_url "not a url" 2000 300 w0 = (Ok false, w') /\
    trace w' = new ++ trace w0 /\
    Forall (fun e => e = EvSleep 300) new /\
    2000 <= now w' - now w0.
Proof.
  apply (waitForOkAny_bad_base Scenario2.E_no_url "not a url" 2000 300 w0).
  intros p. reflexivity.
Defined.

End EdgeFacts.
